(** * genpkgbuild-go: a shallow embedding of [main.go] and its properties

    The program resolves a Go import path to a repository, asks three
    questions on the controlling terminal while a goroutine clones the
    repository and derives a version string, and renders a PKGBUILD from an
    [html/template] template.

    Layout of this development:
    - [GoString]: Go strings as byte strings, with the pieces of the Go
      standard library that [main.go] calls ([strings.TrimSpace],
      [strings.Fields], [path.Base], [filepath.Rel] and the HTML escaper of
      [html/template]);
    - [Flag]: the parser of the [flag] package for the flag set of [run];
    - [Genpkgbuild]: the program itself ([run], [prompt], [getVersion],
      [main]) over an explicit process state;
    - [Vocabulary] and [Examples]: the notions that the statements use, and
      the runs that instantiate them;
    - the lemmas and theorems. *)

From Stdlib Require Import Ascii String List NArith ZArith Lia Bool.
From stdpp Require Import gmap strings.

Local Open Scope N_scope.

(** ** Byte strings *)

Module GoString.

(** A Go [string] is an immutable sequence of bytes; [String.string] is a
    sequence of 8-bit characters.  [s1 +:+ s2] is concatenation. *)

Definition byte (c : ascii) : N := N_of_ascii c.

Definition nl : string := String "010"%char "".
Definition dq : string := String "034"%char "".

Fixpoint rev (s : string) : string :=
  match s with
  | "" => ""
  | String c t => rev t +:+ String c ""
  end.

Fixpoint len (s : string) : nat :=
  match s with
  | "" => O
  | String _ t => S (len t)
  end.

Fixpoint take (n : nat) (s : string) : string :=
  match n, s with
  | S k, String c t => String c (take k t)
  | _, _ => ""
  end.

Fixpoint all (p : ascii -> bool) (s : string) : bool :=
  match s with
  | "" => true
  | String c t => p c && all p t
  end.

(** [strings.Join]. *)
Fixpoint Join (elems : list string) (sep : string) : string :=
  match elems with
  | [] => ""
  | [e] => e
  | e :: rest => e +:+ sep +:+ Join rest sep
  end.

Definition concat (l : list string) : string := foldr String.append "" l.

(** ** [unicode/utf8] *)

Definition RuneError : N := 0xFFFD.
Definition RuneSelf : N := 0x80.
Definition UTFMax : nat := 4.

(** The table [first] of [utf8.go]: [0xF0] for an ASCII byte ([as]), [0xF1]
    for a byte that cannot start a rune ([xx]), otherwise the size of the
    rune in the low bits and the index of the accept range of the second
    byte in the high bits. *)
Definition first (b : N) : N :=
  if b <? 0x80 then 0xF0
  else if b <? 0xC2 then 0xF1
  else if b <? 0xE0 then 0x02
  else if b =? 0xE0 then 0x13
  else if b <? 0xED then 0x03
  else if b =? 0xED then 0x23
  else if b <? 0xF0 then 0x03
  else if b =? 0xF0 then 0x34
  else if b <? 0xF4 then 0x04
  else if b =? 0xF4 then 0x44
  else 0xF1.

Definition acceptRanges (i : N) : N * N :=
  match i with
  | 0 => (0x80, 0xBF)
  | 1 => (0xA0, 0xBF)
  | 2 => (0x80, 0x9F)
  | 3 => (0x90, 0xBF)
  | 4 => (0x80, 0x8F)
  | _ => (0, 0)
  end.

Definition outside (b : N) (r : N * N) : bool := (b <? r.1) || (r.2 <? b).

(** [utf8.DecodeRuneInString]: the rune at the head of [s] and its width
    in bytes; [(RuneError, 1)] for an invalid encoding, [(RuneError, 0)]
    for the empty string. *)
Definition DecodeRuneInString (s : string) : N * nat :=
  match s with
  | "" => (RuneError, O)
  | String c0 t0 =>
    let s0 := byte c0 in
    let x := first s0 in
    if 0xF0 <=? x then
      (* mask := rune(x) << 31 >> 31 is all ones exactly when bit 0 of x
         is set, that is for [xx] *)
      (if N.testbit x 0 then RuneError else s0, 1%nat)
    else
      let sz := N.to_nat (N.land x 7) in
      let accept := acceptRanges (N.shiftr x 4) in
      if (len s <? sz)%nat then (RuneError, 1%nat) else
      match t0 with
      | "" => (RuneError, 1%nat)
      | String c1 t1 =>
        let s1 := byte c1 in
        if outside s1 accept then (RuneError, 1%nat) else
        if (sz <=? 2)%nat then
          (N.lor (N.shiftl (N.land s0 0x1F) 6) (N.land s1 0x3F), 2%nat)
        else
        match t1 with
        | "" => (RuneError, 1%nat)
        | String c2 t2 =>
          let s2 := byte c2 in
          if outside s2 (0x80, 0xBF) then (RuneError, 1%nat) else
          if (sz <=? 3)%nat then
            (N.lor (N.lor (N.shiftl (N.land s0 0x0F) 12)
                          (N.shiftl (N.land s1 0x3F) 6))
                   (N.land s2 0x3F), 3%nat)
          else
          match t2 with
          | "" => (RuneError, 1%nat)
          | String c3 _ =>
            let s3 := byte c3 in
            if outside s3 (0x80, 0xBF) then (RuneError, 1%nat) else
            (N.lor (N.lor (N.lor (N.shiftl (N.land s0 0x07) 18)
                                 (N.shiftl (N.land s1 0x3F) 12))
                          (N.shiftl (N.land s2 0x3F) 6))
                   (N.land s3 0x3F), 4%nat)
          end
        end
      end
  end.

(** [utf8.RuneStart]: not a continuation byte. *)
Definition RuneStart (b : N) : bool := negb (N.land b 0xC0 =? 0x80).

(** The backwards scan of [utf8.DecodeLastRuneInString] on the bytes that
    precede the last one, nearest first: how many of them lie at or after
    [start] once the loop [for start--; start >= lim; start--] is over. *)
Fixpoint runeStartBack (before : string) (budget : nat) : nat :=
  match budget, before with
  | O, _ => O
  | _, "" => O
  | S b, String a t => if RuneStart (byte a) then 1%nat else S (runeStartBack t b)
  end.

(** [utf8.DecodeLastRuneInString], on the reversed string. *)
Definition decodeLastRev (r : string) : N * nat :=
  match r with
  | "" => (RuneError, O)
  | String c before =>
    if byte c <? RuneSelf then (byte c, 1%nat) else
    let k := S (runeStartBack before (UTFMax - 1)) in
    let '(ru, size) := DecodeRuneInString (rev (take k r)) in
    if (size =? k)%nat then (ru, size) else (RuneError, 1%nat)
  end.

Definition DecodeLastRuneInString (s : string) : N * nat := decodeLastRev (rev s).

(** ** [unicode.IsSpace] and [strings.asciiSpace] *)

Definition IsSpace (r : N) : bool :=
  if r <=? 0xFF then
    match r with
    | 9 | 10 | 11 | 12 | 13 | 32 | 0x85 | 0xA0 => true
    | _ => false
    end
  else
    (r =? 0x1680) || ((0x2000 <=? r) && (r <=? 0x200A))
    || (r =? 0x2028) || (r =? 0x2029) || (r =? 0x202F) || (r =? 0x205F)
    || (r =? 0x3000).

Definition asciiSpace (c : ascii) : bool :=
  match byte c with
  | 9 | 10 | 11 | 12 | 13 | 32 => true
  | _ => false
  end.

Definition isASCII (c : ascii) : bool := byte c <? RuneSelf.

(** ** [strings.TrimSpace] *)

(** [strings.TrimLeftFunc]: [indexFunc] walks the runes of [s] (a
    [for range] loop) up to the first one that does not satisfy [f].
    [skip] counts the bytes of the current rune still to be passed. *)
Fixpoint trimLeftFrom (f : N -> bool) (skip : nat) (s : string) : string :=
  match s with
  | "" => ""
  | String _ t =>
    match skip with
    | S k => trimLeftFrom f k t
    | O =>
      let '(r, size) := DecodeRuneInString s in
      if f r then trimLeftFrom f (size - 1) t else s
    end
  end.

Definition TrimLeftFunc (s : string) (f : N -> bool) : string := trimLeftFrom f O s.

(** [strings.TrimRightFunc]: [lastIndexFunc] walks the runes of [s] from
    the end with [utf8.DecodeLastRuneInString]; the string is handled
    reversed, last byte first. *)
Fixpoint trimRightFrom (f : N -> bool) (skip : nat) (r : string) : string :=
  match r with
  | "" => ""
  | String _ t =>
    match skip with
    | S k => trimRightFrom f k t
    | O =>
      let '(ru, size) := decodeLastRev r in
      if f ru then trimRightFrom f (size - 1) t else r
    end
  end.

Definition TrimRightFunc (s : string) (f : N -> bool) : string :=
  rev (trimRightFrom f O (rev s)).

Definition TrimFunc (s : string) (f : N -> bool) : string :=
  TrimRightFunc (TrimLeftFunc s f) f.

(** The second loop of [TrimSpace], on [s[start:]] reversed: drop ASCII
    white space from the end; on a byte that is not ASCII fall back to
    [TrimRightFunc]. *)
Fixpoint trimStop (r : string) : string :=
  match r with
  | "" => ""
  | String c t =>
    if negb (isASCII c) then trimRightFrom IsSpace O r
    else if asciiSpace c then trimStop t
    else r
  end.

Fixpoint TrimSpace (s : string) : string :=
  match s with
  | "" => ""
  | String c t =>
    if negb (isASCII c) then TrimFunc s IsSpace
    else if asciiSpace c then TrimSpace t
    else rev (trimStop (rev s))
  end.

(** ** [strings.Fields] *)

Definition emit (cur : option string) : list string :=
  match cur with Some f => [f] | None => [] end.

Definition extend (cur : option string) (c : ascii) : string :=
  match cur with Some f => f +:+ String c "" | None => String c "" end.

(** The ASCII path of [Fields]; [cur] is the field being read, if any. *)
Fixpoint fieldsASCII (cur : option string) (s : string) : list string :=
  match s with
  | "" => emit cur
  | String c t =>
    if asciiSpace c then emit cur ++ fieldsASCII None t
    else fieldsASCII (Some (extend cur c)) t
  end.

(** [strings.FieldsFunc]: the same over runes.  While [skip] bytes of a
    rune remain they go where its first byte went: to the field when one is
    open, nowhere when the rune was a separator. *)
Fixpoint fieldsFrom (f : N -> bool) (skip : nat) (cur : option string) (s : string)
  : list string :=
  match s with
  | "" => emit cur
  | String c t =>
    match skip with
    | S k => fieldsFrom f k (match cur with Some _ => Some (extend cur c) | None => None end) t
    | O =>
      let '(r, size) := DecodeRuneInString s in
      if f r then emit cur ++ fieldsFrom f (size - 1) None t
      else fieldsFrom f (size - 1) (Some (extend cur c)) t
    end
  end.

Definition FieldsFunc (s : string) (f : N -> bool) : list string := fieldsFrom f O None s.

Definition Fields (s : string) : list string :=
  if all isASCII s then fieldsASCII None s else FieldsFunc s IsSpace.

(** ** [path.Base] *)

Definition isSlash (c : ascii) : bool := if decide (c = "/"%char) then true else false.

Fixpoint dropSlashes (r : string) : string :=
  match r with
  | String c t => if isSlash c then dropSlashes t else r
  | "" => ""
  end.

(** The bytes of [s] before its first slash. *)
Fixpoint elem (s : string) : string :=
  match s with
  | String c t => if isSlash c then "" else String c (elem t)
  | "" => ""
  end.

(** [s] from its first slash on. *)
Fixpoint afterElem (s : string) : string :=
  match s with
  | String c t => if isSlash c then s else afterElem t
  | "" => ""
  end.

Definition Base (path : string) : string :=
  if decide (path = "") then "." else
  (* strip trailing slashes, then keep what follows the last slash *)
  let last := rev (elem (dropSlashes (rev path))) in
  if decide (last = "") then "/" else last.

(** ** [filepath.Clean] and [filepath.Rel] (Unix: no volume names, the
    separator is the slash, [sameWord] is equality) *)

Definition isDot (c : ascii) : bool := if decide (c = "."%char) then true else false.

(** [r == n || os.IsPathSeparator(path[r])] for the rest of the path. *)
Definition atElemEnd (rest : string) : bool :=
  match rest with
  | "" => true
  | String c _ => isSlash c
  end.

(** The backtracking of a [..] element.  [out] is the buffer reversed,
    [w] the index of its head: after [out.w--] the loop lowers [w] while
    [w > dotdot] and [out[w]] is no separator, and the buffer keeps
    [out[0:w]]. *)
Fixpoint backtrack (out : string) (w dotdot : nat) : string :=
  match out with
  | "" => ""
  | String c t =>
    if (dotdot <? w)%nat && negb (isSlash c) then backtrack t (w - 1) dotdot else t
  end.

(** The loop [for r < n] of [Clean].  [out] is the [lazybuf] reversed, so
    [out.w] is [len out]; [inElem] says that the copy loop of a real path
    element is running. *)
Fixpoint cleanLoop (rooted inElem : bool) (path out : string) (dotdot : nat) : string :=
  match path with
  | "" => out
  | String c t =>
    if inElem then
      if isSlash c then cleanLoop rooted false t out dotdot
      else cleanLoop rooted true t (String c out) dotdot
    else if isSlash c then
      (* empty path element *)
      cleanLoop rooted false t out dotdot
    else if isDot c && atElemEnd t then
      (* . element *)
      cleanLoop rooted false t out dotdot
    else
      let real :=
        (* real path element: add slash if needed, copy element *)
        let out1 :=
          if (rooted && negb (len out =? 1)%nat) || (negb rooted && negb (len out =? 0)%nat)
          then String "/" out else out in
        cleanLoop rooted true t (String c out1) dotdot in
      match t with
      | String c' t' =>
        if isDot c && isDot c' && atElemEnd t' then
          (* .. element: remove to last separator *)
          if (dotdot <? len out)%nat then
            cleanLoop rooted false t' (backtrack out (len out - 1) dotdot) dotdot
          else if negb rooted then
            let out1 := if (0 <? len out)%nat then String "/" out else out in
            let out2 := String "." (String "." out1) in
            cleanLoop rooted false t' out2 (len out2)
          else cleanLoop rooted false t' out dotdot
        else real
      | "" => real
      end
  end.

Definition Clean (path : string) : string :=
  match path with
  | "" => "."
  | String c t =>
    let out :=
      if isSlash c then cleanLoop true false t "/" 1
      else cleanLoop false false path "" 0 in
    if decide (out = "") then "." else rev out
  end.

Definition skipSlash (s : string) : string :=
  match s with
  | String _ t => t
  | "" => ""
  end.

(** Where the element-matching loop of [Rel] stops: [base[b0:bi]],
    [base[b0:]] and [targ[t0:]]. *)
Record relStop := { differing : string; baseRest : string; targRest : string }.

(** The loop of [Rel] that puts [base[b0:bi]] and [targ[t0:ti]] at the
    first elements that differ, on [base[b0:]] and [targ[t0:]].  When the
    target runs out before the base, the next element of the base is the one
    that differs: [Rel] of [../..] and [..] is an error.  Every turn that
    does not stop shortens [base[b0:]], so [len base] turns are enough;
    [None] stands for more turns than [fuel]. *)
Fixpoint relLoop (fuel : nat) (b t : string) : option relStop :=
  match b, t with
  | "", _ => Some {| differing := ""; baseRest := b; targRest := t |}
  | _, "" => Some {| differing := elem b; baseRest := b; targRest := t |}
  | _, _ =>
    if decide (elem t = elem b) then
      match fuel with
      | O => None
      | S fuel' => relLoop fuel' (skipSlash (afterElem b)) (skipSlash (afterElem t))
      end
    else Some {| differing := elem b; baseRest := b; targRest := t |}
  end.

Fixpoint count (p : ascii -> bool) (s : string) : nat :=
  match s with
  | "" => O
  | String c t => if p c then S (count p t) else count p t
  end.

Fixpoint dotdots (seps : nat) : string :=
  match seps with
  | O => ""
  | S k => "/.." +:+ dotdots k
  end.

Definition slashed (s : string) : bool :=
  match s with
  | String c _ => isSlash c
  | "" => false
  end.

(** [filepath.Rel]; [inl] carries the message of the error.  A target that
    is [.] after [Clean] is compared as an element like any other: [Rel] of
    [a/b/c] and [.] is [../../../.]. *)
Definition Rel (basepath targpath : string) : string + string :=
  let base := Clean basepath in
  let targ := Clean targpath in
  if decide (targ = base) then inr "." else
  let base := if decide (base = ".") then "" else base in
  let cannot := inl ("Rel: can't make " +:+ targpath +:+ " relative to " +:+ basepath) in
  if negb (Bool.eqb (slashed base) (slashed targ)) then cannot else
  match relLoop (len base) base targ with
  | None => cannot
  | Some st =>
    if decide (differing st = "..") then cannot else
    if decide (baseRest st = "") then inr (targRest st) else
    (* base elements left: go up before going down *)
    let seps := count isSlash (baseRest st) in
    inr (".." +:+ dotdots seps
         +:+ (if decide (targRest st = "") then "" else "/" +:+ targRest st))
  end.

(** ** The escaper of [html/template] in text context *)

(** [htmlReplacementTable]; the empty string stands for no entry. *)
Definition htmlReplacementTable (r : N) : string :=
  match r with
  | 0 => String "239" (String "191" (String "189" ""))
  | 34 => "&#34;"
  | 38 => "&amp;"
  | 39 => "&#39;"
  | 43 => "&#43;"
  | 60 => "&lt;"
  | 62 => "&gt;"
  | _ => ""
  end.

(** [htmlReplacer s htmlReplacementTable true]: rune by rune, a rune with
    an entry in the table (whose length is 63) is replaced by it, every
    other byte is kept. *)
Fixpoint htmlReplacerFrom (skip : nat) (s : string) : string :=
  match s with
  | "" => ""
  | String c t =>
    match skip with
    | S k => String c (htmlReplacerFrom k t)
    | O =>
      let '(r, w) := DecodeRuneInString s in
      if (r <? 63) && negb (bool_decide (htmlReplacementTable r = "")) then
        htmlReplacementTable r +:+ htmlReplacerFrom (w - 1) t
      else String c (htmlReplacerFrom (w - 1) t)
    end
  end.

(** [htmlEscaper] applied to one [string] argument. *)
Definition htmlEscaper (s : string) : string := htmlReplacerFrom O s.

End GoString.

(** ** The [flag] package, for the one flag set of [run] *)

Module Flag.
Import GoString.

(** What [FlagSet.Parse] comes to: it stops at the first argument that is
    no flag, with the value of [-o] and the arguments left ([fs.Args()]), or
    the process exits ([flag.ExitOnError]) after writing to standard error. *)
Inductive parse :=
| Parsed (output : string) (rest : list string)
| Exits (code : Z) (stderr : string).

Definition tail (s : string) : string :=
  match s with String _ t => t | "" => "" end.

(** The loop [for i := 1; i < len(name); i++] of [parseOne]: the name up
    to the first [=] that is not its first byte, and the value after it. *)
Fixpoint cutValue (name : string) : string * option string :=
  match name with
  | "" => ("", None)
  | String c t =>
    if bool_decide (c = "="%char) then ("", Some t)
    else let '(n, v) := cutValue t in (String c n, v)
  end.

Definition splitName (name : string) : string * option string :=
  match name with
  | "" => ("", None)
  | String c t => let '(n, v) := cutValue t in (String c n, v)
  end.

Section FlagSet.

(** [fs.Usage], a closure over the usage text of the program. *)
Variable usage : string.

Definition Usage : string := usage +:+ nl +:+ nl.

(** [FlagSet.failf]: the message, then the usage. *)
Definition failf (msg : string) : parse := Exits 2 (msg +:+ nl +:+ Usage).

(** [FlagSet.Parse] with the loop over [parseOne] unfolded.  The only flag
    defined is the string flag [o], whose current value is [output]. *)
Fixpoint Parse (output : string) (arguments : list string) : parse :=
  match arguments with
  | [] => Parsed output []
  | s :: rest =>
    match s with
    | String "-" (String c1 t1 as t0) =>
      let dashes := bool_decide (c1 = "-"%char) in
      if dashes && bool_decide (t1 = "") then
        (* "--" terminates the flags *)
        Parsed output rest
      else
        let name := if dashes then t1 else t0 in
        match name with
        | "" => failf ("bad flag syntax: " +:+ s)
        | String n0 _ =>
          if bool_decide (n0 = "-"%char) || bool_decide (n0 = "="%char) then
            failf ("bad flag syntax: " +:+ s)
          else
            let '(name, value) := splitName name in
            if bool_decide (name = "o") then
              match value with
              | Some v => Parse v rest
              | None =>
                (* the value is the next argument *)
                match rest with
                | v :: rest' => Parse v rest'
                | [] => failf ("flag needs an argument: -" +:+ name)
                end
              end
            else if bool_decide (name = "help") || bool_decide (name = "h") then
              (* flag.ErrHelp: usage only; exit status 0 (2 before Go 1.15) *)
              Exits 0 Usage
            else failf ("flag provided but not defined: -" +:+ name)
        end
    | _ => Parsed output arguments
    end
  end.

(** The loop [for fs.NArg() > 0] of [run]: the first argument left is
    taken as positional and the rest is parsed again.  [rest] gets shorter
    at every turn, [fuel] bounds the turns. *)
Fixpoint positionals (fuel : nat) (output : string) (rest args : list string)
  : option (list string * parse) :=
  match rest with
  | [] => Some (args, Parsed output [])
  | a :: rest' =>
    match fuel with
    | O => None
    | S fuel' =>
      match Parse output rest' with
      | Parsed output' rest'' => positionals fuel' output' rest'' (args ++ [a])
      | Exits code err => Some (args ++ [a], Exits code err)
      end
    end
  end.

End FlagSet.
End Flag.

(** ** The program *)

Module Genpkgbuild.
Import GoString.

(** *** Errors *)

(** Go's [error] values, by how they are made: [errors.New] and
    [fmt.Errorf] without [%w] give a message only; [fmt.Errorf] with [%w]
    keeps the wrapped error under the formatted message; [*os.PathError] and
    [*exec.ExitError] come from the libraries; [IncorrectUsageError] is the
    struct of [main.go] that embeds an [error]. *)
Inductive error :=
| errorString (s : string)
| wrapError (msg : string) (err : error)
| PathError (Op Path Err : string)
| ExitError (msg : string) (Stderr : string)
| IncorrectUsageError (err : error).

(** The method [Error()]. *)
Fixpoint Error (e : error) : string :=
  match e with
  | errorString s => s
  | wrapError msg _ => msg
  | PathError op path err => op +:+ " " +:+ path +:+ ": " +:+ err
  | ExitError msg _ => msg
  | IncorrectUsageError err => Error err
  end.

(** [fmt.Errorf(prefix + "%w", err)]. *)
Definition Errorf_w (prefix : string) (err : error) : error :=
  wrapError (prefix +:+ Error err) err.

(** [errors.As(err, new(IncorrectUsageError))]: down the chain of
    [Unwrap]. *)
Fixpoint As_IncorrectUsageError (err : error) : bool :=
  match err with
  | IncorrectUsageError _ => true
  | wrapError _ e => As_IncorrectUsageError e
  | _ => false
  end.

(** [errors.As(err, &exitErr)] for [*exec.ExitError]: its [Stderr]. *)
Fixpoint As_ExitError (err : error) : option string :=
  match err with
  | ExitError _ stderr => Some stderr
  | wrapError _ e => As_ExitError e
  | _ => None
  end.

(** *** Constants of [main.go] *)

Definition pkgVerCmdString : string :=
  TrimSpace (nl +:+
    "set -o pipefail" +:+ nl +:+
    "git describe --long --tags 2>/dev/null | sed 's/\([^-]*-g\)/r\1/;s/-/./g' ||" +:+ nl +:+
    "printf " +:+ dq +:+ "r%s.%s" +:+ dq +:+ " " +:+ dq +:+ "$(git rev-list --count HEAD)" +:+ dq
      +:+ " " +:+ dq +:+ "$(git rev-parse --short HEAD)" +:+ dq +:+ nl).

Definition usage : string :=
  TrimSpace (nl +:+
    "Usage: genpkgbuild-go <import-path> [-o <output>]" +:+ nl +:+
    nl +:+
    "Specify Go import path as the argument." +:+ nl +:+
    nl +:+
    "e.g. genpkgbuild-go golang.org/x/tools/godoc" +:+ nl +:+
    nl +:+
    "The output filename can be specified with -o flag. The default is PKGBUILD." +:+ nl +:+
    "Specify " +:+ dq +:+ "-" +:+ dq +:+ " to write STDOUT instead of an actual file." +:+ nl).

Record TmplData := {
  PkgName : string;
  Dir : string;
  PkgVer : string;
  Repo : string;
  Root : string;
  Depends : list string;
  Path : string;
  BinName : string;
}.

(** *** The template [tmpl] *)

(** The template has no [<], so [html/template] keeps every text node as
    it is and every action stands in HTML text context, where its value goes
    through [htmlEscaper].  [Execute] writes the text nodes and the values of
    the actions one after the other, each with one [Write]; [chunks] lists
    them in that order.  The comment action at the head trims the line
    breaks around it. *)

(** [{{range $i, $v := .Depends}}{{if $i}} {{end}}'{{.}}'{{end}}] *)
Fixpoint rangeDepends (i : nat) (depends : list string) : list string :=
  match depends with
  | [] => []
  | v :: rest =>
    (if (0 <? i)%nat then [" "] else []) ++ ["'"; htmlEscaper v; "'"]
    ++ rangeDepends (S i) rest
  end.

(** The text and actions before the [range]. *)
Definition chunksHead (d : TmplData) : list string :=
  ["pkgname="; htmlEscaper (PkgName d);
   nl +:+ "_pkgname="; htmlEscaper (Dir d);
   nl +:+ "pkgver="; htmlEscaper (PkgVer d);
   nl +:+ "pkgrel=1" +:+ nl +:+
   "arch=('i686' 'x86_64')" +:+ nl +:+
   "url='"; htmlEscaper (Repo d);
   "'" +:+ nl +:+
   "source=('git+git://"; htmlEscaper (Root d);
   "')" +:+ nl +:+
   "depends=("].

(** The text between the [range] and [{{if .Path}}]. *)
Definition textFunctions : string :=
  ")" +:+ nl +:+
  "makedepends=('go')" +:+ nl +:+
  "sha1sums=('SKIP')" +:+ nl +:+
  nl +:+
  "pkgver() {" +:+ nl +:+
  "  cd " +:+ dq +:+ "$srcdir/$_pkgname" +:+ dq +:+ nl +:+
  "  ( set -o pipefail" +:+ nl +:+
  "    git describe --long --tags 2>/dev/null | sed 's/\([^-]*-g\)/r\1/;s/-/./g' ||" +:+ nl +:+
  "    printf " +:+ dq +:+ "r%s.%s" +:+ dq +:+ " " +:+ dq +:+ "$(git rev-list --count HEAD)" +:+ dq
    +:+ " " +:+ dq +:+ "$(git rev-parse --short HEAD)" +:+ dq +:+ nl +:+
  "  )" +:+ nl +:+
  "}" +:+ nl +:+
  nl +:+
  "build(){" +:+ nl +:+
  "  cd " +:+ dq +:+ "$srcdir/$_pkgname".

(** [{{if .Path}}/{{.Path}}{{end}}] *)
Definition ifPath (d : TmplData) : list string :=
  if bool_decide (Path d = "") then [] else ["/"; htmlEscaper (Path d)].

(** The text and actions after it. *)
Definition chunksTail (d : TmplData) : list string :=
  [dq +:+ nl +:+
   "  GO111MODULE=on go build -o " +:+ dq +:+ "$srcdir/bin/"; htmlEscaper (BinName d);
   dq +:+ nl +:+
   "}" +:+ nl +:+
   nl +:+
   "package() {" +:+ nl +:+
   "  cd " +:+ dq +:+ "$srcdir/bin" +:+ dq +:+ nl +:+
   "  install -Dm755 '"; htmlEscaper (BinName d);
   "' " +:+ dq +:+ "$pkgdir/usr/bin/"; htmlEscaper (BinName d);
   dq +:+ nl +:+
   "}" +:+ nl].

Definition chunks (d : TmplData) : list string :=
  chunksHead d ++ rangeDepends 0 (Depends d) ++ [textFunctions] ++ ifPath d ++ chunksTail d.

(** What a template execution sends to a destination that takes every
    write. *)
Definition rendered (d : TmplData) : string := concat (chunks d).

(** *** The process and its surroundings *)

(** [vcs.Cmd] and [vcs.RepoRoot], as far as [main.go] reads them. *)
Record Cmd := { Name : string }.
Record RepoRoot := { VCS : Cmd; RepoURL : string; RootPath : string }.

(** The [bufio.Scanner] on the terminal: the tokens [Scan] will still
    yield, and what [Err()] returns once they are used up ([None] at end of
    input). *)
Record Scanner := { tokens : list string; scanErr : option error }.

Inductive chan := errC | versionC.

#[global] Instance chan_eq_dec : EqDecision chan.
Proof. solve_decision. Defined.

(** A send of the goroutine of [run], with the value sent. *)
Inductive send :=
| SendErr (err : option error)
| SendVersion (version : string).

Definition chanOf (s : send) : chan :=
  match s with SendErr _ => errC | SendVersion _ => versionC end.

(** The goroutine does two kinds of things that the rest of the process can
    see: it writes to standard error and it sends on a channel. *)
Inductive bgStep :=
| BgStderr (bytes : string)
| BgSend (s : send).

Inductive file := Stdout | File (path : string).

Record State := {
  scn : Scanner;
  w : string;                     (* what was written to the terminal *)
  files : gmap string string;     (* the files, by path, with their contents *)
  stdout : string;
  stderr : string;
  goroutine : list bgStep;        (* what the goroutine has still to do *)
  handoffs : list chan;           (* the sends received so far, oldest first *)
  writes : nat;                   (* [Write] calls made on the destination *)
}.

(** What the run meets outside the process. *)
Record Env := {
  Args : list string;                                  (* [os.Args] *)
  openTTY : option error;                              (* opening [/dev/tty] *)
  createFile : string -> option error;                 (* creating a file that is not there *)
  RepoRootForImportPath : string -> error + RepoRoot;
  (* [vcs.RepoRootForImportPath] is called verbose: what the library logs to
     standard error while it resolves the import path *)
  verboseLog : string -> string;
  TempDir : error + string;
  Create : Cmd -> string -> string -> option error;    (* [VCS.Create(dir, repo)] *)
  (* [VCS.Create] runs its command verbose: what it writes to standard
     error (the command line and the output of a command that fails) *)
  CreateStderr : Cmd -> string -> string -> string;
  Output : string -> error + string;                   (* [cmd.Output()], by [cmd.Dir] *)
  (* The [n]-th [Write] on the destination: [None] when it succeeds, or
     the bytes it still wrote and its error. *)
  writeFails : nat -> option (nat * error);
}.

(** How a function call ends: with a value, with a non-nil [error] as the
    last result, in a panic, with the process gone in [os.Exit], or never,
    on a channel nobody serves. *)
Inductive result (A : Type) :=
| Ok (a : A)
| Err (err : error)
| Panic (msg : string)
| Exit (code : Z)
| Deadlock.
Arguments Ok {A} a.
Arguments Err {A} err.
Arguments Panic {A} msg.
Arguments Exit {A} code.
Arguments Deadlock {A}.

Definition M (A : Type) : Type := State -> result A * State.

Definition ret {A} (a : A) : M A := fun st => (Ok a, st).

Definition bind {A B} (m : M A) (k : A -> M B) : M B :=
  fun st =>
    match m st with
    | (Ok a, st') => k a st'
    | (Err e, st') => (Err e, st')
    | (Panic msg, st') => (Panic msg, st')
    | (Exit c, st') => (Exit c, st')
    | (Deadlock, st') => (Deadlock, st')
    end.

Notation "x <- m ;; k" := (bind m (fun x => k))
  (at level 63, m at next level, right associativity).
Notation "m ;;; k" := (bind m (fun _ => k))
  (at level 63, right associativity).

Definition fail {A} (err : error) : M A := fun st => (Err err, st).
Definition panic {A} (msg : string) : M A := fun st => (Panic msg, st).
Definition modify (f : State -> State) : M unit := fun st => (Ok tt, f st).

Definition set_scn (x : Scanner) (st : State) : State :=
  {| scn := x; w := w st; files := files st; stdout := stdout st; stderr := stderr st;
     goroutine := goroutine st; handoffs := handoffs st; writes := writes st |}.
Definition set_w (x : string) (st : State) : State :=
  {| scn := scn st; w := x; files := files st; stdout := stdout st; stderr := stderr st;
     goroutine := goroutine st; handoffs := handoffs st; writes := writes st |}.
Definition set_files (x : gmap string string) (st : State) : State :=
  {| scn := scn st; w := w st; files := x; stdout := stdout st; stderr := stderr st;
     goroutine := goroutine st; handoffs := handoffs st; writes := writes st |}.
Definition set_stdout (x : string) (st : State) : State :=
  {| scn := scn st; w := w st; files := files st; stdout := x; stderr := stderr st;
     goroutine := goroutine st; handoffs := handoffs st; writes := writes st |}.
Definition set_stderr (x : string) (st : State) : State :=
  {| scn := scn st; w := w st; files := files st; stdout := stdout st; stderr := x;
     goroutine := goroutine st; handoffs := handoffs st; writes := writes st |}.
Definition set_goroutine (x : list bgStep) (st : State) : State :=
  {| scn := scn st; w := w st; files := files st; stdout := stdout st; stderr := stderr st;
     goroutine := x; handoffs := handoffs st; writes := writes st |}.
Definition set_handoffs (x : list chan) (st : State) : State :=
  {| scn := scn st; w := w st; files := files st; stdout := stdout st; stderr := stderr st;
     goroutine := goroutine st; handoffs := x; writes := writes st |}.
Definition set_writes (x : nat) (st : State) : State :=
  {| scn := scn st; w := w st; files := files st; stdout := stdout st; stderr := stderr st;
     goroutine := goroutine st; handoffs := handoffs st; writes := x |}.

(** [fmt.Fprint(w, s)] on the terminal. *)
Definition Fprint_w (s : string) : M unit := modify (fun st => set_w (w st +:+ s) st).
Definition Fprintln_w (s : string) : M unit := Fprint_w (s +:+ nl).

Definition Fprintln_stderr (s : string) (st : State) : State :=
  set_stderr (stderr st +:+ s +:+ nl) st.

(** *** Channels *)

(** Both channels are unbuffered: a send is over when the other side
    receives.  Receiving lets the goroutine run up to its next send; when
    that send is on another channel, or the goroutine has none left, the
    receiver waits for ever.  What the goroutine writes to standard error
    before a send is put there when the send is received: [run] writes
    nothing to standard error between [go] and its receives, so that the
    bytes stand where they would.  While the goroutine has steps left, the
    bytes of these steps may have been written or not. *)
Fixpoint upToSend (steps : list bgStep) (err : string) : string * list bgStep :=
  match steps with
  | BgStderr bytes :: rest => upToSend rest (err +:+ bytes)
  | _ => (err, steps)
  end.

Definition receive (c : chan) : M send :=
  fun st =>
    let '(err, steps) := upToSend (goroutine st) (stderr st) in
    match steps with
    | BgSend s :: rest =>
      match c, s with
      | errC, SendErr _ | versionC, SendVersion _ =>
        (Ok s, set_handoffs (handoffs st ++ [c]) (set_goroutine rest (set_stderr err st)))
      | _, _ => (Deadlock, set_goroutine steps (set_stderr err st))
      end
    | _ => (Deadlock, set_goroutine steps (set_stderr err st))
    end.

(** [<-errC] and [<-versionC]. *)
Definition recv_errC : M (option error) :=
  s <- receive errC ;;
  ret (match s with SendErr err => err | SendVersion _ => None end).

Definition recv_versionC : M string :=
  s <- receive versionC ;;
  ret (match s with SendVersion v => v | SendErr _ => "" end).

(** *** Writing to the destination *)

Definition append_to (output : file) (bytes : string) (st : State) : State :=
  match output with
  | Stdout => set_stdout (stdout st +:+ bytes) st
  | File path => set_files (<[path := default "" (files st !! path) +:+ bytes]> (files st)) st
  end.

Section Run.

Variable env : Env.

(** [output.Write(bytes)]. *)
Definition Write (output : file) (bytes : string) : State -> option error * State :=
  fun st =>
    let st' := set_writes (S (writes st)) st in
    match writeFails env (writes st) with
    | None => (None, append_to output bytes st')
    | Some (n, err) => (Some err, append_to output (take n bytes) st')
    end.

(** [tmpl.Execute(output, data)]: the writes in order, up to the first
    that fails. *)
Fixpoint writeChunks (output : file) (cs : list string) : State -> option error * State :=
  fun st =>
    match cs with
    | [] => (None, st)
    | c :: rest =>
      match Write output c st with
      | (None, st') => writeChunks output rest st'
      | (Some err, st') => (Some err, st')
      end
    end.

Definition Execute (output : file) (data : TmplData) : State -> option error * State :=
  writeChunks output (chunks data).

(** *** [prompt] *)

Definition prompt (p dflt : string) : M string :=
  (if bool_decide (dflt = "") then Fprint_w (p +:+ ": ")
   else Fprint_w (p +:+ ": (" +:+ dflt +:+ ") ")) ;;;
  fun st =>
    match tokens (scn st) with
    | [] =>
      (* !scn.Scan() *)
      match scanErr (scn st) with
      | Some err => (Err (Errorf_w "input error: " err), st)
      | None => (Err (errorString "interrupted"), st)
      end
    | text :: rest =>
      let st' := set_scn {| tokens := rest; scanErr := scanErr (scn st) |} st in
      let v := TrimSpace text in
      (Ok (if bool_decide (v = "") then dflt else v), st')
    end.

(** *** [getVersion] *)

(** [getVersion] runs in the goroutine: its result and what it writes to
    standard error, and what [VCS.Create] writes there for it. *)
Definition getVersion (repoRoot : RepoRoot) : list bgStep * (string * option error) :=
  match TempDir env with
  | inl err => ([], ("", Some (Errorf_w "could not secure a temp dir: " err)))
  | inr dir =>
    let clone := BgStderr (CreateStderr env (VCS repoRoot) dir (RepoURL repoRoot)) in
    match Create env (VCS repoRoot) dir (RepoURL repoRoot) with
    | Some err => ([clone], ("", Some (Errorf_w "could not clone the repo: " err)))
    | None =>
      match Output env dir with
      | inl err =>
        (clone :: match As_ExitError err with
                  | Some bytes => [BgStderr bytes]
                  | None => []
                  end, ("", Some err))
      | inr version => ([clone], (TrimSpace version, None))
      end
    end
  end.

(** [go func() { version, err := getVersion(repoRoot); errC <- err;
    versionC <- version }()] *)
Definition go_getVersion (repoRoot : RepoRoot) : M unit :=
  let '(steps, (version, err)) := getVersion repoRoot in
  modify (set_goroutine (steps ++ [BgSend (SendErr err); BgSend (SendVersion version)])).

(** *** [run] *)

(** The closure at the head of [run] that parses the command line. *)
Definition parseArgs : M (list string * string) :=
  match Args env with
  | [] => panic "runtime error: slice bounds out of range [1:0]"
  | _ :: arguments =>
    match Flag.Parse usage "PKGBUILD" arguments with
    | Flag.Exits code err => fun st => (Exit code, set_stderr (stderr st +:+ err) st)
    | Flag.Parsed output rest =>
      match Flag.positionals usage (length rest) output rest [] with
      | None => fun st => (Deadlock, st)
      | Some (_, Flag.Exits code err) =>
        fun st => (Exit code, set_stderr (stderr st +:+ err) st)
      | Some (args, Flag.Parsed output _) =>
        match Flag.Parse usage output arguments with
        | Flag.Exits code err => fun st => (Exit code, set_stderr (stderr st +:+ err) st)
        | Flag.Parsed output _ => ret (args, output)
        end
      end
    end
  end.

(** [os.OpenFile(outputPath, os.O_RDWR|os.O_CREATE|os.O_EXCL, 0644)] *)
Definition OpenFile_excl (outputPath : string) : M file :=
  fun st =>
    match files st !! outputPath with
    | Some _ => (Err (PathError "open" outputPath "file exists"), st)
    | None =>
      match createFile env outputPath with
      | Some err => (Err err, st)
      | None => (Ok (File outputPath), set_files (<[outputPath := ""]> (files st)) st)
      end
    end.

(** [filepath.Rel(repoRoot.Root, importPath)] with [.] turned into the
    empty string. *)
Definition relPath (root importPath : string) : M string :=
  relPath <- match Rel root importPath with
             | inl msg => fail (errorString msg)
             | inr p => ret p
             end ;;
  ret (if bool_decide (relPath = ".") then "" else relPath).

(** [run] up to its call of [tmpl.Execute]: the destination and the
    [TmplData] that the call is given. *)
Definition gather : M (file * TmplData) :=
  match openTTY env with
  | Some err => fail (Errorf_w "could not open TTY: " err)
  | None =>
    parsed <- parseArgs ;;
    let '(args, outputPath) := parsed in
    output <- (if bool_decide (outputPath = "-") then ret Stdout
               else OpenFile_excl outputPath) ;;
    if (length (Args env) <? 2)%nat then
      fail (IncorrectUsageError (errorString "specify import path"))
    else
    importPath <- match args with
                  | a :: _ => ret a
                  | [] => panic "runtime error: index out of range [0] with length 0"
                  end ;;
    (* [vcs.RepoRootForImportPath(importPath, true)] *)
    modify (fun st => set_stderr (stderr st +:+ verboseLog env importPath) st) ;;;
    repoRoot <- match RepoRootForImportPath env importPath with
                | inl err => fail (Errorf_w "can't get root repo for the import path: " err)
                | inr r => ret r
                end ;;
    if negb (bool_decide (Name (VCS repoRoot) = "Git")) then
      fail (errorString ("sorry, not git repo is not supported yet: "
                         +:+ Name (VCS repoRoot)))
    else
    go_getVersion repoRoot ;;;
    let baseName := Base (RootPath repoRoot) in
    pkgName <- prompt "Package Name" (baseName +:+ "-git") ;;
    dependsList <- prompt "Dependent Packages(split by space)" "" ;;
    let depends := Fields dependsList in
    relPath <- relPath (RootPath repoRoot) importPath ;;
    binName <- prompt "Binary name to be installed" (Base importPath) ;;
    Fprint_w "Please wait..." ;;;
    err <- recv_errC ;;
    match err with
    | Some err => fail err
    | None =>
      version <- recv_versionC ;;
      (match output with
       | Stdout => Fprintln_w "==========================="
       | File _ => ret tt
       end) ;;;
      Fprintln_w "" ;;;
      ret (output,
           {| PkgName := pkgName; Dir := baseName; PkgVer := version;
              Repo := RepoURL repoRoot; Root := RootPath repoRoot;
              Depends := depends; Path := relPath; BinName := binName |})
    end
  end.

(** [run]: the error of [tmpl.Execute] is not looked at; [run] returns
    [nil] after the call. *)
Definition run : M unit :=
  call <- gather ;;
  (fun st => (Ok tt, (Execute call.1 call.2 st).2)) ;;;
  ret tt.

(** *** [main] *)

(** The exit status of the process and its last state.  A panic that
    nothing recovers ends the process with status 2 after the runtime has
    written the panic (the goroutine traces that follow it are left out);
    so does the runtime when every goroutine is blocked. *)
Definition main (st : State) : Z * State :=
  match run st with
  | (Ok _, st') => (0%Z, st')
  | (Err err, st') =>
    let st1 := Fprintln_stderr (Error err) st' in
    let st2 :=
      if As_IncorrectUsageError err
      then Fprintln_stderr "" (Fprintln_stderr usage (Fprintln_stderr "" st1))
      else st1 in
    (1%Z, st2)
  | (Panic msg, st') => (2%Z, Fprintln_stderr ("panic: " +:+ msg) st')
  | (Exit code, st') => (code, st')
  | (Deadlock, st') =>
    (2%Z, Fprintln_stderr "fatal error: all goroutines are asleep - deadlock!" st')
  end.

End Run.

(** A process that has just started. *)
Definition start (input : Scanner) (fs : gmap string string) : State :=
  {| scn := input; w := ""; files := fs; stdout := ""; stderr := "";
     goroutine := []; handoffs := []; writes := 0 |}.

End Genpkgbuild.

(** * The vocabulary of the statements *)

Module Vocabulary.
Import GoString Genpkgbuild.

#[local] Arguments String.append : simpl nomatch.

(** An ASCII byte that is no white space. *)
Definition solid (c : ascii) : bool := isASCII c && negb (asciiSpace c).

(** A string that starts and ends with such bytes: the two loops of
    [TrimSpace] stop at once on it. *)
Definition trimmed (s : string) : bool :=
  match s, rev s with
  | String c _, String c' _ => solid c && solid c'
  | _, _ => false
  end.

(** A word: not empty, of ASCII bytes that are no white space. *)
Definition word (s : string) : bool := negb (bool_decide (s = "")) && all solid s.

(** The field that [fieldsASCII] is reading, as a string. *)
Definition field (cur : option string) : string :=
  match cur with Some f => f | None => "" end.

(** What [prompt] writes to the terminal before it reads. *)
Definition question (p dflt : string) : string :=
  if bool_decide (dflt = "") then p +:+ ": " else p +:+ ": (" +:+ dflt +:+ ") ".

(** What [prompt] returns for a scanned line. *)
Definition answer (text dflt : string) : string :=
  if bool_decide (TrimSpace text = "") then dflt else TrimSpace text.

(** The goroutine and the handoffs of a state: only [go] and the receives
    change them. *)
Definition background (st : State) : list bgStep * list chan := (goroutine st, handoffs st).

(** [wp m Q st]: the result and the last state of [m] from [st] satisfy
    [Q]. *)
Definition wp {A} (m : M A) (Q : result A -> State -> Prop) (st : State) : Prop :=
  Q (m st).1 (m st).2.

(** What a result that is no value looks like to the caller of [bind]. *)
Definition pass {A B} (r : result A) : result B :=
  match r with
  | Ok _ => Deadlock
  | Err e => Err e
  | Panic msg => Panic msg
  | Exit c => Exit c
  | Deadlock => Deadlock
  end.

Definition isOk {A} (r : result A) : bool :=
  match r with Ok _ => true | _ => false end.

(** Where the goroutine and the channels can stand when [run] is over:
    - no goroutine was started;
    - the goroutine was started and [run] ended before it received: both
      sends are pending;
    - [run] received the error of a fetch that failed and returned it: the
      send of the version is pending for ever;
    - [run] received both values and returned [nil]. *)
Definition notForked (st' : State) : Prop :=
  goroutine st' = [] /\ handoffs st' = [].

Definition notJoined (env : Env) (st' : State) : Prop :=
  exists repoRoot,
    goroutine st' =
      (getVersion env repoRoot).1
      ++ [BgSend (SendErr (getVersion env repoRoot).2.2);
          BgSend (SendVersion (getVersion env repoRoot).2.1)]
    /\ handoffs st' = [].

Definition fetchFailed {A} (env : Env) (r : result A) (st' : State) : Prop :=
  exists repoRoot err,
    (getVersion env repoRoot).2.2 = Some err
    /\ r = Err err
    /\ goroutine st' = [BgSend (SendVersion "")]
    /\ handoffs st' = [errC].

Definition joined (st' : State) : Prop :=
  goroutine st' = [] /\ handoffs st' = [errC; versionC].

Definition channels {A} (env : Env) (r : result A) (st' : State) : Prop :=
  (isOk r = false /\ notForked st')
  \/ (isOk r = false /\ notJoined env st')
  \/ fetchFailed env r st'
  \/ (isOk r = true /\ joined st').

(** How often [run] has received from a channel; a send on an unbuffered
    channel is over when it is received, so this is also how often the
    goroutine has sent on it. *)
Definition received (c : chan) (st : State) : nat :=
  length (filter (fun x => x = c) (handoffs st)).

(** The sends that the goroutine has not got through. *)
Fixpoint pending (steps : list bgStep) : list chan :=
  match steps with
  | [] => []
  | BgSend s :: rest => chanOf s :: pending rest
  | BgStderr _ :: rest => pending rest
  end.

(** What the goroutine writes to standard error before its next send. *)
Fixpoint logged (steps : list bgStep) : string :=
  match steps with
  | BgStderr bytes :: rest => bytes +:+ logged rest
  | _ => ""
  end.

(** The three questions find their lines and the relative path can be
    made: nothing between [go] and the receives makes [run] return. *)
Definition answered (st : State) (root importPath : string) : bool :=
  (3 <=? length (tokens (scn st)))%nat
  && match Rel root importPath with inr _ => true | inl _ => false end.

(** What [gather] says of a destination and a [TmplData] that it returns. *)
Definition gathered (env : Env) (st : State) (output : file) (d : TmplData) : Prop :=
  exists importPath args outputPath repoRoot t1 t2 t3 rest dir out rel,
    (parseArgs env st).1 = Ok (importPath :: args, outputPath)
    /\ RepoRootForImportPath env importPath = inr repoRoot
    /\ Name (VCS repoRoot) = "Git"
    /\ tokens (scn st) = t1 :: t2 :: t3 :: rest
    /\ TempDir env = inr dir
    /\ Output env dir = inr out
    /\ Rel (RootPath repoRoot) importPath = inr rel
    /\ output = (if bool_decide (outputPath = "-") then Stdout else File outputPath)
    /\ d = {| PkgName := answer t1 (Base (RootPath repoRoot) +:+ "-git");
              Dir := Base (RootPath repoRoot);
              PkgVer := TrimSpace out;
              Repo := RepoURL repoRoot;
              Root := RootPath repoRoot;
              Depends := Fields (TrimSpace t2);
              Path := if bool_decide (rel = ".") then "" else rel;
              BinName := answer t3 (Base importPath) |}.

(** What a destination holds. *)
Definition contents (output : file) (st : State) : string :=
  match output with
  | Stdout => stdout st
  | File path => default "" (files st !! path)
  end.

(** A dependency as the template writes it. *)
Definition quoted (v : string) : string := "'" +:+ htmlEscaper v +:+ "'".

(** The line of the dependencies. *)
Definition dependsLine (deps : list string) : string :=
  "depends=(" +:+ Join (map quoted deps) " " +:+ ")".

(** The lines before it and the lines after it. *)
Definition recipeHead (d : TmplData) : string :=
  "pkgname=" +:+ htmlEscaper (PkgName d) +:+ nl +:+
  "_pkgname=" +:+ htmlEscaper (Dir d) +:+ nl +:+
  "pkgver=" +:+ htmlEscaper (PkgVer d) +:+ nl +:+
  "pkgrel=1" +:+ nl +:+
  "arch=('i686' 'x86_64')" +:+ nl +:+
  "url='" +:+ htmlEscaper (Repo d) +:+ "'" +:+ nl +:+
  "source=('git+git://" +:+ htmlEscaper (Root d) +:+ "')" +:+ nl.

Definition pkgverFunction : string :=
  "pkgver() {" +:+ nl +:+
  "  cd " +:+ dq +:+ "$srcdir/$_pkgname" +:+ dq +:+ nl +:+
  "  ( set -o pipefail" +:+ nl +:+
  "    git describe --long --tags 2>/dev/null | sed 's/\([^-]*-g\)/r\1/;s/-/./g' ||" +:+ nl +:+
  "    printf " +:+ dq +:+ "r%s.%s" +:+ dq +:+ " " +:+ dq +:+ "$(git rev-list --count HEAD)" +:+ dq
    +:+ " " +:+ dq +:+ "$(git rev-parse --short HEAD)" +:+ dq +:+ nl +:+
  "  )" +:+ nl +:+
  "}" +:+ nl.

Definition recipeTail (d : TmplData) : string :=
  "makedepends=('go')" +:+ nl +:+
  "sha1sums=('SKIP')" +:+ nl +:+
  nl +:+
  pkgverFunction +:+
  nl +:+
  "build(){" +:+ nl +:+
  "  cd " +:+ dq +:+ "$srcdir/$_pkgname"
    +:+ (if bool_decide (Path d = "") then "" else "/" +:+ htmlEscaper (Path d))
    +:+ dq +:+ nl +:+
  "  GO111MODULE=on go build -o " +:+ dq +:+ "$srcdir/bin/" +:+ htmlEscaper (BinName d)
    +:+ dq +:+ nl +:+
  "}" +:+ nl +:+
  nl +:+
  "package() {" +:+ nl +:+
  "  cd " +:+ dq +:+ "$srcdir/bin" +:+ dq +:+ nl +:+
  "  install -Dm755 '" +:+ htmlEscaper (BinName d) +:+ "' " +:+ dq +:+ "$pkgdir/usr/bin/"
    +:+ htmlEscaper (BinName d) +:+ dq +:+ nl +:+
  "}" +:+ nl.

(** Five characters that are special to HTML, and the entities that
    replace them. *)
Definition special (c : ascii) : bool :=
  bool_decide (c = "&"%char) || bool_decide (c = "<"%char) || bool_decide (c = ">"%char)
  || bool_decide (c = "'"%char) || bool_decide (c = "034"%char).

Definition entity (c : ascii) : string := htmlReplacementTable (byte c).

(** The characters of HTML markup; an ampersand stays, at the head of
    every entity. *)
Definition markup (c : ascii) : bool :=
  bool_decide (c = "<"%char) || bool_decide (c = ">"%char)
  || bool_decide (c = "'"%char) || bool_decide (c = "034"%char).

Definition isLess (c : ascii) : bool := bool_decide (c = "<"%char).

(** The first [k] bytes of [s], as far as there are any, are not ASCII. *)
Fixpoint highPrefix (k : nat) (s : string) : bool :=
  match k, s with
  | S k', String c t => negb (isASCII c) && highPrefix k' t
  | _, _ => true
  end.

(** The escaper byte by byte: a byte with an entry in
    [htmlReplacementTable] gives the entry, any other byte itself. *)
Definition escapeByte (c : ascii) : string :=
  if bool_decide (htmlReplacementTable (byte c) = "") then String c ""
  else htmlReplacementTable (byte c).

Fixpoint escapeBytes (s : string) : string :=
  match s with
  | "" => ""
  | String c t => escapeByte c +:+ escapeBytes t
  end.

(** No byte of [e] is a slash. *)
Definition noSlash (e : string) : bool := all (fun c => negb (isSlash c)) e.

(** A path element that is a name: not empty, without slash, and neither
    [.] nor [..]. *)
Definition isName (e : string) : bool :=
  negb (bool_decide (e = "")) && noSlash e
  && negb (bool_decide (e = ".")) && negb (bool_decide (e = "..")).

Definition names (es : list string) : Prop := Forall (fun e => isName e = true) es.

(** The buffer of [Clean] with a separator after it when it holds
    something. *)
Definition sep (out : string) : string :=
  if (len out =? 0)%nat then out else String "/" out.

Definition destination (outputPath : string) : file :=
  if bool_decide (outputPath = "-") then Stdout else File outputPath.

Definition opened (outputPath : string) (st : State) : State :=
  if bool_decide (outputPath = "-") then st
  else set_files (<[outputPath := ""]> (files st)) st.

(** The process when the resolver has been called: the destination is
    open, and standard error has what the resolver has logged. *)
Definition resolved (env : Env) (importPath outputPath : string) (st : State) : State :=
  set_stderr (stderr (opened outputPath st) +:+ verboseLog env importPath)
    (opened outputPath st).

Definition questions (root importPath : string) : string :=
  question "Package Name" (Base root +:+ "-git")
  +:+ question "Dependent Packages(split by space)" ""
  +:+ question "Binary name to be installed" (Base importPath).

Definition separator (output : file) : string :=
  match output with
  | Stdout => "===========================" +:+ nl
  | File _ => ""
  end.

Definition dataOf (repoRoot : RepoRoot) (importPath t1 t2 t3 out rel : string) : TmplData :=
  {| PkgName := answer t1 (Base (RootPath repoRoot) +:+ "-git");
     Dir := Base (RootPath repoRoot);
     PkgVer := TrimSpace out;
     Repo := RepoURL repoRoot;
     Root := RootPath repoRoot;
     Depends := Fields (TrimSpace t2);
     Path := if bool_decide (rel = ".") then "" else rel;
     BinName := answer t3 (Base importPath) |}.

(** The error of [prompt] when the scanner has no line left. *)
Definition scanFailure (s : Scanner) : error :=
  match scanErr s with
  | Some err => Errorf_w "input error: " err
  | None => errorString "interrupted"
  end.

(** The file that a run creates: the one that the output path names, when
    the terminal opens, the command line is parsed, the path is not [-], no
    file of that name is there and one can be created. *)
Definition created (env : Env) (st : State) : option string :=
  match openTTY env, (parseArgs env st).1 with
  | None, Ok (_, outputPath) =>
    if bool_decide (outputPath = "-") then None
    else match files st !! outputPath, createFile env outputPath with
         | None, None => Some outputPath
         | _, _ => None
         end
  | _, _ => None
  end.

(** What a process leaves outside the terminal and standard error: the
    files, standard output, and the number of [Write] calls on the
    destination. *)
Definition outputs (st : State) : gmap string string * string * nat :=
  (files st, stdout st, writes st).

(** An argument that [FlagSet.Parse] does not take for a flag: the empty
    string, a lone [-], or a string that does not start with [-]. *)
Definition positional (s : string) : bool :=
  match s with
  | String "-" (String _ _) => false
  | _ => true
  end.

(** The entries of a command line: an argument that is no flag, or the
    flag [o] with its value.  The flag is written with one dash or two, its
    value after [=] in the same argument or as the next argument. *)
Inductive entry :=
| Operand (p : string)
| OutputFlag (dashes joined : bool) (v : string).

Definition spelled (e : entry) : list string :=
  match e with
  | Operand p => [p]
  | OutputFlag dashes joined v =>
    let flag := if dashes then "--o" else "-o" in
    if joined then [flag +:+ "=" +:+ v] else [flag; v]
  end.

Definition wellFormed (e : entry) : bool :=
  match e with
  | Operand p => positional p
  | OutputFlag _ _ _ => true
  end.

(** The arguments that are no flag, in their order. *)
Fixpoint operands (es : list entry) : list string :=
  match es with
  | [] => []
  | Operand p :: rest => p :: operands rest
  | OutputFlag _ _ _ :: rest => operands rest
  end.

(** The value of the last [-o] of [es], [dflt] when it has none. *)
Fixpoint lastOutput (dflt : string) (es : list entry) : string :=
  match es with
  | [] => dflt
  | Operand _ :: rest => lastOutput dflt rest
  | OutputFlag _ _ v :: rest => lastOutput v rest
  end.

(** The value of the last [-o] before the first entry that is no flag. *)
Fixpoint leadingOutput (dflt : string) (es : list entry) : string :=
  match es with
  | OutputFlag _ _ v :: rest => leadingOutput v rest
  | _ => dflt
  end.

(** [es] from its first entry that is no flag. *)
Fixpoint afterLeading (es : list entry) : list entry :=
  match es with
  | OutputFlag _ _ _ :: rest => afterLeading rest
  | _ => es
  end.

(** The name of a flag that the flag set does not define, well formed and
    without a value after [=]. *)
Definition undefinedFlag (name : string) : bool :=
  match name with
  | "" => false
  | String c t =>
    negb (bool_decide (c = "-"%char)) && negb (bool_decide (c = "="%char))
    && all (fun x => negb (bool_decide (x = "="%char))) t
    && negb (bool_decide (name = "o")) && negb (bool_decide (name = "h"))
    && negb (bool_decide (name = "help"))
  end.

(** The errors that come from outside [main.go] are errors of the
    libraries: [errors.As] finds no [IncorrectUsageError] in them. *)
Definition libraryError (e : error) : Prop := As_IncorrectUsageError e = false.

Definition libraryErrors (env : Env) (st : State) : Prop :=
  (forall e, openTTY env = Some e -> libraryError e)
  /\ (forall path e, createFile env path = Some e -> libraryError e)
  /\ (forall importPath e, RepoRootForImportPath env importPath = inl e -> libraryError e)
  /\ (forall e, TempDir env = inl e -> libraryError e)
  /\ (forall cmd dir repo e, Create env cmd dir repo = Some e -> libraryError e)
  /\ (forall dir e, Output env dir = inl e -> libraryError e)
  /\ (forall e, scanErr (scn st) = Some e -> libraryError e).

(** A byte that the escaper of HTML text leaves as it is. *)
Definition plain (c : ascii) : bool := bool_decide (htmlReplacementTable (byte c) = "").

(** A call that comes back to its caller, with a value or with an error. *)
Definition returns {A} (r : result A) : Prop :=
  match r with
  | Ok _ | Err _ => True
  | _ => False
  end.

End Vocabulary.

(** * Runs used as examples *)

Module Examples.
Import GoString Genpkgbuild.

(** A process at its start, with the lines that the terminal will give,
    without files or with the files [fs]. *)
Definition tty (lines : list string) : State :=
  start {| tokens := lines; scanErr := None |} ∅.

Definition answers (lines : list string) (fs : gmap string string) : State :=
  start {| tokens := lines; scanErr := None |} fs.

(** The surroundings of the run in the README: the import path resolves to
    the Git repository of [golang/lint], the clone works and the version
    command prints [r179.414d861]. *)
Definition golint (args : list string) : Env :=
  {| Args := "genpkgbuild-go" :: args;
     openTTY := None;
     createFile := fun _ => None;
     RepoRootForImportPath := fun _ =>
       inr {| VCS := {| Name := "Git" |};
              RepoURL := "https://github.com/golang/lint";
              RootPath := "github.com/golang/lint" |};
     verboseLog := fun _ => "";
     TempDir := inr "/tmp/genpkgbuild012345";
     Create := fun _ _ _ => None;
     CreateStderr := fun _ _ _ => "";
     Output := fun _ => inr ("r179.414d861" +:+ nl);
     writeFails := fun _ => None |}.

(** A run for an import path kept in Mercurial. *)
Definition mercurial (args : list string) : Env :=
  {| Args := "genpkgbuild-go" :: args;
     openTTY := None;
     createFile := fun _ => None;
     RepoRootForImportPath := fun _ =>
       inr {| VCS := {| Name := "Mercurial" |};
              RepoURL := "https://bitbucket.org/pkg/inflect";
              RootPath := "bitbucket.org/pkg/inflect" |};
     verboseLog := fun _ => "";
     TempDir := inr "/tmp/genpkgbuild012345";
     Create := fun _ _ _ => None;
     CreateStderr := fun _ _ _ => "";
     Output := fun _ => inr ("r12.abcdef0" +:+ nl);
     writeFails := fun _ => None |}.

(** The run of the README with the recipe sent to a standard output that
    takes no byte. *)
Definition golint_full : Env :=
  {| Args := ["genpkgbuild-go"; "github.com/golang/lint/golint"; "-o"; "-"];
     openTTY := None;
     createFile := fun _ => None;
     RepoRootForImportPath := RepoRootForImportPath (golint []);
     verboseLog := fun _ => "";
     TempDir := inr "/tmp/genpkgbuild012345";
     Create := fun _ _ _ => None;
     CreateStderr := fun _ _ _ => "";
     Output := fun _ => inr ("r179.414d861" +:+ nl);
     writeFails := fun _ =>
       Some (O, PathError "write" "/dev/stdout" "no space left on device") |}.

(** The run of the README with a clone that fails. *)
Definition clone_fails : Env :=
  {| Args := ["genpkgbuild-go"; "github.com/golang/lint/golint"; "-o"; "-"];
     openTTY := None;
     createFile := fun _ => None;
     RepoRootForImportPath := RepoRootForImportPath (golint []);
     verboseLog := fun _ => "";
     TempDir := inr "/tmp/genpkgbuild012345";
     Create := fun _ _ _ => Some (errorString "exit status 128");
     CreateStderr := fun _ dir repo =>
       "# cd .; git clone " +:+ repo +:+ " " +:+ dir +:+ nl
       +:+ "fatal: unable to access '" +:+ repo +:+ "/': Could not resolve host: github.com"
       +:+ nl;
     Output := fun _ => inr ("r179.414d861" +:+ nl);
     writeFails := fun _ => None |}.

(** The surroundings of the README with another version. *)
Definition tagged (args : list string) : Env :=
  {| Args := "genpkgbuild-go" :: args;
     openTTY := None;
     createFile := fun _ => None;
     RepoRootForImportPath := RepoRootForImportPath (golint []);
     verboseLog := fun _ => "";
     TempDir := inr "/tmp/genpkgbuild012345";
     Create := fun _ _ _ => None;
     CreateStderr := fun _ _ _ => "";
     Output := fun _ => inr ("r12.abcdef0" +:+ nl);
     writeFails := fun _ => None |}.

(** A repository at [example.com/foo/bar]. *)
Definition foo_bar : RepoRoot :=
  {| VCS := {| Name := "Git" |};
     RepoURL := "https://example.com/foo/bar";
     RootPath := "example.com/foo/bar" |}.

(** The surroundings in which the import path that the command line gives,
    whatever it is, resolves to that repository through a meta tag, which
    the verbose resolver logs. *)
Definition example_com (importPath : string) : Env :=
  {| Args := ["genpkgbuild-go"; importPath];
     openTTY := None;
     createFile := fun _ => None;
     RepoRootForImportPath := fun _ => inr foo_bar;
     verboseLog := fun importPath =>
       "2020/05/01 10:00:00 get " +:+ dq +:+ importPath +:+ dq
       +:+ ": found meta tag for example.com/foo/bar at https://" +:+ importPath
       +:+ "?go-get=1" +:+ nl;
     TempDir := inr "/tmp/genpkgbuild012345";
     Create := fun _ _ _ => None;
     CreateStderr := fun _ _ _ => "";
     Output := fun _ => inr ("r12.abcdef0" +:+ nl);
     writeFails := fun _ => None |}.

(** The repository of the README. *)
Definition lint : RepoRoot :=
  {| VCS := {| Name := "Git" |};
     RepoURL := "https://github.com/golang/lint";
     RootPath := "github.com/golang/lint" |}.

(** The run of the README with a version command that fails. *)
Definition describe_fails : Env :=
  {| Args := ["genpkgbuild-go"; "github.com/golang/lint/golint"];
     openTTY := None;
     createFile := fun _ => None;
     RepoRootForImportPath := fun _ => inr lint;
     verboseLog := fun _ => "";
     TempDir := inr "/tmp/genpkgbuild012345";
     Create := fun _ _ _ => None;
     CreateStderr := fun _ _ _ => "";
     Output := fun _ =>
       inl (ExitError "exit status 128" ("fatal: not a git repository" +:+ nl));
     writeFails := fun _ => None |}.

(** A process without controlling terminal, asked for help. *)
Definition detached : Env :=
  {| Args := ["genpkgbuild-go"; "-h"];
     openTTY := Some (PathError "open" "/dev/tty" "no such device or address");
     createFile := fun _ => None;
     RepoRootForImportPath := fun _ => inr lint;
     verboseLog := fun _ => "";
     TempDir := inr "/tmp/genpkgbuild012345";
     Create := fun _ _ _ => None;
     CreateStderr := fun _ _ _ => "";
     Output := fun _ => inr ("r179.414d861" +:+ nl);
     writeFails := fun _ => None |}.

(** An import path that no repository answers for. *)
Definition unknown (args : list string) : Env :=
  {| Args := "genpkgbuild-go" :: args;
     openTTY := None;
     createFile := fun _ => None;
     RepoRootForImportPath := fun importPath =>
       inl (errorString ("unrecognized import path " +:+ dq +:+ importPath +:+ dq));
     verboseLog := fun importPath =>
       "2020/05/01 10:00:00 Fetching https://" +:+ importPath +:+ "?go-get=1" +:+ nl;
     TempDir := inr "/tmp/genpkgbuild012345";
     Create := fun _ _ _ => None;
     CreateStderr := fun _ _ _ => "";
     Output := fun _ => inr ("r179.414d861" +:+ nl);
     writeFails := fun _ => None |}.

End Examples.

(** * Facts about byte strings *)

Module GoStringFacts.
Import GoString Vocabulary.

#[local] Arguments String.append : simpl nomatch.

Lemma app_nil_r (s : string) : s +:+ "" = s.
Proof. induction s as [|c s IH]; simpl; [reflexivity | now rewrite IH]. Qed.

Lemma app_assoc (a b c : string) : (a +:+ b) +:+ c = a +:+ (b +:+ c).
Proof. induction a as [|x a IH]; simpl; [reflexivity | now rewrite IH]. Qed.

Lemma len_app (a b : string) : len (a +:+ b) = (len a + len b)%nat.
Proof. induction a as [|x a IH]; simpl; [reflexivity | now rewrite IH]. Qed.

Lemma rev_app (a b : string) : rev (a +:+ b) = rev b +:+ rev a.
Proof.
  induction a as [|x a IH]; simpl.
  - now rewrite app_nil_r.
  - now rewrite IH, app_assoc.
Qed.

Lemma rev_involutive (s : string) : rev (rev s) = s.
Proof.
  induction s as [|x s IH]; simpl; [reflexivity|].
  now rewrite rev_app, IH.
Qed.

Lemma all_app p (a b : string) : all p (a +:+ b) = all p a && all p b.
Proof.
  induction a as [|x a IH]; simpl; [reflexivity|].
  now rewrite IH, andb_assoc.
Qed.

Lemma all_rev p (s : string) : all p (rev s) = all p s.
Proof.
  induction s as [|x s IH]; simpl; [reflexivity|].
  rewrite all_app, IH. simpl. now rewrite andb_true_r, andb_comm.
Qed.

Lemma asciiSpace_isASCII c : asciiSpace c = true -> isASCII c = true.
Proof.
  destruct c as [[] [] [] [] [] [] [] []]; try discriminate; reflexivity.
Qed.

(** *** [TrimSpace] on lines padded with ASCII white space *)

Lemma TrimSpace_blank (s : string) : all asciiSpace s = true -> TrimSpace s = "".
Proof.
  induction s as [|c s IH]; simpl; [reflexivity|].
  intros [Hc Hs]%andb_true_iff.
  now rewrite (asciiSpace_isASCII _ Hc), Hc; simpl; apply IH.
Qed.

Lemma trimStop_blank (r rest : string) (c : ascii) :
  all asciiSpace r = true -> solid c = true ->
  trimStop (r +:+ String c rest) = String c rest.
Proof.
  intros Hr [Hc1 Hc2]%andb_true_iff.
  induction r as [|x r IH]; simpl in *.
  - rewrite Hc1. apply negb_true_iff in Hc2. now rewrite Hc2.
  - apply andb_true_iff in Hr as [Hx Hr].
    rewrite (asciiSpace_isASCII _ Hx), Hx. simpl. now apply IH.
Qed.

Lemma TrimSpace_solid (core trail : string) :
  trimmed core = true -> all asciiSpace trail = true ->
  TrimSpace (core +:+ trail) = core.
Proof.
  unfold trimmed. intros Hcore Htrail. revert Hcore.
  destruct core as [|c core]; [discriminate|].
  destruct (rev (String c core)) as [|c' rc] eqn:Erev; [discriminate|].
  intros [Hc Hc']%andb_true_iff.
  pose proof Hc as [Hc1 Hc2]%andb_true_iff. apply negb_true_iff in Hc2.
  cbn [TrimSpace String.append]. rewrite Hc1, Hc2. cbn [negb].
  change (String c (core +:+ trail)) with (String c core +:+ trail).
  rewrite rev_app, Erev.
  rewrite trimStop_blank by (rewrite ?all_rev; assumption).
  now rewrite <- Erev, rev_involutive.
Qed.

Lemma TrimSpace_padded (lead core trail : string) :
  all asciiSpace lead = true -> trimmed core = true -> all asciiSpace trail = true ->
  TrimSpace (lead +:+ core +:+ trail) = core.
Proof.
  intros Hlead Hcore Htrail.
  induction lead as [|x lead IH]; simpl in *.
  - now apply TrimSpace_solid.
  - apply andb_true_iff in Hlead as [Hx Hlead].
    rewrite (asciiSpace_isASCII _ Hx), Hx. simpl. now apply IH.
Qed.

End GoStringFacts.

(** * Properties of the program *)

Import GoString GoStringFacts Genpkgbuild Vocabulary Examples.

#[local] Arguments String.append : simpl nomatch.

(** ** [prompt] *)

Lemma prompt_scanned (p dflt text : string) (rest : list string) (e : option error)
    (st : State) :
  scn st = {| tokens := text :: rest; scanErr := e |} ->
  prompt p dflt st =
    (Ok (if bool_decide (TrimSpace text = "") then dflt else TrimSpace text),
     set_scn {| tokens := rest; scanErr := e |} (set_w (w st +:+ question p dflt) st)).
Proof.
  intros Hscn. unfold prompt, bind, question, Fprint_w, modify.
  destruct (bool_decide (dflt = "")); simpl; rewrite Hscn; reflexivity.
Qed.

(** C5.  Whenever the scanner yields a line, [prompt] returns the default as
    it is when the line is empty after [strings.TrimSpace], and the trimmed
    line otherwise.  In particular a line of ASCII white space gives the
    default, and a line padded with ASCII white space gives what lies between
    the padding. *)
Theorem prompt_resolves (p dflt text : string) (rest : list string) (e : option error)
    (st : State) :
  scn st = {| tokens := text :: rest; scanErr := e |} ->
  (TrimSpace text = "" -> (prompt p dflt st).1 = Ok dflt)
  /\ (TrimSpace text <> "" -> (prompt p dflt st).1 = Ok (TrimSpace text))
  /\ (all asciiSpace text = true -> (prompt p dflt st).1 = Ok dflt)
  /\ (forall lead core trail,
        text = lead +:+ core +:+ trail ->
        all asciiSpace lead = true -> trimmed core = true ->
        all asciiSpace trail = true ->
        (prompt p dflt st).1 = Ok core).
Proof.
  intros Hscn. rewrite (prompt_scanned _ _ _ _ _ _ Hscn). cbn [fst].
  repeat split.
  - intros ->. reflexivity.
  - intros Hne. now rewrite bool_decide_eq_false_2.
  - intros Hblank. now rewrite (TrimSpace_blank _ Hblank).
  - intros lead core trail -> Hlead Hcore Htrail.
    rewrite (TrimSpace_padded _ _ _ Hlead Hcore Htrail).
    rewrite bool_decide_eq_false_2; [reflexivity|].
    intros ->. discriminate.
Qed.

Lemma prompt_resolves_witness :
  (prompt "Package Name" "lint-git" (tty ["  "; "x"])).1 = Ok "lint-git"
  /\ (prompt "Package Name" "lint-git" (tty ["  golint-git "; "x"])).1 = Ok "golint-git".
Proof.
  split.
  - apply (prompt_resolves "Package Name" "lint-git" "  " ["x"] None (tty ["  "; "x"])
             eq_refl).
    reflexivity.
  - apply (prompt_resolves "Package Name" "lint-git" "  golint-git " ["x"] None
             (tty ["  golint-git "; "x"]) eq_refl).
    vm_compute. discriminate.
Defined.

(** ** The command line *)

Lemma parseArgs_state (env : Env) (st st' : State) (r : list string * string) :
  parseArgs env st = (Ok r, st') -> st' = st.
Proof.
  unfold parseArgs, panic, ret.
  repeat case_match; intros; simplify_eq; reflexivity.
Qed.

Lemma parseArgs_fst (env : Env) (st : State) (r : list string * string) :
  (parseArgs env st).1 = Ok r -> parseArgs env st = (Ok r, st).
Proof.
  destruct (parseArgs env st) as [res st'] eqn:E. simpl. intros ->.
  now rewrite (parseArgs_state _ _ _ _ E).
Qed.

(** A command line with a positional argument has at least two entries. *)
Lemma parseArgs_positional (env : Env) (st st' : State) (p out : string)
    (args : list string) :
  parseArgs env st = (Ok (p :: args, out), st') -> (2 <= length (Args env))%nat.
Proof.
  unfold parseArgs, panic, ret.
  destruct (Args env) as [|prog [|a arguments]]; simpl; [discriminate| |lia].
  discriminate.
Qed.

(** ** The destination *)

(** An output path that names a file that is there: the exclusive open
    fails and [run] returns its error. *)
Lemma open_existing (env : Env) (st : State) (args : list string)
    (outputPath content : string) :
  openTTY env = None ->
  (parseArgs env st).1 = Ok (args, outputPath) ->
  outputPath <> "-" ->
  files st !! outputPath = Some content ->
  run env st = (Err (PathError "open" outputPath "file exists"), st)
  /\ files (run env st).2 = files st
  /\ main env st =
       (1%Z, Fprintln_stderr ("open " +:+ outputPath +:+ ": file exists") st).
Proof.
  intros Htty Hparse%parseArgs_fst Hout Hfile.
  assert (Hrun : run env st = (Err (PathError "open" outputPath "file exists"), st)).
  { unfold run, gather, bind. rewrite Htty, Hparse.
    rewrite bool_decide_eq_false_2 by assumption.
    unfold OpenFile_excl. now rewrite Hfile. }
  split; [assumption|]. split; [now rewrite Hrun|].
  unfold main. now rewrite Hrun.
Qed.

(** ** Version control systems other than Git *)

(** C3.  When the terminal opens, the command line gives an import path and
    the destination can be opened, an import path that resolves to a
    repository whose version control system is not Git makes [run] return
    the error "sorry, not git repo is not supported yet: NAME" and the process
    exit with status 1.  No [Write] has been made on the destination: standard
    output is as before, and the only change to the files is the empty file
    that the exclusive open has created at the output path.  The goroutine
    that fetches the version has not been started. *)
Theorem unsupported_vcs (env : Env) (st : State) (p outputPath : string)
    (args : list string) (r : RepoRoot) :
  openTTY env = None ->
  (parseArgs env st).1 = Ok (p :: args, outputPath) ->
  outputPath = "-" \/ (files st !! outputPath = None /\ createFile env outputPath = None) ->
  RepoRootForImportPath env p = inr r ->
  Name (VCS r) <> "Git" ->
  (run env st).1 =
    Err (errorString ("sorry, not git repo is not supported yet: " +:+ Name (VCS r)))
  /\ (main env st).1 = 1%Z
  /\ writes (run env st).2 = writes st
  /\ stdout (run env st).2 = stdout st
  /\ files (run env st).2 =
       (if bool_decide (outputPath = "-") then files st
        else <[outputPath := ""]> (files st))
  /\ goroutine (run env st).2 = goroutine st
  /\ handoffs (run env st).2 = handoffs st.
Proof.
  intros Htty Hparse%parseArgs_fst Hdest Hresolve Hname.
  pose proof (parseArgs_positional _ _ _ _ _ _ Hparse) as Hlen.
  apply Nat.ltb_ge in Hlen.
  assert (Hrun : run env st =
    (Err (errorString ("sorry, not git repo is not supported yet: " +:+ Name (VCS r))),
     let st' := if bool_decide (outputPath = "-") then st
                else set_files (<[outputPath := ""]> (files st)) st in
     set_stderr (stderr st' +:+ verboseLog env p) st')).
  { unfold run, gather, bind, modify. rewrite Htty, Hparse.
    destruct Hdest as [-> | [Hnone Hcreate]].
    - simpl. rewrite Hlen. simpl. rewrite Hresolve. simpl.
      now rewrite bool_decide_eq_false_2.
    - destruct (bool_decide (outputPath = "-")) eqn:Eo.
      + simpl. rewrite Hlen. simpl. rewrite Hresolve. simpl.
        now rewrite bool_decide_eq_false_2.
      + unfold OpenFile_excl. rewrite Hnone, Hcreate, Hlen. simpl.
        rewrite Hresolve. simpl. now rewrite bool_decide_eq_false_2. }
  unfold main. rewrite Hrun. simpl.
  destruct (bool_decide (outputPath = "-")); repeat split; reflexivity.
Qed.

Lemma unsupported_vcs_witness :
  let env := mercurial ["bitbucket.org/pkg/inflect"] in
  let st := answers [""; ""; ""] ∅ in
  (run env st).1 = Err (errorString "sorry, not git repo is not supported yet: Mercurial")
  /\ (main env st).1 = 1%Z
  /\ writes (run env st).2 = writes st
  /\ stdout (run env st).2 = stdout st
  /\ files (run env st).2 = <["PKGBUILD" := ""]> (files st)
  /\ goroutine (run env st).2 = goroutine st
  /\ handoffs (run env st).2 = handoffs st.
Proof.
  apply (unsupported_vcs (mercurial ["bitbucket.org/pkg/inflect"]) (answers [""; ""; ""] ∅)
           "bitbucket.org/pkg/inflect" "PKGBUILD" []
           {| VCS := {| Name := "Mercurial" |};
              RepoURL := "https://bitbucket.org/pkg/inflect";
              RootPath := "bitbucket.org/pkg/inflect" |}).
  - reflexivity.
  - vm_compute. reflexivity.
  - right. split; reflexivity.
  - reflexivity.
  - discriminate.
Defined.

(** ** A command line without import path *)

(** With no argument at all, a terminal, and no [PKGBUILD] in the way,
    [run] returns an [IncorrectUsageError] and [main] prints the usage after
    the message. *)
Lemma no_argument_usage (env : Env) (st : State) (prog : string) :
  Args env = [prog] ->
  openTTY env = None ->
  files st !! "PKGBUILD" = None ->
  createFile env "PKGBUILD" = None ->
  (run env st).1 = Err (IncorrectUsageError (errorString "specify import path"))
  /\ main env st =
       (1%Z, set_stderr (stderr st +:+ "specify import path" +:+ nl +:+ nl +:+ usage
                         +:+ nl +:+ nl)
               (set_files (<["PKGBUILD" := ""]> (files st)) st)).
Proof.
  intros Hargs Htty Hnone Hcreate.
  unfold main, run, gather, bind, parseArgs. rewrite Htty, Hargs. simpl.
  unfold OpenFile_excl. rewrite Hnone, Hcreate. simpl.
  split; [reflexivity|].
  unfold Fprintln_stderr, set_stderr, set_files. simpl.
  now rewrite !app_assoc.
Qed.

(** C1.  A command line that holds the [-o] option and its value and
    nothing else passes the test [len(os.Args) < 2], so that [run] goes on to
    [args[0]] with [args] empty and panics: it returns no
    [IncorrectUsageError], and the process ends with status 2 and the panic
    on standard error, not the usage. *)
Theorem only_output_flag_panics (env : Env) (st : State) (prog out : string) :
  Args env = [prog; "-o"; out] ->
  openTTY env = None ->
  out = "-" \/ (files st !! out = None /\ createFile env out = None) ->
  (run env st).1 = Panic "runtime error: index out of range [0] with length 0"
  /\ (main env st).1 = 2%Z
  /\ stderr (main env st).2 =
       stderr st +:+ "panic: runtime error: index out of range [0] with length 0" +:+ nl.
Proof.
  intros Hargs Htty Hdest.
  assert (Hparse : parseArgs env st = (Ok ([], out), st)).
  { unfold parseArgs. rewrite Hargs. reflexivity. }
  assert (Hrun : exists st',
    run env st = (Panic "runtime error: index out of range [0] with length 0", st')
    /\ stderr st' = stderr st).
  { unfold run, gather, bind. rewrite Htty, Hparse, Hargs.
    destruct Hdest as [-> | [Hnone Hcreate]].
    - simpl. eexists; split; reflexivity.
    - destruct (bool_decide (out = "-")); simpl.
      + eexists; split; reflexivity.
      + unfold OpenFile_excl. rewrite Hnone, Hcreate. simpl.
        eexists; split; reflexivity. }
  destruct Hrun as (st' & Hrun & Herr).
  unfold main. rewrite Hrun. simpl. rewrite Herr.
  repeat split.
Qed.

Lemma only_output_flag_panics_witness :
  let env := golint ["-o"; "out"] in
  let st := answers [""; ""; ""] ∅ in
  (run env st).1 = Panic "runtime error: index out of range [0] with length 0"
  /\ (main env st).1 = 2%Z
  /\ stderr (main env st).2 =
       stderr st +:+ "panic: runtime error: index out of range [0] with length 0" +:+ nl.
Proof.
  apply (only_output_flag_panics (golint ["-o"; "out"]) (answers [""; ""; ""] ∅)
           "genpkgbuild-go" "out").
  - reflexivity.
  - reflexivity.
  - right. split; reflexivity.
Defined.

Lemma gather_computed (env : Env) (st : State) (r : result (file * TmplData)) :
  (gather env st).1 = r -> gather env st = (r, (gather env st).2).
Proof. intros <-. apply surjective_pairing. Qed.

(** ** A rendering that fails *)

(** The template starts with text, so that a destination whose next
    [Write] fails makes [Execute] return the error of that [Write]. *)
Lemma Execute_fails (env : Env) (output : file) (d : TmplData) (st : State)
    (n : nat) (err : error) :
  writeFails env (writes st) = Some (n, err) ->
  (Execute env output d st).1 = Some err.
Proof.
  intros Hfail. unfold Execute, chunks, chunksHead. simpl.
  unfold Write. now rewrite Hfail.
Qed.

(** A template execution touches the destination and nothing else. *)
Lemma writeChunks_stderr (env : Env) (output : file) (cs : list string) (st : State) :
  stderr (writeChunks env output cs st).2 = stderr st
  /\ goroutine (writeChunks env output cs st).2 = goroutine st
  /\ handoffs (writeChunks env output cs st).2 = handoffs st.
Proof.
  revert st. induction cs as [|c cs IH]; intros st; simpl; [auto|].
  unfold Write. destruct (writeFails env (writes st)) as [[n e]|]; simpl.
  - now destruct output.
  - destruct (IH (append_to output c (set_writes (S (writes st)) st))) as (-> & -> & ->).
    now destruct output.
Qed.

(** C2.  When the call of [tmpl.Execute] in [run] returns an error, [run]
    returns [nil] all the same: the process exits with status 0 and [main]
    prints nothing, so that standard error is as the rendering left it. *)
Theorem render_failure_unreported (env : Env) (st st1 st2 : State)
    (call : file * TmplData) (err : error) :
  gather env st = (Ok call, st1) ->
  Execute env call.1 call.2 st1 = (Some err, st2) ->
  run env st = (Ok tt, st2)
  /\ main env st = (0%Z, st2)
  /\ stderr st2 = stderr st1.
Proof.
  intros Hgather Hexec.
  assert (Hrun : run env st = (Ok tt, st2)).
  { unfold run, bind. rewrite Hgather, Hexec. reflexivity. }
  split; [assumption|]. split; [unfold main; now rewrite Hrun|].
  pose proof (writeChunks_stderr env call.1 (chunks call.2) st1) as [Herr _].
  unfold Execute in Hexec. now rewrite Hexec in Herr.
Qed.

Lemma render_failure_unreported_witness :
  let st := answers [""; ""; ""] ∅ in
  let d := {| PkgName := "lint-git"; Dir := "lint"; PkgVer := "r179.414d861";
              Repo := "https://github.com/golang/lint";
              Root := "github.com/golang/lint"; Depends := [];
              Path := "golint"; BinName := "golint" |} in
  let st1 := (gather golint_full st).2 in
  let st2 := (Execute golint_full Stdout d st1).2 in
  (Execute golint_full Stdout d st1).1 =
    Some (PathError "write" "/dev/stdout" "no space left on device")
  /\ run golint_full st = (Ok tt, st2)
  /\ main golint_full st = (0%Z, st2)
  /\ stderr st2 = stderr st1.
Proof.
  split; [vm_compute; reflexivity|].
  refine (render_failure_unreported golint_full (answers [""; ""; ""] ∅) _ _ (Stdout, _)
            (PathError "write" "/dev/stdout" "no space left on device") _ _).
  - apply gather_computed. vm_compute. reflexivity.
  - vm_compute. reflexivity.
Defined.

(** ** The two channels *)

Lemma parseArgs_background (env : Env) (st : State) :
  background (parseArgs env st).2 = background st.
Proof.
  unfold parseArgs, panic, ret. repeat case_match; reflexivity.
Qed.

Lemma OpenFile_excl_background (env : Env) (path : string) (st : State) :
  background (OpenFile_excl env path st).2 = background st.
Proof.
  unfold OpenFile_excl. repeat case_match; reflexivity.
Qed.

Lemma prompt_background (p dflt : string) (st : State) :
  background (prompt p dflt st).2 = background st.
Proof.
  unfold prompt, bind, Fprint_w, modify. repeat case_match; simplify_eq; reflexivity.
Qed.

Lemma relPath_background (root importPath : string) (st : State) :
  background (relPath root importPath st).2 = background st.
Proof.
  unfold relPath, bind, fail, ret. repeat case_match; simplify_eq; reflexivity.
Qed.

(** Before its two sends the goroutine does nothing but write to standard
    error. *)
Lemma getVersion_steps (env : Env) (repoRoot : RepoRoot) :
  pending (getVersion env repoRoot).1 = [].
Proof.
  unfold getVersion. repeat case_match; reflexivity.
Qed.

Lemma pending_app (steps steps' : list bgStep) :
  pending (steps ++ steps') = pending steps ++ pending steps'.
Proof.
  induction steps as [|[bytes|s] steps IH]; cbn [app pending]; [reflexivity|exact IH|].
  now rewrite IH.
Qed.

Lemma upToSend_app (steps rest : list bgStep) (s : send) (err : string) :
  pending steps = [] ->
  upToSend (steps ++ BgSend s :: rest) err = (err +:+ logged steps, BgSend s :: rest).
Proof.
  revert err. induction steps as [|[bytes|s'] steps IH]; intros err Hsteps.
  - cbn. now rewrite GoStringFacts.app_nil_r.
  - cbn [app upToSend logged]. rewrite IH by exact Hsteps.
    now rewrite GoStringFacts.app_assoc.
  - discriminate Hsteps.
Qed.

Lemma getVersion_failed (env : Env) (repoRoot : RepoRoot) (err : error) :
  (getVersion env repoRoot).2.2 = Some err -> (getVersion env repoRoot).2.1 = "".
Proof.
  unfold getVersion. repeat case_match; simpl; congruence.
Qed.

(** Receiving the two sends of the goroutine, one after the other. *)
Lemma recv_errC_started (steps : list bgStep) (err : option error) (v : string)
    (st : State) :
  pending steps = [] ->
  goroutine st = steps ++ [BgSend (SendErr err); BgSend (SendVersion v)] ->
  exists st',
    recv_errC st = (Ok err, st')
    /\ goroutine st' = [BgSend (SendVersion v)]
    /\ handoffs st' = handoffs st ++ [errC]
    /\ scn st' = scn st /\ w st' = w st /\ files st' = files st
    /\ stdout st' = stdout st /\ writes st' = writes st
    /\ stderr st' = stderr st +:+ logged steps.
Proof.
  intros Hsteps Hgo. unfold recv_errC, receive, bind, ret.
  rewrite Hgo, (upToSend_app _ _ _ _ Hsteps). eexists; repeat split.
Qed.

Lemma recv_versionC_pending (v : string) (st : State) :
  goroutine st = [BgSend (SendVersion v)] ->
  exists st',
    recv_versionC st = (Ok v, st')
    /\ goroutine st' = []
    /\ handoffs st' = handoffs st ++ [versionC]
    /\ scn st' = scn st /\ w st' = w st /\ files st' = files st
    /\ stdout st' = stdout st /\ writes st' = writes st /\ stderr st' = stderr st.
Proof.
  intros Hgo. unfold recv_versionC, receive, bind, ret. rewrite Hgo.
  simpl. eexists; repeat split.
Qed.

(** *** Reasoning along [bind] *)

Lemma wp_bind {A B} (m : M A) (k : A -> M B) (Q : result B -> State -> Prop) (st : State) :
  wp m (fun r st' => match r with Ok a => wp (k a) Q st' | _ => Q (pass r) st' end) st ->
  wp (bind m k) Q st.
Proof.
  unfold wp, bind. destruct (m st) as [[a|e|msg|c|] st']; simpl; auto.
Qed.

Lemma wp_mono {A} (m : M A) (Q Q' : result A -> State -> Prop) (st : State) :
  wp m Q st -> (forall r st', Q r st' -> Q' r st') -> wp m Q' st.
Proof. unfold wp. auto. Qed.

Lemma wp_ret {A} (a : A) (Q : result A -> State -> Prop) (st : State) :
  Q (Ok a) st -> wp (ret a) Q st.
Proof. auto. Qed.

Lemma wp_fail {A} (e : error) (Q : result A -> State -> Prop) (st : State) :
  Q (Err e) st -> wp (fail e) Q st.
Proof. auto. Qed.

Lemma wp_panic {A} (msg : string) (Q : result A -> State -> Prop) (st : State) :
  Q (Panic msg) st -> wp (panic msg) Q st.
Proof. auto. Qed.

Lemma wp_modify {B} (f : State -> State) (k : unit -> M B)
    (Q : result B -> State -> Prop) (st : State) :
  wp (k tt) Q (f st) -> wp (bind (modify f) k) Q st.
Proof. auto. Qed.

(** A step that leaves the goroutine and the handoffs alone. *)
Lemma wp_background {A} (m : M A) (Q : result A -> State -> Prop) (st : State) :
  (forall st0, background (m st0).2 = background st0) ->
  (forall r st', background st' = background st -> Q r st') ->
  wp m Q st.
Proof. unfold wp. auto. Qed.

(** *** The handoffs of a run *)

Lemma notForked_background (st st' : State) :
  notForked st -> background st' = background st -> notForked st'.
Proof. unfold notForked, background. intros [? ?] [= -> ->]. auto. Qed.

Lemma notJoined_background (env : Env) (st st' : State) :
  notJoined env st -> background st' = background st -> notJoined env st'.
Proof. unfold notJoined, background. intros [r [? ?]] [= -> ->]. eauto. Qed.

Lemma go_getVersion_spec (env : Env) (repoRoot : RepoRoot) (st : State) :
  go_getVersion env repoRoot st =
    (Ok tt,
     set_goroutine
       ((getVersion env repoRoot).1
        ++ [BgSend (SendErr (getVersion env repoRoot).2.2);
            BgSend (SendVersion (getVersion env repoRoot).2.1)]) st).
Proof.
  unfold go_getVersion. destruct (getVersion env repoRoot) as [steps [v e]]. reflexivity.
Qed.

Lemma Fprint_w_background (s : string) (st : State) :
  background (Fprint_w s st).2 = background st.
Proof. reflexivity. Qed.

Lemma gather_channels (env : Env) (st : State) :
  notForked st -> wp (gather env) (channels env) st.
Proof.
  intros Hst. unfold gather.
  destruct (openTTY env) as [e|]. { apply wp_fail. left. auto. }
  apply wp_bind, wp_background; [apply parseArgs_background|].
  intros r st1 Hb1. pose proof (notForked_background _ _ Hst Hb1) as H1.
  destruct r as [[args outputPath]| | | |]; try (left; auto; fail).
  apply wp_bind.
  apply wp_background.
  { intros st0. destruct (bool_decide (outputPath = "-")); [reflexivity|].
    apply OpenFile_excl_background. }
  intros r st2 Hb2. pose proof (notForked_background _ _ H1 Hb2) as H2.
  destruct r as [output| | | |]; try (left; auto; fail).
  destruct (length (Args env) <? 2)%nat. { apply wp_fail. left. auto. }
  apply wp_bind.
  destruct args as [|importPath args]. { apply wp_panic. left. auto. }
  apply wp_ret, wp_modify, wp_bind.
  destruct (RepoRootForImportPath env importPath) as [e|repoRoot].
  { apply wp_fail. left. auto. }
  apply wp_ret.
  destruct (negb (bool_decide (Name (VCS repoRoot) = "Git"))).
  { apply wp_fail. left. auto. }
  apply wp_bind. unfold wp at 1. rewrite go_getVersion_spec. cbn [fst snd].
  destruct H2 as [_ Hh2].
  match goal with |- wp _ _ ?s => set (st3 := s) end.
  assert (H3 : notJoined env st3) by (exists repoRoot; split; [reflexivity | exact Hh2]).
  (* the questions *)
  apply wp_bind, wp_background; [apply prompt_background|].
  intros r st4 Hb4. pose proof (notJoined_background _ _ _ H3 Hb4) as H4.
  destruct r as [pkgName| | | |]; try (right; left; auto; fail).
  apply wp_bind, wp_background; [apply prompt_background|].
  intros r st5 Hb5. pose proof (notJoined_background _ _ _ H4 Hb5) as H5.
  destruct r as [dependsList| | | |]; try (right; left; auto; fail).
  apply wp_bind, wp_background; [apply relPath_background|].
  intros r st6 Hb6. pose proof (notJoined_background _ _ _ H5 Hb6) as H6.
  destruct r as [rel| | | |]; try (right; left; auto; fail).
  apply wp_bind, wp_background; [apply prompt_background|].
  intros r st7 Hb7. pose proof (notJoined_background _ _ _ H6 Hb7) as H7.
  destruct r as [binName| | | |]; try (right; left; auto; fail).
  apply wp_bind, wp_background; [apply Fprint_w_background|].
  intros r st8 Hb8.
  assert (Hg8 : goroutine st8 = goroutine st3 /\ handoffs st8 = []).
  { unfold background in *. simplify_eq. split; [congruence|].
    destruct H7 as [? [_ ?]]. congruence. }
  destruct Hg8 as [Hg8 Hh8].
  destruct r as [[]| | | |]; try (right; left; split; [reflexivity|];
    exists repoRoot; split; [rewrite Hg8; reflexivity | assumption]; fail).
  (* the join *)
  apply wp_bind.
  destruct (recv_errC_started (getVersion env repoRoot).1 (getVersion env repoRoot).2.2
              (getVersion env repoRoot).2.1 st8) as (st9 & Hrecv & Hg9 & Hh9 & _).
  { apply getVersion_steps. }
  { rewrite Hg8. reflexivity. }
  unfold wp at 1. rewrite Hrecv. cbn [fst snd]. rewrite Hh8 in Hh9. simpl in Hh9.
  destruct (getVersion env repoRoot).2.2 as [err|] eqn:Eerr.
  - apply wp_fail. right. right. left. exists repoRoot, err.
    rewrite (getVersion_failed _ _ _ Eerr) in Hg9. auto.
  - apply wp_bind.
    destruct (recv_versionC_pending _ _ Hg9) as (st10 & Hrecv' & Hg10 & Hh10 & _).
    unfold wp at 1. rewrite Hrecv'. cbn [fst snd]. rewrite Hh9 in Hh10. simpl in Hh10.
    apply wp_bind. unfold wp. destruct output; simpl; right; right; right;
      (split; [reflexivity | split; assumption]).
Qed.

(** Rendering leaves the goroutine and the handoffs as [gather] left
    them. *)
Lemma run_channels (env : Env) (st : State) :
  notForked st -> wp (run env) (channels env) st.
Proof.
  intros Hst. unfold run. apply wp_bind.
  apply (wp_mono _ _ _ _ (gather_channels env st Hst)).
  intros r st' Hch. destruct r as [call| | | |].
  - apply wp_bind. unfold wp. cbn [fst snd ret].
    destruct Hch as [[? _] | [[? _] | [(? & ? & _ & ? & _) | [_ [Hg Hh]]]]];
      try discriminate.
    right. right. right. split; [reflexivity|].
    destruct (writeChunks_stderr env call.1 (chunks call.2) st') as (_ & Hg' & Hh').
    unfold joined, Execute. now rewrite Hg', Hh'.
  - destruct Hch as [[? ?] | [[? ?] | [(rr & err' & ? & [= ->] & ?) | [? _]]]];
      [left | right; left | right; right; left; exists rr, err' | discriminate]; auto.
  - destruct Hch as [[? ?] | [[? ?] | [(rr & err' & ? & ? & ?) | [? _]]]];
      [left | right; left | discriminate | discriminate]; auto.
  - destruct Hch as [[? ?] | [[? ?] | [(rr & err' & ? & ? & ?) | [? _]]]];
      [left | right; left | discriminate | discriminate]; auto.
  - destruct Hch as [[? ?] | [[? ?] | [(rr & err' & ? & ? & ?) | [? _]]]];
      [left | right; left | discriminate | discriminate]; auto.
Qed.

(** ** The data of the template *)

Lemma prompt_eq (p dflt : string) (st : State) :
  prompt p dflt st =
    let st1 := set_w (w st +:+ question p dflt) st in
    match tokens (scn st) with
    | [] =>
      (Err (match scanErr (scn st) with
            | Some err => Errorf_w "input error: " err
            | None => errorString "interrupted"
            end), st1)
    | text :: rest =>
      (Ok (answer text dflt), set_scn {| tokens := rest; scanErr := scanErr (scn st) |} st1)
    end.
Proof.
  unfold prompt, bind, question, Fprint_w, modify, answer.
  destruct (bool_decide (dflt = "")); simpl;
    destruct (tokens (scn st)); try reflexivity;
    destruct (scanErr (scn st)); reflexivity.
Qed.

Lemma answer_no_default (text : string) : answer text "" = TrimSpace text.
Proof. unfold answer. case_bool_decide; congruence. Qed.

Lemma getVersion_succeeded (env : Env) (repoRoot : RepoRoot) :
  (getVersion env repoRoot).2.2 = None ->
  exists dir out,
    TempDir env = inr dir /\ Output env dir = inr out
    /\ (getVersion env repoRoot).2.1 = TrimSpace out.
Proof.
  unfold getVersion. repeat case_match; simpl; try discriminate. eauto.
Qed.

Ltac no_value := intros ? ? ?; discriminate.

Lemma prompt_inv (p dflt : string) (st st' : State) (r : result string) :
  prompt p dflt st = (r, st') ->
  goroutine st' = goroutine st
  /\ forall v, r = Ok v ->
       exists text rest,
         tokens (scn st) = text :: rest /\ v = answer text dflt
         /\ tokens (scn st') = rest.
Proof.
  rewrite prompt_eq. cbn zeta.
  destruct (tokens (scn st)) as [|text rest]; intros [= <- <-]; (split; [reflexivity|]).
  - discriminate.
  - intros v [= <-]. eauto.
Qed.

Lemma relPath_inv (root importPath : string) (st st' : State) (r : result string) :
  relPath root importPath st = (r, st') ->
  st' = st
  /\ forall p, r = Ok p ->
       exists rel, Rel root importPath = inr rel
                   /\ p = if bool_decide (rel = ".") then "" else rel.
Proof.
  unfold relPath, bind, fail, ret.
  destruct (Rel root importPath) as [msg|rel]; intros [= <- <-]; (split; [reflexivity|]).
  - discriminate.
  - intros p [= <-]. eauto.
Qed.

Lemma gather_wp (env : Env) (st : State) :
  wp (gather env)
     (fun r _ => forall output d, r = Ok (output, d) -> gathered env st output d) st.
Proof.
  unfold gather.
  destruct (openTTY env) as [e|]; [no_value|].
  apply wp_bind. unfold wp at 1.
  destruct (parseArgs env st) as [r st1] eqn:Hparse.
  destruct r as [[args outputPath]| | | |]; try no_value.
  apply parseArgs_state in Hparse as Hst1. subst st1. cbn [fst snd].
  apply wp_bind. unfold wp at 1.
  set (open := if bool_decide (outputPath = "-") then ret Stdout
               else OpenFile_excl env outputPath).
  assert (Hopen : forall f st2, open st = (Ok f, st2) ->
            f = (if bool_decide (outputPath = "-") then Stdout else File outputPath)
            /\ scn st2 = scn st).
  { subst open. destruct (bool_decide (outputPath = "-")).
    - intros f st2 [= <- <-]. auto.
    - unfold OpenFile_excl. intros f st2. repeat case_match; intros [= <- <-]; auto. }
  destruct (open st) as [r st2] eqn:Eopen.
  destruct r as [output| | | |]; try no_value.
  destruct (Hopen _ _ eq_refl) as [-> Hscn2]. clear Hopen Eopen open. cbn [fst snd].
  destruct (length (Args env) <? 2)%nat; [no_value|].
  apply wp_bind.
  destruct args as [|importPath args]; [no_value|].
  apply wp_ret, wp_modify, wp_bind.
  destruct (RepoRootForImportPath env importPath) as [e|repoRoot] eqn:Hresolve; [no_value|].
  apply wp_ret.
  destruct (bool_decide (Name (VCS repoRoot) = "Git")) eqn:Hname; [|no_value].
  apply bool_decide_eq_true in Hname. cbn [negb].
  apply wp_bind. unfold wp at 1. rewrite go_getVersion_spec. cbn [fst snd].
  match goal with |- wp _ _ ?s => remember s as st3 eqn:E3 end.
  assert (Hg3 : goroutine st3 =
            (getVersion env repoRoot).1
            ++ [BgSend (SendErr (getVersion env repoRoot).2.2);
                BgSend (SendVersion (getVersion env repoRoot).2.1)]) by now subst st3.
  assert (Hscn3 : scn st3 = scn st) by now subst st3.
  clear E3 Hscn2 st2.
  (* the questions *)
  apply wp_bind. unfold wp at 1.
  destruct (prompt _ _ st3) as [r st4] eqn:E4. apply prompt_inv in E4 as [Hg4 Hv4].
  destruct r as [pkgName| | | |]; try no_value.
  destruct (Hv4 _ eq_refl) as (t1 & rest1 & Ht1 & -> & Hscn4). clear Hv4. cbn [fst snd].
  apply wp_bind. unfold wp at 1.
  destruct (prompt _ _ st4) as [r st5] eqn:E5. apply prompt_inv in E5 as [Hg5 Hv5].
  destruct r as [dependsList| | | |]; try no_value.
  destruct (Hv5 _ eq_refl) as (t2 & rest2 & Ht2 & -> & Hscn5). clear Hv5. cbn [fst snd].
  apply wp_bind. unfold wp at 1.
  destruct (relPath _ _ st5) as [r st6] eqn:E6. apply relPath_inv in E6 as [-> Hv6].
  destruct r as [relp| | | |]; try no_value.
  destruct (Hv6 _ eq_refl) as (rel & Hrel & ->). clear Hv6. cbn [fst snd].
  apply wp_bind. unfold wp at 1.
  destruct (prompt _ _ st5) as [r st7] eqn:E7. apply prompt_inv in E7 as [Hg7 Hv7].
  destruct r as [binName| | | |]; try no_value.
  destruct (Hv7 _ eq_refl) as (t3 & rest & Ht3 & -> & _). clear Hv7. cbn [fst snd].
  apply wp_bind. unfold wp at 1. cbn [Fprint_w modify fst snd].
  match goal with |- wp _ _ ?s => remember s as st8 eqn:E8 end.
  assert (Hg8 : goroutine st8 = goroutine st3) by (subst st8; simpl; congruence).
  clear E8.
  (* the join *)
  apply wp_bind. unfold wp at 1.
  destruct (recv_errC_started (getVersion env repoRoot).1 (getVersion env repoRoot).2.2
              (getVersion env repoRoot).2.1 st8) as (st9 & Hrecv & Hg9 & _).
  { apply getVersion_steps. }
  { congruence. }
  rewrite Hrecv. cbn [fst snd].
  destruct (getVersion env repoRoot).2.2 as [err|] eqn:Eerr; [no_value|].
  destruct (getVersion_succeeded _ _ Eerr) as (dir & out & Hdir & Hout & Hversion).
  apply wp_bind. unfold wp at 1.
  destruct (recv_versionC_pending _ _ Hg9) as (st10 & Hrecv' & _).
  rewrite Hrecv'. cbn [fst snd].
  apply wp_bind. unfold wp at 1.
  assert (Hfinal : gathered env st
            (if bool_decide (outputPath = "-") then Stdout else File outputPath)
            {| PkgName := answer t1 (Base (RootPath repoRoot) +:+ "-git");
               Dir := Base (RootPath repoRoot);
               PkgVer := (getVersion env repoRoot).2.1;
               Repo := RepoURL repoRoot;
               Root := RootPath repoRoot;
               Depends := Fields (answer t2 "");
               Path := if bool_decide (rel = ".") then "" else rel;
               BinName := answer t3 (Base importPath) |}).
  { exists importPath, args, outputPath, repoRoot, t1, t2, t3, rest, dir, out, rel.
    rewrite Hparse, Hversion, answer_no_default.
    repeat split; try assumption. congruence. }
  destruct (bool_decide (outputPath = "-")); cbn; intros ? ? [= <- <-]; exact Hfinal.
Qed.

Lemma gather_data (env : Env) (st st' : State) (output : file) (d : TmplData) :
  gather env st = (Ok (output, d), st') -> gathered env st output d.
Proof.
  intros H. pose proof (gather_wp env st) as Hwp. unfold wp in Hwp.
  rewrite H in Hwp. now apply Hwp.
Qed.

(** ** The escaper, byte by byte *)

Module EscaperFacts.
Import GoString GoStringFacts Vocabulary.

#[local] Arguments String.append : simpl nomatch.

Lemma Pos_lor_ge (p q : positive) : (p <= Pos.lor p q)%positive.
Proof.
  revert q. induction p as [p IH|p IH|]; intros [q|q|];
    unfold Pos.lor; fold Pos.lor; try specialize (IH q); lia.
Qed.

Lemma N_lor_ge_l (a b : N) : a <= N.lor a b.
Proof.
  destruct a as [|p], b as [|q]; unfold N.lor; try lia.
  pose proof (Pos_lor_ge p q). lia.
Qed.

Lemma N_lor_ge_r (a b : N) : b <= N.lor a b.
Proof. rewrite N.lor_comm. apply N_lor_ge_l. Qed.

(** A second byte in an accept range is not ASCII; its low six bits say
    how far it lies above [0x80]. *)
Lemma accepted_byte (c : ascii) (lo hi : N) :
  outside (byte c) (lo, hi) = false -> 0x80 <= lo -> hi <= 0xBF ->
  isASCII c = false /\ lo - 0x80 <= N.land (byte c) 63.
Proof.
  unfold outside. cbn [fst snd]. intros [H1 H2]%orb_false_iff Hlo Hhi.
  apply N.ltb_ge in H1, H2. revert H1 H2.
  destruct c as [[] [] [] [] [] [] [] []]; vm_compute (byte _); intros H1 H2;
    (split; [vm_compute; try reflexivity | vm_compute (N.land _ _)]); lia.
Qed.

Lemma le_lor_l (x a b : N) : x <= a -> x <= N.lor a b.
Proof. intros H. etransitivity; [exact H | apply N_lor_ge_l]. Qed.

Lemma le_lor_r (x a b : N) : x <= b -> x <= N.lor a b.
Proof. intros H. etransitivity; [exact H | apply N_lor_ge_r]. Qed.

Lemma le_shiftl (x k a n : N) : k <= a -> x <= k * 2 ^ n -> x <= N.shiftl a n.
Proof.
  intros Hk Hx. rewrite N.shiftl_mul_pow2.
  etransitivity; [exact Hx | now apply N.mul_le_mono_r].
Qed.

Ltac rune_bound :=
  lazymatch goal with
  | |- _ <= N.lor _ _ => first [apply le_lor_l; rune_bound | apply le_lor_r; rune_bound]
  | |- _ <= N.shiftl _ _ =>
    eapply le_shiftl; [eassumption | apply N.leb_le; vm_compute; reflexivity]
  | |- _ => apply N.leb_le; vm_compute; reflexivity
  end.

Ltac invalid_rune :=
  right; split; [reflexivity | split; [apply N.leb_le; reflexivity | reflexivity]].

Lemma decode_head (c : ascii) (t : string) :
  let '(r, w) := DecodeRuneInString (String c t) in
  (isASCII c = true /\ r = byte c /\ w = 1%nat)
  \/ (isASCII c = false /\ 63 <= r /\ highPrefix (w - 1) t = true).
Proof.
  destruct c as [b0 b1 b2 b3 b4 b5 b6 b7].
  destruct b7.
  2:{ destruct b0, b1, b2, b3, b4, b5, b6; vm_compute; left; repeat split; reflexivity. }
  destruct b0, b1, b2, b3, b4, b5, b6.
  all: unfold DecodeRuneInString.
  all: match goal with |- context [byte ?a] => 
         let v := eval vm_compute in (byte a) in change (byte a) with v end.
  all: match goal with |- context [first ?a] => 
         let v := eval vm_compute in (first a) in change (first a) with v end.
  all: cbv zeta.
  all: match goal with |- context [0xF0 <=? ?a] => 
         let v := eval vm_compute in (0xF0 <=? a) in change (0xF0 <=? a) with v end.
  all: cbv iota.
  all: try invalid_rune.
  all: repeat match goal with
       | |- context [N.to_nat ?a] =>
         let v := eval vm_compute in (N.to_nat a) in change (N.to_nat a) with v
       | |- context [acceptRanges ?a] =>
         let v := eval vm_compute in (acceptRanges a) in change (acceptRanges a) with v
       | |- context [N.shiftl (N.land ?a ?b) ?n] =>
         lazymatch a with
         | byte _ => fail
         | _ => let v := eval vm_compute in (N.shiftl (N.land a b) n) in
                change (N.shiftl (N.land a b) n) with v
         end
       end.
  all: cbn [Nat.leb].
  all: destruct (len _ <? _)%nat; [invalid_rune|].
  all: destruct t as [|c1 t1]; [invalid_rune|].
  all: destruct (outside (byte c1) _) eqn:E1; [invalid_rune|].
  all: apply accepted_byte in E1 as [Ha1 Hb1]; [|lia|lia]; vm_compute (_ - _) in Hb1.
  all: try (right; split; [reflexivity|]; split; [rune_bound|]; cbn; rewrite Ha1; reflexivity).
  all: destruct t1 as [|c2 t2]; [invalid_rune|].
  all: destruct (outside (byte c2) _) eqn:E2; [invalid_rune|].
  all: apply accepted_byte in E2 as [Ha2 _]; [|lia|lia].
  all: try (right; split; [reflexivity|]; split; [rune_bound|]; cbn; rewrite Ha1, Ha2;
            reflexivity).
  all: destruct t2 as [|c3 t3]; [invalid_rune|].
  all: destruct (outside (byte c3) _) eqn:E3; [invalid_rune|].
  all: apply accepted_byte in E3 as [Ha3 _]; [|lia|lia].
  all: right; split; [reflexivity|]; split; [rune_bound|]; cbn; rewrite Ha1, Ha2, Ha3;
       reflexivity.
Qed.

Lemma table_above (r : N) : 63 <= r -> htmlReplacementTable r = "".
Proof.
  intros H. destruct r as [|p]; [lia|].
  do 6 (destruct p as [p|p|]; try reflexivity; try lia).
Qed.

Lemma escapeByte_high (c : ascii) : isASCII c = false -> escapeByte c = String c "".
Proof.
  unfold isASCII, RuneSelf, escapeByte. intros H%N.ltb_ge.
  rewrite table_above by lia. reflexivity.
Qed.

Lemma htmlReplacerFrom_bytes (s : string) (skip : nat) :
  highPrefix skip s = true -> htmlReplacerFrom skip s = escapeBytes s.
Proof.
  revert skip. induction s as [|c t IH]; intros skip Hskip; [reflexivity|].
  destruct skip as [|k].
  - cbn [htmlReplacerFrom escapeBytes].
    pose proof (decode_head c t) as Hhead.
    destruct (DecodeRuneInString (String c t)) as [r w].
    destruct Hhead as [(_ & -> & ->) | (Hc & Hr & Hhigh)].
    + unfold escapeByte. change (1 - 1)%nat with O. rewrite (IH O eq_refl).
      destruct (byte c <? 63) eqn:Hlow; simpl.
      * destruct (bool_decide (htmlReplacementTable (byte c) = "")) eqn:E; simpl;
          [|reflexivity].
        reflexivity.
      * apply N.ltb_ge in Hlow. rewrite (table_above _ Hlow). reflexivity.
    + apply N.ltb_ge in Hr. rewrite Hr. cbn [andb].
      now rewrite (IH _ Hhigh), (escapeByte_high _ Hc).
  - cbn [htmlReplacerFrom escapeBytes]. simpl in Hskip.
    apply andb_true_iff in Hskip as [Hc%negb_true_iff Hk].
    now rewrite (IH _ Hk), (escapeByte_high _ Hc).
Qed.

Theorem htmlEscaper_bytes (s : string) : htmlEscaper s = escapeBytes s.
Proof. now apply htmlReplacerFrom_bytes. Qed.

Lemma escapeBytes_app (a b : string) :
  escapeBytes (a +:+ b) = escapeBytes a +:+ escapeBytes b.
Proof.
  induction a as [|c a IH]; simpl; [reflexivity|].
  now rewrite IH, app_assoc.
Qed.

Lemma htmlEscaper_app (a b : string) :
  htmlEscaper (a +:+ b) = htmlEscaper a +:+ htmlEscaper b.
Proof. rewrite !htmlEscaper_bytes. apply escapeBytes_app. Qed.

End EscaperFacts.

(** ** The recipe, line by line *)

Import EscaperFacts.

Lemma concat_app (a b : list string) : concat (a ++ b) = concat a +:+ concat b.
Proof.
  unfold concat. induction a as [|x a IH]; simpl; [reflexivity|].
  now rewrite IH, app_assoc.
Qed.

Lemma rangeDepends_concat (deps : list string) (i : nat) :
  concat (rangeDepends i deps) =
    match deps with
    | [] => ""
    | _ :: _ => (if (0 <? i)%nat then " " else "") +:+ Join (map quoted deps) " "
    end.
Proof.
  revert i. induction deps as [|v rest IH]; intros i; [reflexivity|].
  cbn [rangeDepends]. rewrite !concat_app, IH.
  destruct rest as [|v' rest]; destruct (0 <? i)%nat; cbn; unfold quoted;
    rewrite ?app_nil_r, ?app_assoc; reflexivity.
Qed.

Lemma rendered_lines (d : TmplData) :
  rendered d = recipeHead d +:+ dependsLine (Depends d) +:+ nl +:+ recipeTail d.
Proof.
  unfold rendered, chunks. rewrite !concat_app, rangeDepends_concat.
  unfold recipeHead, dependsLine, recipeTail, pkgverFunction, chunksHead, chunksTail,
    textFunctions, ifPath, concat.
  destruct (bool_decide (Path d = "")); destruct (Depends d) as [|v rest];
    cbn [foldr map Join Nat.ltb Nat.leb];
    rewrite ?app_nil_r, ?app_assoc; cbn; rewrite ?app_assoc; reflexivity.
Qed.

(** ** What reaches the destination *)

Lemma writeChunks_all (env : Env) (output : file) (cs : list string) (st : State) :
  (forall n, writeFails env n = None) ->
  (writeChunks env output cs st).1 = None
  /\ contents output (writeChunks env output cs st).2 = contents output st +:+ concat cs.
Proof.
  intros Hok. revert st. induction cs as [|c cs IH]; intros st.
  - simpl. now rewrite app_nil_r.
  - cbn [writeChunks]. unfold Write. rewrite Hok.
    destruct (IH (append_to output c (set_writes (S (writes st)) st))) as [-> ->].
    split; [reflexivity|].
    unfold concat. cbn [foldr]. rewrite <- app_assoc. f_equal.
    destruct output as [|path]; simpl; [reflexivity|].
    now rewrite lookup_insert_eq.
Qed.

(** When every [Write] succeeds, the destination receives the recipe after
    what it held. *)
Lemma run_renders (env : Env) (st st1 : State) (output : file) (d : TmplData) :
  gather env st = (Ok (output, d), st1) ->
  (forall n, writeFails env n = None) ->
  (run env st).1 = Ok tt
  /\ contents output (run env st).2 = contents output st1 +:+ rendered d.
Proof.
  intros Hgather Hok. unfold run, bind. rewrite Hgather. cbn [fst snd ret].
  split; [reflexivity|]. now apply writeChunks_all.
Qed.

(** ** The version *)

(** C8.  In a run that gets to the rendering, the version of the template
    data is the output of the version command with the white space around it
    trimmed, and the rendering has it, escaped, between [pkgver=] and the end
    of the third line.  For the output [r12.abcdef0] and a line feed that
    line is [pkgver=r12.abcdef0].  When every [Write] succeeds, the
    destination holds the rendering after what it held. *)
Theorem version_line (env : Env) (st st1 : State) (output : file) (d : TmplData) :
  gather env st = (Ok (output, d), st1) ->
  exists dir out rest,
    TempDir env = inr dir /\ Output env dir = inr out
    /\ PkgVer d = TrimSpace out
    /\ rendered d =
         "pkgname=" +:+ htmlEscaper (PkgName d) +:+ nl +:+
         "_pkgname=" +:+ htmlEscaper (Dir d) +:+ nl +:+
         "pkgver=" +:+ htmlEscaper (TrimSpace out) +:+ nl +:+ rest
    /\ (out = "r12.abcdef0" +:+ nl ->
        "pkgver=" +:+ htmlEscaper (TrimSpace out) = "pkgver=r12.abcdef0")
    /\ ((forall n, writeFails env n = None) ->
        contents output (run env st).2 = contents output st1 +:+ rendered d).
Proof.
  intros Hgather.
  pose proof (fun Hok => proj2 (run_renders _ _ _ _ _ Hgather Hok)) as Hrun.
  destruct (gather_data _ _ _ _ _ Hgather)
    as (importPath & args & outputPath & repoRoot & t1 & t2 & t3 & rest & dir & out & rel
        & _ & _ & _ & _ & Hdir & Hout & _ & _ & ->).
  exists dir, out. eexists.
  split; [exact Hdir|]. split; [exact Hout|]. split; [reflexivity|]. split; [|split].
  - rewrite rendered_lines. unfold recipeHead. cbn [PkgName Dir PkgVer].
    rewrite !app_assoc. reflexivity.
  - intros ->. reflexivity.
  - exact Hrun.
Qed.

Lemma version_line_witness :
  let d := {| PkgName := "lint-git"; Dir := "lint"; PkgVer := "r12.abcdef0";
              Repo := "https://github.com/golang/lint";
              Root := "github.com/golang/lint"; Depends := [];
              Path := "golint"; BinName := "golint" |} in
  exists dir out rest,
    TempDir (tagged ["github.com/golang/lint/golint"]) = inr dir
    /\ Output (tagged ["github.com/golang/lint/golint"]) dir = inr out
    /\ PkgVer d = TrimSpace out
    /\ rendered d =
         "pkgname=" +:+ htmlEscaper (PkgName d) +:+ nl +:+
         "_pkgname=" +:+ htmlEscaper (Dir d) +:+ nl +:+
         "pkgver=" +:+ htmlEscaper (TrimSpace out) +:+ nl +:+ rest
    /\ (out = "r12.abcdef0" +:+ nl ->
        "pkgver=" +:+ htmlEscaper (TrimSpace out) = "pkgver=r12.abcdef0")
    /\ ((forall n, writeFails (tagged ["github.com/golang/lint/golint"]) n = None) ->
        contents (File "PKGBUILD")
          (run (tagged ["github.com/golang/lint/golint"]) (answers [""; ""; ""] ∅)).2
        = contents (File "PKGBUILD")
            (gather (tagged ["github.com/golang/lint/golint"]) (answers [""; ""; ""] ∅)).2
          +:+ rendered d).
Proof.
  apply (version_line (tagged ["github.com/golang/lint/golint"]) (answers [""; ""; ""] ∅)
           (gather (tagged ["github.com/golang/lint/golint"]) (answers [""; ""; ""] ∅)).2
           (File "PKGBUILD")).
  apply gather_computed. vm_compute. reflexivity.
Defined.

(** ** The dependencies *)

Lemma solid_inv (c : ascii) : solid c = true -> isASCII c = true /\ asciiSpace c = false.
Proof. unfold solid. intros [? ?%negb_true_iff]%andb_true_iff. auto. Qed.

Lemma fieldsASCII_word (s rest : string) (cur : option string) :
  all solid s = true -> s <> "" ->
  fieldsASCII cur (s +:+ rest) = fieldsASCII (Some (field cur +:+ s)) rest.
Proof.
  revert cur. induction s as [|c s IH]; intros cur Hs Hne; [congruence|].
  cbn [all] in Hs. apply andb_true_iff in Hs as [Hc Hs].
  destruct (solid_inv _ Hc) as [_ Hspace].
  cbn [String.append fieldsASCII]. rewrite Hspace.
  assert (Hext : extend cur c = field cur +:+ String c "") by (destruct cur; reflexivity).
  destruct s as [|c' s].
  - cbn [String.append]. now rewrite Hext.
  - rewrite IH by (assumption || discriminate). cbn [field].
    now rewrite Hext, app_assoc.
Qed.

Lemma fieldsASCII_words (ws : list string) :
  Forall (fun s => word s = true) ws -> fieldsASCII None (Join ws " ") = ws.
Proof.
  induction ws as [|s ws IH]; intros Hws; [reflexivity|].
  apply Forall_cons in Hws as [[Hne Hs]%andb_true_iff Hws].
  apply negb_true_iff, bool_decide_eq_false in Hne.
  destruct ws as [|s' ws].
  - cbn [Join]. rewrite <- (app_nil_r s) at 1.
    now rewrite fieldsASCII_word.
  - change (Join (s :: s' :: ws) " ") with (s +:+ String " " (Join (s' :: ws) " ")).
    rewrite fieldsASCII_word by assumption.
    cbn [fieldsASCII field String.append]. change (asciiSpace " ") with true.
    cbn [emit List.app]. now rewrite (IH Hws).
Qed.

Lemma all_solid_ASCII (s : string) : all solid s = true -> all isASCII s = true.
Proof.
  induction s as [|c s IH]; [reflexivity|]. cbn [all].
  intros [Hc Hs]%andb_true_iff. destruct (solid_inv _ Hc) as [-> _]. now apply IH.
Qed.

(** [Fields] gives back words that single spaces hold apart. *)
Lemma Fields_words (ws : list string) :
  Forall (fun s => word s = true) ws -> Fields (Join ws " ") = ws.
Proof.
  intros Hws. unfold Fields.
  assert (HA : all isASCII (Join ws " ") = true).
  { induction ws as [|s [|s' ws] IH]; [reflexivity| |].
    - apply Forall_cons in Hws as [[_ Hs]%andb_true_iff _]. now apply all_solid_ASCII.
    - apply Forall_cons in Hws as [[_ Hs]%andb_true_iff Hws].
      change (Join (s :: s' :: ws) " ") with (s +:+ String " " (Join (s' :: ws) " ")).
      rewrite all_app, (all_solid_ASCII _ Hs). cbn [all andb].
      change (isASCII " ") with true. now apply IH. }
  rewrite HA. now apply fieldsASCII_words.
Qed.

(** C7.  In a run that gets to the rendering, the dependencies of the
    template data are the fields, in order, of the second line read from the
    terminal, split at white space: when the line, trimmed, is words with one
    space between two of them, they are those words.  The rendering has them
    on one line, each escaped and between single quotes, with one space
    between two of them and parentheses around.  For the line [foo bar] that
    line is [depends=('foo' 'bar')], for the empty line it is [depends=()]. *)
Theorem depends_line (env : Env) (st st1 : State) (output : file) (d : TmplData) :
  gather env st = (Ok (output, d), st1) ->
  exists t1 line rest,
    tokens (scn st) = t1 :: line :: rest
    /\ Depends d = Fields (TrimSpace line)
    /\ (forall ws, Forall (fun s => word s = true) ws -> TrimSpace line = Join ws " " ->
          Depends d = ws)
    /\ rendered d = recipeHead d +:+ dependsLine (Depends d) +:+ nl +:+ recipeTail d
    /\ (line = "foo bar" -> dependsLine (Depends d) = "depends=('foo' 'bar')")
    /\ (line = "" -> dependsLine (Depends d) = "depends=()").
Proof.
  intros Hgather.
  destruct (gather_data _ _ _ _ _ Hgather)
    as (importPath & args & outputPath & repoRoot & t1 & t2 & t3 & rest & dir & out & rel
        & _ & _ & _ & Htokens & _ & _ & _ & _ & ->).
  exists t1, t2, (t3 :: rest).
  split; [exact Htokens|]. split; [reflexivity|]. split.
  { intros ws Hws Hline. cbn [Depends]. rewrite Hline. now apply Fields_words. }
  split; [apply rendered_lines|].
  cbn [Depends]. split; intros ->; reflexivity.
Qed.

Lemma depends_line_witness :
  let d := {| PkgName := "lint-git"; Dir := "lint"; PkgVer := "r179.414d861";
              Repo := "https://github.com/golang/lint";
              Root := "github.com/golang/lint"; Depends := ["foo"; "bar"];
              Path := "golint"; BinName := "golint" |} in
  exists t1 line rest,
    tokens (scn (answers [""; "foo bar"; ""] ∅)) = t1 :: line :: rest
    /\ Depends d = Fields (TrimSpace line)
    /\ (forall ws, Forall (fun s => word s = true) ws -> TrimSpace line = Join ws " " ->
          Depends d = ws)
    /\ rendered d = recipeHead d +:+ dependsLine (Depends d) +:+ nl +:+ recipeTail d
    /\ (line = "foo bar" -> dependsLine (Depends d) = "depends=('foo' 'bar')")
    /\ (line = "" -> dependsLine (Depends d) = "depends=()").
Proof.
  apply (depends_line (golint ["github.com/golang/lint/golint"])
           (answers [""; "foo bar"; ""] ∅)
           (gather (golint ["github.com/golang/lint/golint"])
                   (answers [""; "foo bar"; ""] ∅)).2
           (File "PKGBUILD")).
  apply gather_computed. vm_compute. reflexivity.
Defined.

(** ** Escaping *)

Lemma escapeByte_special (c : ascii) : special c = true -> escapeByte c = entity c.
Proof.
  unfold special, escapeByte, entity.
  destruct c as [[] [] [] [] [] [] [] []]; vm_compute; congruence.
Qed.

Lemma escapeByte_markup (c : ascii) : all (fun x => negb (markup x)) (escapeByte c) = true.
Proof. destruct c as [[] [] [] [] [] [] [] []]; vm_compute; reflexivity. Qed.

Lemma htmlEscaper_markup (s : string) : all (fun x => negb (markup x)) (htmlEscaper s) = true.
Proof.
  rewrite htmlEscaper_bytes. induction s as [|c s IH]; [reflexivity|].
  cbn [escapeBytes]. now rewrite all_app, escapeByte_markup, IH.
Qed.

Lemma markup_less (s : string) :
  all (fun x => negb (markup x)) s = true -> all (fun x => negb (isLess x)) s = true.
Proof.
  induction s as [|c s IH]; [reflexivity|]. cbn [all].
  intros [Hc Hs]%andb_true_iff. rewrite (IH Hs), andb_true_r.
  unfold markup in Hc. unfold isLess. destruct (bool_decide (c = "<"%char)); [discriminate|].
  reflexivity.
Qed.

Lemma htmlEscaper_less (s : string) : all (fun x => negb (isLess x)) (htmlEscaper s) = true.
Proof. apply markup_less, htmlEscaper_markup. Qed.

Lemma dependsLine_less (deps : list string) :
  all (fun x => negb (isLess x)) (dependsLine deps) = true.
Proof.
  unfold dependsLine. rewrite !all_app.
  assert (H : all (fun x => negb (isLess x)) (Join (map quoted deps) " ") = true).
  { induction deps as [|v [|v' rest] IH].
    - reflexivity.
    - cbn. unfold quoted. rewrite !all_app, htmlEscaper_less. reflexivity.
    - change (Join (map quoted (v :: v' :: rest)) " ")
        with (quoted v +:+ " " +:+ Join (map quoted (v' :: rest)) " ").
      rewrite !all_app, IH. unfold quoted. rewrite !all_app, htmlEscaper_less. reflexivity. }
  rewrite H. reflexivity.
Qed.

(** C10.  The rendering is the text of the template with the fields in it,
    each through the escaper of HTML text (see [recipeHead], [dependsLine] and
    [recipeTail]).  The escaper works byte by byte; where a value has [&],
    [<], [>], ['] or the double quote, the rendering has [&amp;], [&lt;],
    [&gt;], [&#39;] or [&#34;]; no [<], [>], ['] or double quote of a value is
    left as it is.  So no rendering has a [<] in it, whatever the fields, and a
    package name [a&b] is rendered as [pkgname=a&amp;b]. *)
Theorem fields_escaped :
  (forall d, rendered d = recipeHead d +:+ dependsLine (Depends d) +:+ nl +:+ recipeTail d)
  /\ (forall a c b, special c = true ->
        htmlEscaper (a +:+ String c b) = htmlEscaper a +:+ entity c +:+ htmlEscaper b)
  /\ (entity "&" = "&amp;" /\ entity "<" = "&lt;" /\ entity ">" = "&gt;"
      /\ entity "'" = "&#39;" /\ entity "034" = "&#34;")
  /\ (forall s, all (fun x => negb (markup x)) (htmlEscaper s) = true)
  /\ (forall d, all (fun x => negb (isLess x)) (rendered d) = true)
  /\ (forall d, PkgName d = "a&b" ->
        exists rest, rendered d = "pkgname=a&amp;b" +:+ nl +:+ rest).
Proof.
  split; [exact rendered_lines|]. split.
  { intros a c b Hc. rewrite !htmlEscaper_bytes, escapeBytes_app. cbn [escapeBytes].
    now rewrite (escapeByte_special _ Hc). }
  split; [repeat split|]. split; [exact htmlEscaper_markup|]. split.
  - intros d. rewrite rendered_lines, !all_app, dependsLine_less.
    unfold recipeHead, recipeTail, pkgverFunction. rewrite !all_app, !htmlEscaper_less.
    destruct (bool_decide (Path d = "")); rewrite ?all_app, ?htmlEscaper_less; reflexivity.
  - intros d Hname. rewrite rendered_lines. unfold recipeHead. rewrite Hname.
    eexists. change (htmlEscaper "a&b") with "a&amp;b". rewrite !app_assoc. reflexivity.
Qed.

(** ** Paths made of names *)

Module PathFacts.
Import GoString GoStringFacts Vocabulary.

#[local] Arguments String.append : simpl nomatch.

Lemma isName_inv (e : string) :
  isName e = true ->
  exists c e', e = String c e' /\ isSlash c = false /\ noSlash e' = true
               /\ e <> "." /\ e <> "..".
Proof.
  unfold isName. intros [[[H1 H2]%andb_true_iff H3]%andb_true_iff H4]%andb_true_iff.
  apply negb_true_iff, bool_decide_eq_false in H1, H3, H4.
  destruct e as [|c e']; [congruence|].
  unfold noSlash in H2. cbn [all] in H2. apply andb_true_iff in H2 as [Hc He'].
  apply negb_true_iff in Hc. eauto 10.
Qed.

Lemma isName_noSlash (e : string) : isName e = true -> noSlash e = true.
Proof.
  unfold isName. now intros [[[_ H]%andb_true_iff _]%andb_true_iff _]%andb_true_iff.
Qed.

Lemma elem_name (e rest : string) :
  noSlash e = true -> elem (e +:+ String "/" rest) = e /\ elem e = e.
Proof.
  unfold noSlash. induction e as [|c e IH]; cbn [all String.append elem]; [auto|].
  intros [Hc He]%andb_true_iff. apply negb_true_iff in Hc. rewrite Hc.
  destruct (IH He) as [-> ->]. auto.
Qed.

Lemma afterElem_name (e rest : string) :
  noSlash e = true ->
  afterElem (e +:+ String "/" rest) = String "/" rest /\ afterElem e = "".
Proof.
  unfold noSlash. induction e as [|c e IH]; cbn [all String.append afterElem]; [auto|].
  intros [Hc He]%andb_true_iff. apply negb_true_iff in Hc. rewrite Hc.
  now apply IH.
Qed.

(** *** [Join] *)

Lemma Join_cons (e : string) (es : list string) :
  Join (e :: es) "/" = match es with [] => e | _ :: _ => e +:+ "/" +:+ Join es "/" end.
Proof. destruct es; reflexivity. Qed.

Lemma Join_snoc (es : list string) (e : string) :
  Join (es ++ [e]) "/" = match es with [] => e | _ :: _ => Join es "/" +:+ "/" +:+ e end.
Proof.
  induction es as [|x [|y es] IH]; [reflexivity..|].
  change ((x :: y :: es) ++ [e]) with (x :: (y :: es) ++ [e]).
  rewrite Join_cons. cbn [List.app] in *. rewrite IH.
  rewrite (Join_cons x (y :: es)). now rewrite !app_assoc.
Qed.

Lemma Join_names_nonempty (es : list string) :
  names es -> es <> [] -> exists c t, Join es "/" = String c t /\ isSlash c = false.
Proof.
  intros Hn Hne. destruct es as [|e es]; [congruence|].
  apply Forall_cons in Hn as [He _].
  destruct (isName_inv _ He) as (c & e' & -> & Hc & _).
  rewrite Join_cons. destruct es; cbn; eauto.
Qed.

(** *** [Clean] keeps a path of names *)

Lemma cleanLoop_copy (s out : string) :
  noSlash s = true ->
  cleanLoop false true s out 0 = rev s +:+ out
  /\ forall r, cleanLoop false true (s +:+ String "/" r) out 0
               = cleanLoop false false r (rev s +:+ out) 0.
Proof.
  unfold noSlash. revert out.
  induction s as [|c s IH]; intros out; cbn [all String.append cleanLoop rev].
  - intros _. split; reflexivity.
  - intros [Hc Hs]%andb_true_iff. apply negb_true_iff in Hc. rewrite Hc.
    destruct (IH (String c out) Hs) as [-> Hr].
    split; [now rewrite app_assoc|].
    intros r. now rewrite Hr, app_assoc.
Qed.

Lemma cleanLoop_real (c : ascii) (t out : string) :
  isSlash c = false ->
  isDot c && atElemEnd t = false ->
  (forall c' t', t = String c' t' -> isDot c && isDot c' && atElemEnd t' = false) ->
  cleanLoop false false (String c t) out 0 = cleanLoop false true t (String c (sep out)) 0.
Proof.
  intros Hc H1 H2. cbn [cleanLoop]. rewrite Hc, H1. unfold sep.
  destruct t as [|c' t'].
  - cbn [andb orb negb]. destruct (len out =? 0)%nat; reflexivity.
  - rewrite (H2 _ _ eq_refl). cbn [andb orb negb].
    destruct (len out =? 0)%nat; reflexivity.
Qed.

Lemma atElemEnd_name (e rest : string) :
  noSlash e = true -> e <> "" -> atElemEnd (e +:+ rest) = false.
Proof.
  unfold noSlash. destruct e as [|c e]; [congruence|].
  cbn [all String.append atElemEnd]. intros [Hc _]%andb_true_iff _.
  now apply negb_true_iff in Hc.
Qed.

Lemma cleanLoop_elem (e out : string) :
  isName e = true ->
  cleanLoop false false e out 0 = rev e +:+ sep out
  /\ forall r, cleanLoop false false (e +:+ String "/" r) out 0
               = cleanLoop false false r (rev e +:+ sep out) 0.
Proof.
  intros He. destruct (isName_inv _ He) as (c & e' & -> & Hc & He' & Hdot & Hdots).
  assert (Hreal : forall rest,
    cleanLoop false false (String c (e' +:+ rest)) out 0
    = cleanLoop false true (e' +:+ rest) (String c (sep out)) 0).
  { intros rest. apply cleanLoop_real; [exact Hc| |].
    - unfold isDot. case_decide as Ec; [|reflexivity]. subst c. cbn [andb].
      apply atElemEnd_name; [exact He'|]. intros ->. now apply Hdot.
    - intros c' t' Ht. unfold isDot. case_decide as Ec; [|reflexivity]. subst c.
      case_decide as Ec'; [|reflexivity]. subst c'. cbn [andb].
      destruct e' as [|x e'']; [now destruct Hdot|].
      cbn [String.append] in Ht. injection Ht as -> <-.
      unfold noSlash in He'. cbn [all] in He'. apply andb_true_iff in He' as [_ He''].
      apply atElemEnd_name; [exact He''|]. intros ->. now apply Hdots. }
  destruct (cleanLoop_copy e' (String c (sep out)) He') as [H1 H2].
  split.
  - specialize (Hreal ""). rewrite app_nil_r in Hreal. rewrite Hreal, H1.
    cbn [rev]. now rewrite app_assoc.
  - intros r. change (String c e' +:+ String "/" r) with (String c (e' +:+ String "/" r)).
    rewrite Hreal, H2. cbn [rev]. now rewrite app_assoc.
Qed.

Lemma len_zero (s : string) : (len s =? 0)%nat = true <-> s = "".
Proof. destruct s; cbn; split; congruence. Qed.

Lemma rev_empty (s : string) : rev s = "" -> s = "".
Proof.
  intros H. apply (f_equal rev) in H. now rewrite rev_involutive in H.
Qed.

Lemma Join_empty (es : list string) : names es -> Join es "/" = "" -> es = [].
Proof.
  intros Hn H. destruct es as [|e es]; [reflexivity|].
  destruct (Join_names_nonempty (e :: es) Hn) as (c & t & Ht & _); congruence.
Qed.

Lemma cleanLoop_names (es done : list string) :
  names es -> names done ->
  cleanLoop false false (Join es "/") (rev (Join done "/")) 0
  = rev (Join (done ++ es) "/").
Proof.
  revert done. induction es as [|e es IH]; intros done Hes Hdone.
  - now rewrite List.app_nil_r.
  - apply Forall_cons in Hes as [He Hes].
    assert (Hout : rev e +:+ sep (rev (Join done "/")) = rev (Join (done ++ [e]) "/")).
    { rewrite Join_snoc. unfold sep.
      destruct done as [|x done]; [cbn; now rewrite app_nil_r|].
      destruct (len (rev (Join (x :: done) "/")) =? 0)%nat eqn:E.
      - apply len_zero, rev_empty, Join_empty in E; [discriminate | exact Hdone].
      - rewrite !rev_app. cbn [rev String.append]. now rewrite !app_assoc. }
    assert (Hdone' : names (done ++ [e])) by (apply Forall_app; split; [|constructor]; auto).
    destruct (cleanLoop_elem e (rev (Join done "/")) He) as [H1 H2].
    rewrite Join_cons. destruct es as [|e' es].
    + now rewrite H1, Hout.
    + change ("/" +:+ Join (e' :: es) "/") with (String "/" (Join (e' :: es) "/")).
      rewrite H2, Hout, (IH _ Hes Hdone'). now rewrite <- List.app_assoc.
Qed.

Theorem Clean_names (es : list string) :
  names es -> es <> [] -> Clean (Join es "/") = Join es "/".
Proof.
  intros Hn Hne.
  destruct (Join_names_nonempty es Hn Hne) as (c & t & Ht & Hc).
  unfold Clean. rewrite Ht, Hc, <- Ht.
  pose proof (cleanLoop_names es [] Hn (List.Forall_nil _)) as H.
  cbn [Join rev List.app] in H.
  rewrite H. case_decide as E.
  - apply rev_empty in E. congruence.
  - apply rev_involutive.
Qed.

(** *** [Rel] from a path of names to a longer one *)

Lemma relLoop_done (fuel : nat) (t : string) :
  relLoop fuel "" t = Some {| differing := ""; baseRest := ""; targRest := t |}.
Proof. destruct fuel; reflexivity. Qed.

Lemma relLoop_turn (fuel : nat) (c c' : ascii) (b t : string) :
  elem (String c' t) = elem (String c b) ->
  relLoop (S fuel) (String c b) (String c' t)
  = relLoop fuel (skipSlash (afterElem (String c b))) (skipSlash (afterElem (String c' t))).
Proof.
  intros H. cbn [relLoop]. case_decide; [reflexivity | contradiction].
Qed.

Lemma Join_app (r s : list string) :
  r <> [] -> s <> [] -> Join (r ++ s) "/" = Join r "/" +:+ String "/" (Join s "/").
Proof.
  intros Hr Hs. induction r as [|e [|e' r] IH]; [congruence| |].
  - cbn [List.app]. rewrite Join_cons. destruct s; [congruence|]. reflexivity.
  - change ((e :: e' :: r) ++ s) with (e :: (e' :: r) ++ s).
    rewrite Join_cons. cbn [List.app] in *. rewrite IH by discriminate.
    rewrite (Join_cons e (e' :: r)). now rewrite !app_assoc.
Qed.

Lemma relLoop_names (r s : list string) (fuel : nat) :
  names r -> r <> [] -> s <> [] -> (length r <= fuel)%nat ->
  relLoop fuel (Join r "/") (Join (r ++ s) "/")
  = Some {| differing := ""; baseRest := ""; targRest := Join s "/" |}.
Proof.
  revert fuel. induction r as [|e r IH]; intros fuel Hn Hr Hs Hfuel; [congruence|].
  apply Forall_cons in Hn as [He Hn].
  destruct fuel as [|fuel]; [cbn in Hfuel; lia|].
  pose proof (isName_noSlash _ He) as Hslash.
  destruct (isName_inv _ He) as (c & e' & Ee & _).
  destruct r as [|e2 r].
  - change ([e] ++ s) with (e :: s). change (Join [e] "/") with e.
    rewrite (Join_cons e s). destruct s as [|x s]; [congruence|].
    change ("/" +:+ Join (x :: s) "/") with (String "/" (Join (x :: s) "/")).
    destruct (elem_name e (Join (x :: s) "/") Hslash) as [E1 E2].
    destruct (afterElem_name e (Join (x :: s) "/") Hslash) as [A1 A2].
    subst e. cbn [String.append] in *.
    rewrite relLoop_turn by congruence.
    cbn [String.append] in A1. rewrite A1, A2. cbn [skipSlash]. apply relLoop_done.
  - change ((e :: e2 :: r) ++ s) with (e :: (e2 :: r) ++ s).
    rewrite (Join_cons e (e2 :: r)). rewrite (Join_cons e ((e2 :: r) ++ s)).
    cbn [List.app].
    change ("/" +:+ ?x) with (String "/" x).
    destruct (elem_name e (Join (e2 :: r) "/") Hslash) as [E1 _].
    destruct (elem_name e (Join (e2 :: r ++ s) "/") Hslash) as [E2 _].
    destruct (afterElem_name e (Join (e2 :: r) "/") Hslash) as [A1 _].
    destruct (afterElem_name e (Join (e2 :: r ++ s) "/") Hslash) as [A2 _].
    subst e. cbn [String.append] in *.
    rewrite relLoop_turn by congruence.
    rewrite A1, A2. cbn [skipSlash].
    apply (IH fuel Hn); [discriminate | exact Hs | cbn in *; lia].
Qed.

Lemma length_Join (r : list string) : names r -> (length r <= len (Join r "/"))%nat.
Proof.
  induction r as [|e r IH]; intros Hn; [cbn; lia|].
  apply Forall_cons in Hn as [He Hn].
  destruct (isName_inv _ He) as (c & e' & -> & _).
  rewrite Join_cons. destruct r as [|e2 r]; [cbn; lia|].
  specialize (IH Hn). rewrite !len_app. cbn [len length] in *. lia.
Qed.

Lemma Join_not_dot (r : list string) : names r -> Join r "/" <> ".".
Proof.
  intros Hn H. destruct r as [|e r]; [discriminate|].
  apply Forall_cons in Hn as [He _].
  destruct (isName_inv _ He) as (c & e' & -> & _ & _ & Hdot & _).
  rewrite Join_cons in H. destruct r as [|e2 r]; [contradiction|].
  cbn [String.append] in H. injection H as _ H.
  destruct e'; discriminate.
Qed.

(** From a path of names to the same path followed by more names, [Rel]
    gives the names that follow. *)
Theorem Rel_names (r s : list string) :
  names r -> names s -> r <> [] -> s <> [] ->
  Rel (Join r "/") (Join (r ++ s) "/") = inr (Join s "/").
Proof.
  intros Hr Hs Hrne Hsne.
  assert (Hrs : names (r ++ s)) by (apply Forall_app; auto).
  assert (Hrsne : r ++ s <> []) by (destruct r; [congruence | discriminate]).
  unfold Rel. rewrite (Clean_names _ Hr Hrne), (Clean_names _ Hrs Hrsne).
  case_decide as Esame.
  { rewrite Join_app in Esame by assumption.
    apply (f_equal len) in Esame. rewrite len_app in Esame. cbn [len] in Esame. lia. }
  case_decide as Edot; [now apply Join_not_dot in Edot|].
  destruct (Join_names_nonempty r Hr Hrne) as (c & t & Et & Hc).
  destruct (Join_names_nonempty (r ++ s) Hrs Hrsne) as (c' & t' & Et' & Hc').
  replace (slashed (Join r "/")) with false by (rewrite Et; cbn; now rewrite Hc).
  replace (slashed (Join (r ++ s) "/")) with false by (rewrite Et'; cbn; now rewrite Hc').
  cbn [Bool.eqb negb].
  rewrite (relLoop_names r s _ Hr Hrne Hsne (length_Join r Hr)).
  cbn [differing baseRest targRest].
  case_decide; [discriminate|]. case_decide; [reflexivity | contradiction].
Qed.

Lemma Rel_same (p : string) : Rel p p = inr ".".
Proof. unfold Rel. case_decide; [reflexivity | contradiction]. Qed.

End PathFacts.

(** ** The relative path *)

Import PathFacts.

(** C6.  In a run that gets to the rendering, the path of the template
    data is what [filepath.Rel] gives from the root of the repository to the
    import path of the command line, with [.] turned into the empty string.
    It is empty when the import path is the root; it is [cmd/baz] for the root
    [example.com/foo/bar] and the import path [example.com/foo/bar/cmd/baz];
    and whenever the root is a path of names and the import path is the root
    followed by more names, it is the names that follow. *)
Theorem relative_sub_path (env : Env) (st st1 : State) (output : file) (d : TmplData) :
  gather env st = (Ok (output, d), st1) ->
  exists importPath args outputPath rel,
    (parseArgs env st).1 = Ok (importPath :: args, outputPath)
    /\ Rel (Root d) importPath = inr rel
    /\ Path d = (if bool_decide (rel = ".") then "" else rel)
    /\ (importPath = Root d -> Path d = "")
    /\ (Root d = "example.com/foo/bar" -> importPath = "example.com/foo/bar/cmd/baz" ->
        Path d = "cmd/baz")
    /\ (forall r s, names r -> names s -> r <> [] -> s <> [] ->
          Root d = Join r "/" -> importPath = Join (r ++ s) "/" ->
          Path d = Join s "/").
Proof.
  intros Hgather.
  destruct (gather_data _ _ _ _ _ Hgather)
    as (importPath & args & outputPath & repoRoot & t1 & t2 & t3 & rest & dir & out & rel
        & Hparse & _ & _ & _ & _ & _ & Hrel & _ & ->).
  exists importPath, args, outputPath, rel. cbn [Root Path].
  split; [exact Hparse|]. split; [exact Hrel|]. split; [reflexivity|]. split; [|split].
  - intros ->. rewrite Rel_same in Hrel. now injection Hrel as <-.
  - intros Hroot ->. rewrite Hroot in Hrel. vm_compute in Hrel. now injection Hrel as <-.
  - intros r s Hr Hs Hrne Hsne Hroot ->. rewrite Hroot, (Rel_names r s Hr Hs Hrne Hsne) in Hrel.
    injection Hrel as <-. case_bool_decide as E; [|reflexivity].
    now apply Join_not_dot in E.
Qed.

Lemma relative_sub_path_witness :
  let d := {| PkgName := "bar-git"; Dir := "bar"; PkgVer := "r12.abcdef0";
              Repo := "https://example.com/foo/bar";
              Root := "example.com/foo/bar"; Depends := [];
              Path := "cmd/baz"; BinName := "baz" |} in
  let env := example_com "example.com/foo/bar/cmd/baz" in
  let st := answers [""; ""; ""] ∅ in
  exists importPath args outputPath rel,
    (parseArgs env st).1 = Ok (importPath :: args, outputPath)
    /\ Rel (Root d) importPath = inr rel
    /\ Path d = (if bool_decide (rel = ".") then "" else rel)
    /\ (importPath = Root d -> Path d = "")
    /\ (Root d = "example.com/foo/bar" -> importPath = "example.com/foo/bar/cmd/baz" ->
        Path d = "cmd/baz")
    /\ (forall r s, names r -> names s -> r <> [] -> s <> [] ->
          Root d = Join r "/" -> importPath = Join (r ++ s) "/" ->
          Path d = Join s "/").
Proof.
  apply (relative_sub_path (example_com "example.com/foo/bar/cmd/baz")
           (answers [""; ""; ""] ∅)
           (gather (example_com "example.com/foo/bar/cmd/baz") (answers [""; ""; ""] ∅)).2
           (File "PKGBUILD")).
  apply gather_computed. vm_compute. reflexivity.
Defined.

(** The same at the root of the repository: the directory of [build()] is
    the clone itself. *)
Lemma sub_path_at_root :
  (gather (example_com "example.com/foo/bar") (answers [""; ""; ""] ∅)).1
  = Ok (File "PKGBUILD",
        {| PkgName := "bar-git"; Dir := "bar"; PkgVer := "r12.abcdef0";
           Repo := "https://example.com/foo/bar";
           Root := "example.com/foo/bar"; Depends := [];
           Path := ""; BinName := "bar" |}).
Proof. vm_compute. reflexivity. Qed.

(** ** Files that are there before the run *)

Lemma wp_keeps {A B} (proj : State -> B) (m : M A) (Q : result A -> State -> Prop)
    (st : State) :
  (forall st0, proj (m st0).2 = proj st0) ->
  (forall r st', proj st' = proj st -> Q r st') ->
  wp m Q st.
Proof. unfold wp. auto. Qed.

Lemma parseArgs_files (env : Env) (st : State) : files (parseArgs env st).2 = files st.
Proof. unfold parseArgs, panic, ret. repeat case_match; reflexivity. Qed.

Lemma prompt_files (p dflt : string) (st : State) : files (prompt p dflt st).2 = files st.
Proof. rewrite prompt_eq. cbn zeta. repeat case_match; reflexivity. Qed.

Lemma relPath_files (root importPath : string) (st : State) :
  files (relPath root importPath st).2 = files st.
Proof. unfold relPath, bind, fail, ret. repeat case_match; simplify_eq; reflexivity. Qed.

Lemma receive_files (c : chan) (st : State) : files (receive c st).2 = files st.
Proof. unfold receive. repeat case_match; reflexivity. Qed.

Lemma recv_errC_files (st : State) : files (recv_errC st).2 = files st.
Proof.
  unfold recv_errC, bind, ret. pose proof (receive_files errC st) as H.
  destruct (receive errC st) as [[] ?]; exact H.
Qed.

Lemma recv_versionC_files (st : State) : files (recv_versionC st).2 = files st.
Proof.
  unfold recv_versionC, bind, ret. pose proof (receive_files versionC st) as H.
  destruct (receive versionC st) as [[] ?]; exact H.
Qed.

(** The exclusive open leaves a file that is there as it is, and the file
    that it opens is another one. *)
Lemma OpenFile_excl_kept (env : Env) (outputPath path content : string) (st : State) :
  files st !! path = Some content ->
  files (OpenFile_excl env outputPath st).2 !! path = Some content
  /\ forall f, (OpenFile_excl env outputPath st).1 = Ok f -> f <> File path.
Proof.
  intros Hfile. unfold OpenFile_excl.
  destruct (files st !! outputPath) eqn:E; [split; [exact Hfile | discriminate]|].
  destruct (createFile env outputPath); [split; [exact Hfile | discriminate]|].
  assert (outputPath <> path) by congruence.
  cbn. split; [now rewrite lookup_insert_ne | congruence].
Qed.

Lemma writeChunks_kept (env : Env) (output : file) (cs : list string) (path : string)
    (st : State) :
  output <> File path ->
  files (writeChunks env output cs st).2 !! path = files st !! path.
Proof.
  intros Hout. revert st. induction cs as [|c cs IH]; intros st; [reflexivity|].
  cbn [writeChunks]. unfold Write.
  assert (Happ : forall bytes st0,
            files (append_to output bytes st0) !! path = files st0 !! path).
  { intros bytes st0. destruct output as [|p]; [reflexivity|]. cbn.
    apply lookup_insert_ne. congruence. }
  destruct (writeFails env (writes st)) as [[n e]|]; cbn [snd].
  - now rewrite Happ.
  - now rewrite IH, Happ.
Qed.

Lemma gather_keeps_files (env : Env) (st : State) (path content : string) :
  files st !! path = Some content ->
  wp (gather env)
     (fun r st' => files st' !! path = Some content
                   /\ forall out d, r = Ok (out, d) -> out <> File path) st.
Proof.
  intros Hfile.
  unfold gather.
  destruct (openTTY env) as [e|]. { apply wp_fail. split; [exact Hfile | discriminate]. }
  apply wp_bind, (wp_keeps files); [apply parseArgs_files|].
  intros r st1 H1. rewrite <- H1 in Hfile.
  destruct r as [[args outputPath]| | | |]; try (split; [exact Hfile | discriminate]).
  apply wp_bind. unfold wp at 1.
  assert (Hopen : files ((if bool_decide (outputPath = "-") then ret Stdout
                          else OpenFile_excl env outputPath) st1).2 !! path = Some content
                  /\ forall f, ((if bool_decide (outputPath = "-") then ret Stdout
                                 else OpenFile_excl env outputPath) st1).1 = Ok f ->
                               f <> File path).
  { destruct (bool_decide (outputPath = "-")).
    - split; [exact Hfile|]. intros f [= <-]. discriminate.
    - now apply OpenFile_excl_kept. }
  destruct ((if bool_decide (outputPath = "-") then ret Stdout
             else OpenFile_excl env outputPath) st1) as [r st2].
  cbn [fst snd] in *. destruct Hopen as [H2 Hout].
  destruct r as [output| | | |]; try (split; [exact H2 | discriminate]).
  specialize (Hout _ eq_refl). clear Hfile H1 st1.
  destruct (length (Args env) <? 2)%nat.
  { apply wp_fail. split; [exact H2 | discriminate]. }
  apply wp_bind.
  destruct args as [|importPath args].
  { apply wp_panic. split; [exact H2 | discriminate]. }
  apply wp_ret, wp_modify, wp_bind.
  destruct (RepoRootForImportPath env importPath) as [e|repoRoot].
  { apply wp_fail. split; [exact H2 | discriminate]. }
  apply wp_ret.
  destruct (negb (bool_decide (Name (VCS repoRoot) = "Git"))).
  { apply wp_fail. split; [exact H2 | discriminate]. }
  apply wp_bind. unfold wp at 1. rewrite go_getVersion_spec. cbn [fst snd].
  match goal with |- wp _ _ ?s => remember s as st3 eqn:E3 end.
  assert (H3 : files st3 !! path = Some content) by now subst st3.
  clear E3 H2 st2.
  apply wp_bind, (wp_keeps files); [apply prompt_files|].
  intros r st4 H4. rewrite <- H4 in H3. clear H4 st3.
  destruct r as [pkgName| | | |]; try (split; [exact H3 | discriminate]).
  apply wp_bind, (wp_keeps files); [apply prompt_files|].
  intros r st5 H5. rewrite <- H5 in H3. clear H5 st4.
  destruct r as [dependsList| | | |]; try (split; [exact H3 | discriminate]).
  apply wp_bind, (wp_keeps files); [apply relPath_files|].
  intros r st6 H6. rewrite <- H6 in H3. clear H6 st5.
  destruct r as [rel| | | |]; try (split; [exact H3 | discriminate]).
  apply wp_bind, (wp_keeps files); [apply prompt_files|].
  intros r st7 H7. rewrite <- H7 in H3. clear H7 st6.
  destruct r as [binName| | | |]; try (split; [exact H3 | discriminate]).
  apply wp_bind, (wp_keeps files); [reflexivity|].
  intros r st8 H8. rewrite <- H8 in H3. clear H8 st7.
  destruct r as [[]| | | |]; try (split; [exact H3 | discriminate]).
  apply wp_bind, (wp_keeps files); [apply recv_errC_files|].
  intros r st9 H9. rewrite <- H9 in H3. clear H9 st8.
  destruct r as [[err|]| | | |]; try (split; [exact H3 | discriminate]).
  apply wp_bind, (wp_keeps files); [apply recv_versionC_files|].
  intros r st10 H10. rewrite <- H10 in H3. clear H10 st9.
  destruct r as [version| | | |]; try (split; [exact H3 | discriminate]).
  apply wp_bind, (wp_keeps files); [intros st0; destruct output; reflexivity|].
  intros r st11 H11. rewrite <- H11 in H3. clear H11 st10.
  destruct r as [[]| | | |]; try (split; [exact H3 | discriminate]).
  apply wp_bind, (wp_keeps files); [reflexivity|].
  intros r st12 H12. rewrite <- H12 in H3. clear H12 st11.
  destruct r as [[]| | | |]; try (split; [exact H3 | discriminate]).
  apply wp_ret. split; [exact H3|]. intros out d [= <- _]. exact Hout.
Qed.

(** No run changes a file that is there when it starts. *)
Lemma run_keeps_files (env : Env) (st : State) (path content : string) :
  files st !! path = Some content ->
  files (run env st).2 !! path = Some content.
Proof.
  intros Hfile. pose proof (gather_keeps_files env st path content Hfile) as Hwp.
  unfold wp in Hwp. unfold run, bind.
  destruct (gather env st) as [[[out d]| | | |] st1]; cbn [fst snd] in *;
    destruct Hwp as [H1 Hout]; try exact H1.
  unfold ret, Execute. cbn [fst snd].
  rewrite writeChunks_kept; [exact H1 | now apply (Hout out d)].
Qed.

(** C4.  A file that is there when the run starts has the same contents
    when the run is over, whatever the run does.  When the terminal opens and
    the output path of the command line, other than [-], names such a file,
    [run] returns the error of the exclusive open ("open PATH: file exists")
    with the state as it was, and the process exits with status 1 after
    printing it. *)
Theorem existing_output_refused (env : Env) (st : State) (path content : string) :
  files st !! path = Some content ->
  files (run env st).2 !! path = Some content
  /\ forall args,
       openTTY env = None ->
       (parseArgs env st).1 = Ok (args, path) ->
       path <> "-" ->
       run env st = (Err (PathError "open" path "file exists"), st)
       /\ main env st =
            (1%Z, Fprintln_stderr ("open " +:+ path +:+ ": file exists") st).
Proof.
  intros Hfile. split; [now apply run_keeps_files|].
  intros args Htty Hparse Hout.
  destruct (open_existing env st args path content Htty Hparse Hout Hfile) as (H & _ & H').
  auto.
Qed.

Lemma existing_output_refused_witness :
  let env := golint ["github.com/golang/lint/golint"] in
  let st := answers [""; ""; ""] {["PKGBUILD" := "pkgname=old"]} in
  files (run env st).2 !! "PKGBUILD" = Some "pkgname=old"
  /\ forall args,
       openTTY env = None ->
       (parseArgs env st).1 = Ok (args, "PKGBUILD") ->
       "PKGBUILD" <> "-" ->
       run env st = (Err (PathError "open" "PKGBUILD" "file exists"), st)
       /\ main env st = (1%Z, Fprintln_stderr "open PKGBUILD: file exists" st).
Proof.
  apply (existing_output_refused (golint ["github.com/golang/lint/golint"])
           (answers [""; ""; ""] {["PKGBUILD" := "pkgname=old"]})
           "PKGBUILD" "pkgname=old").
  vm_compute. reflexivity.
Defined.

(** With [PKGBUILD] in the way, the run of the README gets to the open and
    is refused there. *)
Lemma existing_PKGBUILD_refused :
  let env := golint ["github.com/golang/lint/golint"] in
  let st := answers [""; ""; ""] {["PKGBUILD" := "pkgname=old"]} in
  main env st = (1%Z, Fprintln_stderr "open PKGBUILD: file exists" st).
Proof. vm_compute. reflexivity. Qed.

(** ** The bounded loops run to their end *)

(** [Parse] hands back no more arguments than it was given. *)
Lemma Parse_rest (n : nat) (output : string) (arguments : list string)
    (output' : string) (rest : list string) :
  (length arguments <= n)%nat ->
  Flag.Parse usage output arguments = Flag.Parsed output' rest ->
  (length rest <= length arguments)%nat.
Proof.
  revert output arguments. induction n as [|n IH]; intros output arguments Hn.
  - destruct arguments; [|cbn in Hn; lia]. intros [= _ <-]. cbn. lia.
  - destruct arguments as [|s arguments]; [intros [= _ <-]; cbn; lia|].
    cbn [length] in Hn. cbn [Flag.Parse].
    repeat case_match; try discriminate; subst;
      try (intros [= _ <-]; cbn; lia);
      intros H; apply IH in H; cbn [length] in *; lia.
Qed.

Lemma positionals_total (fuel : nat) (output : string) (rest args : list string) :
  (length rest <= fuel)%nat ->
  Flag.positionals usage fuel output rest args <> None.
Proof.
  revert output rest args. induction fuel as [|fuel IH]; intros output rest args Hfuel.
  - destruct rest; [discriminate | cbn in Hfuel; lia].
  - destruct rest as [|a rest]; [discriminate|]. cbn [Flag.positionals].
    destruct (Flag.Parse usage output rest) as [output' rest'|code err] eqn:E;
      [|discriminate].
    apply IH. apply (Parse_rest (length rest)) in E; [|lia]. cbn [length] in Hfuel. lia.
Qed.

(** The closure that reads the command line returns, panics or exits. *)
Lemma parseArgs_total (env : Env) (st : State) : (parseArgs env st).1 <> Deadlock.
Proof.
  unfold parseArgs, panic, ret.
  destruct (Args env) as [|prog arguments]; [discriminate|].
  destruct (Flag.Parse usage "PKGBUILD" arguments) as [output rest|]; [|discriminate].
  pose proof (positionals_total (length rest) output rest [] (Nat.le_refl _)) as Hsome.
  destruct (Flag.positionals usage (length rest) output rest []) as [[args [o r|c e]]|];
    [|discriminate|contradiction].
  destruct (Flag.Parse usage o arguments); discriminate.
Qed.

Lemma len_afterElem (s : string) : (len (afterElem s) <= len s)%nat.
Proof.
  induction s as [|c s IH]; cbn [afterElem len]; [lia|].
  destruct (isSlash c); cbn [len]; lia.
Qed.

Lemma len_skip (c : ascii) (s : string) :
  (len (skipSlash (afterElem (String c s))) < len (String c s))%nat.
Proof.
  pose proof (len_afterElem (String c s)) as H.
  destruct (afterElem (String c s)) as [|x a]; cbn [skipSlash len] in *; lia.
Qed.

(** [len base] turns are enough for the loop of [Rel]. *)
Lemma relLoop_total (fuel : nat) (b t : string) :
  (len b <= fuel)%nat -> relLoop fuel b t <> None.
Proof.
  revert b t. induction fuel as [|fuel IH]; intros b t Hfuel.
  - destruct b; [destruct t; discriminate | cbn in Hfuel; lia].
  - destruct b as [|c b]; [destruct t; discriminate|].
    destruct t as [|c' t]; [discriminate|].
    cbn [relLoop]. case_decide; [|discriminate].
    apply IH. pose proof (len_skip c b). lia.
Qed.

(** * Whole runs *)

(** ** Steps whose outcome is known *)

Lemma bind_Ok {A B} (m : M A) (k : A -> M B) (st st' : State) (a : A) :
  m st = (Ok a, st') -> bind m k st = k a st'.
Proof. unfold bind. now intros ->. Qed.

Lemma bind_Err {A B} (m : M A) (k : A -> M B) (st st' : State) (e : error) :
  m st = (Err e, st') -> bind m k st = (Err e, st').
Proof. unfold bind. now intros ->. Qed.

Lemma prompt_line (p dflt text : string) (rest : list string) (st : State) :
  tokens (scn st) = text :: rest ->
  prompt p dflt st =
    (Ok (answer text dflt),
     set_scn {| tokens := rest; scanErr := scanErr (scn st) |}
       (set_w (w st +:+ question p dflt) st)).
Proof. intros H. rewrite prompt_eq. cbn zeta. now rewrite H. Qed.

Lemma prompt_end (p dflt : string) (st : State) :
  tokens (scn st) = [] ->
  prompt p dflt st =
    (Err (match scanErr (scn st) with
          | Some err => Errorf_w "input error: " err
          | None => errorString "interrupted"
          end),
     set_w (w st +:+ question p dflt) st).
Proof. intros H. rewrite prompt_eq. cbn zeta. now rewrite H. Qed.

Lemma receive_sent (s : send) (steps : list bgStep) (st : State) :
  goroutine st = BgSend s :: steps ->
  receive (chanOf s) st =
    (Ok s, set_handoffs (handoffs st ++ [chanOf s])
             (set_goroutine steps (set_stderr (stderr st) st))).
Proof. intros H. unfold receive. rewrite H. now destruct s. Qed.

Lemma recv_errC_sent (err : option error) (steps : list bgStep) (st : State) :
  goroutine st = BgSend (SendErr err) :: steps ->
  recv_errC st =
    (Ok err, set_handoffs (handoffs st ++ [errC])
               (set_goroutine steps (set_stderr (stderr st) st))).
Proof.
  intros H. unfold recv_errC.
  now rewrite (bind_Ok _ _ _ _ _ (receive_sent (SendErr err) _ _ H)).
Qed.

Lemma recv_errC_complained (bytes : string) (err : option error) (steps : list bgStep)
    (st : State) :
  goroutine st = BgStderr bytes :: BgSend (SendErr err) :: steps ->
  recv_errC st =
    (Ok err, set_handoffs (handoffs st ++ [errC])
               (set_goroutine steps (set_stderr (stderr st +:+ bytes) st))).
Proof. intros H. unfold recv_errC, receive, bind, ret. now rewrite H. Qed.

Lemma recv_versionC_sent (v : string) (steps : list bgStep) (st : State) :
  goroutine st = BgSend (SendVersion v) :: steps ->
  recv_versionC st =
    (Ok v, set_handoffs (handoffs st ++ [versionC])
             (set_goroutine steps (set_stderr (stderr st) st))).
Proof.
  intros H. unfold recv_versionC.
  now rewrite (bind_Ok _ _ _ _ _ (receive_sent (SendVersion v) _ _ H)).
Qed.

(** The record behind a state that setters have built. *)
Ltac tidy :=
  unfold set_scn, set_w, set_files, set_stdout, set_stderr, set_goroutine, set_handoffs,
    set_writes;
  cbn [scn w files stdout stderr goroutine handoffs writes tokens scanErr].

(** One step of [run] whose outcome is known. *)
Ltac ask :=
  match goal with
  | |- context [bind (prompt ?p ?d) ?k ?s] =>
    rewrite (bind_Ok (prompt p d) k s _ _ (prompt_line p d _ _ s eq_refl)); tidy
  end.

Ltac wait :=
  match goal with
  | |- context [bind (Fprint_w ?x) ?k ?s] =>
    rewrite (bind_Ok (Fprint_w x) k s _ _ eq_refl); tidy
  end.

Ltac join_errC :=
  match goal with
  | |- context [bind recv_errC ?k ?s] =>
    first [ rewrite (bind_Ok recv_errC k s _ _ (recv_errC_sent _ _ s eq_refl))
          | rewrite (bind_Ok recv_errC k s _ _ (recv_errC_complained _ _ _ s eq_refl)) ];
    tidy
  end.

Ltac join_versionC :=
  match goal with
  | |- context [bind recv_versionC ?k ?s] =>
    rewrite (bind_Ok recv_versionC k s _ _ (recv_versionC_sent _ _ s eq_refl)); tidy
  end.

Lemma Base_nonempty (path : string) : Base path <> "".
Proof. unfold Base. repeat case_decide; congruence. Qed.

Lemma append_nonempty (a b : string) : b <> "" -> a +:+ b <> "".
Proof. destruct a; [auto | discriminate]. Qed.

(** An error chain in which [errors.As] finds an [*exec.ExitError] has no
    [IncorrectUsageError] that [errors.As] could find. *)
Lemma As_ExitError_usage (e : error) (bytes : string) :
  As_ExitError e = Some bytes -> As_IncorrectUsageError e = false.
Proof. induction e; simpl; try discriminate; auto. Qed.

Lemma resolved_frame (env : Env) (importPath outputPath : string) (st : State) :
  scn (resolved env importPath outputPath st) = scn st
  /\ w (resolved env importPath outputPath st) = w st
  /\ stdout (resolved env importPath outputPath st) = stdout st
  /\ stderr (resolved env importPath outputPath st)
     = stderr st +:+ verboseLog env importPath
  /\ handoffs (resolved env importPath outputPath st) = handoffs st
  /\ writes (resolved env importPath outputPath st) = writes st
  /\ files (resolved env importPath outputPath st) = files (opened outputPath st).
Proof. unfold resolved, opened. case_bool_decide; repeat split. Qed.

(** [run] returns the error of its first part. *)
Lemma run_Err (env : Env) (st st' : State) (e : error) :
  gather env st = (Err e, st') -> run env st = (Err e, st').
Proof. intros H. unfold run. now rewrite (bind_Err _ _ _ _ _ H). Qed.

Lemma run_result (env : Env) (st : State) :
  (run env st).1 = match (gather env st).1 with
                   | Ok _ => Ok tt
                   | Err e => Err e
                   | Panic msg => Panic msg
                   | Exit code => Exit code
                   | Deadlock => Deadlock
                   end.
Proof. unfold run, bind. now destruct (gather env st) as [[call| | | |] st1]. Qed.

(** A hypothesis on a run that is given: it holds by evaluation. *)
Ltac evaluated :=
  first [ reflexivity
        | left; reflexivity
        | right; split; reflexivity
        | vm_compute; reflexivity
        | cbn; lia ].

(** ** What a template execution leaves *)

Lemma take_prefix (n : nat) (s : string) : exists suf, s = take n s +:+ suf.
Proof.
  revert n. induction s as [|c s IH]; intros [|n]; simpl; eauto.
  destruct (IH n) as [suf Hs]. exists suf. now rewrite <- Hs.
Qed.

(** The terminal is not written to, nor read. *)
Lemma writeChunks_terminal (env : Env) (output : file) (cs : list string) (st : State) :
  scn (writeChunks env output cs st).2 = scn st
  /\ w (writeChunks env output cs st).2 = w st.
Proof.
  revert st. induction cs as [|c cs IH]; intros st; simpl; [auto|].
  unfold Write. destruct (writeFails env (writes st)) as [[n e]|]; simpl.
  - now destruct output.
  - destruct (IH (append_to output c (set_writes (S (writes st)) st))) as (-> & ->).
    now destruct output.
Qed.

(** Standard output gets a prefix of the chunks, all of them when no
    [Write] fails. *)
Lemma writeChunks_prints (env : Env) (cs : list string) (st : State) :
  exists pre suf,
    concat cs = pre +:+ suf
    /\ ((forall n, writeFails env n = None) -> suf = "")
    /\ stdout (writeChunks env Stdout cs st).2 = stdout st +:+ pre
    /\ files (writeChunks env Stdout cs st).2 = files st.
Proof.
  revert st. induction cs as [|c cs IH]; intros st.
  - exists "", "". simpl. now rewrite app_nil_r.
  - cbn [writeChunks]. unfold Write.
    destruct (writeFails env (writes st)) as [[n e]|] eqn:Hfail; cbn [fst snd].
    + destruct (take_prefix n c) as [suf Hc].
      exists (take n c), (suf +:+ concat cs). repeat split.
      * unfold concat. cbn [foldr]. fold (concat cs). now rewrite Hc at 1; rewrite app_assoc.
      * intros Hok. now rewrite Hok in Hfail.
    + destruct (IH (append_to Stdout c (set_writes (S (writes st)) st)))
        as (pre & suf & Hcs & Hall & Hout & Hfiles).
      exists (c +:+ pre), suf. repeat split.
      * unfold concat. cbn [foldr]. fold (concat cs). now rewrite Hcs, app_assoc.
      * exact Hall.
      * rewrite Hout. simpl. now rewrite app_assoc.
      * now rewrite Hfiles.
Qed.

(** So does a file that is there. *)
Lemma writeChunks_appends (env : Env) (path held : string) (cs : list string)
    (st : State) :
  files st !! path = Some held ->
  exists pre suf,
    concat cs = pre +:+ suf
    /\ ((forall n, writeFails env n = None) -> suf = "")
    /\ files (writeChunks env (File path) cs st).2 = <[path := held +:+ pre]> (files st)
    /\ stdout (writeChunks env (File path) cs st).2 = stdout st.
Proof.
  revert st held. induction cs as [|c cs IH]; intros st held Hheld.
  - exists "", "". simpl. rewrite app_nil_r. repeat split. now rewrite insert_id.
  - cbn [writeChunks]. unfold Write.
    destruct (writeFails env (writes st)) as [[n e]|] eqn:Hfail; cbn [fst snd].
    + destruct (take_prefix n c) as [suf Hc].
      exists (take n c), (suf +:+ concat cs). repeat split.
      * unfold concat. cbn [foldr]. fold (concat cs). now rewrite Hc at 1; rewrite app_assoc.
      * intros Hok. now rewrite Hok in Hfail.
      * simpl. now rewrite Hheld.
    + destruct (IH (append_to (File path) c (set_writes (S (writes st)) st)) (held +:+ c))
        as (pre & suf & Hcs & Hall & Hfiles & Hout).
      { simpl. now rewrite Hheld, lookup_insert_eq. }
      exists (c +:+ pre), suf. repeat split.
      * unfold concat. cbn [foldr]. fold (concat cs). now rewrite Hcs, app_assoc.
      * exact Hall.
      * rewrite Hfiles. simpl. now rewrite Hheld, insert_insert_eq, app_assoc.
      * now rewrite Hout.
Qed.

Lemma writeChunks_File_stdout (env : Env) (path : string) (cs : list string) (st : State) :
  stdout (writeChunks env (File path) cs st).2 = stdout st.
Proof.
  revert st. induction cs as [|c cs IH]; intros st; [reflexivity|].
  cbn [writeChunks]. unfold Write.
  destruct (writeFails env (writes st)) as [[n e]|]; cbn [snd]; [reflexivity|].
  now rewrite IH.
Qed.

(** ** Runs that get to the questions *)

(** Rendering leaves the goroutine and the handoffs as they are. *)
Lemma run_background (env : Env) (st : State) :
  background (run env st).2 = background (gather env st).2.
Proof.
  unfold run, bind. destruct (gather env st) as [[call| | | |] st1]; try reflexivity.
  cbn [fst snd ret]. unfold background, Execute.
  destruct (writeChunks_stderr env call.1 (chunks call.2) st1) as (_ & -> & ->).
  reflexivity.
Qed.

(** The terminal opens, the command line gives an import path, the
    destination is standard output or a file that can be created, and the
    import path resolves to a Git repository: [run] starts the goroutine and
    asks its questions. *)
Section Forked.

Variables (env : Env) (st : State).
Variables (importPath outputPath : string) (args : list string) (repoRoot : RepoRoot).

Hypothesis Htty : openTTY env = None.
Hypothesis Hparse : (parseArgs env st).1 = Ok (importPath :: args, outputPath).
Hypothesis Hdest :
  outputPath = "-" \/ (files st !! outputPath = None /\ createFile env outputPath = None).
Hypothesis Hresolve : RepoRootForImportPath env importPath = inr repoRoot.
Hypothesis Hgit : Name (VCS repoRoot) = "Git".

Lemma open_destination :
  (if bool_decide (outputPath = "-") then ret Stdout else OpenFile_excl env outputPath) st
  = (Ok (destination outputPath), opened outputPath st).
Proof.
  unfold destination, opened. case_bool_decide as Hd; [reflexivity|].
  destruct Hdest as [?|[Hnone Hcreate]]; [contradiction|].
  unfold OpenFile_excl. now rewrite Hnone, Hcreate.
Qed.

(** [run] from its start to the questions. *)
Ltac to_fork :=
  let Hp := fresh "Hp" in
  let Hlen := fresh "Hlen" in
  pose proof (parseArgs_fst _ _ _ Hparse) as Hp;
  pose proof (parseArgs_positional _ _ _ _ _ _ Hp) as Hlen;
  apply Nat.ltb_ge in Hlen;
  unfold gather; rewrite Htty, (bind_Ok _ _ _ _ _ Hp), (bind_Ok _ _ _ _ _ open_destination),
    Hlen;
  rewrite (bind_Ok (ret importPath) _ _ _ _ eq_refl);
  rewrite (bind_Ok (modify _) _ _ _ _ eq_refl), Hresolve;
  rewrite (bind_Ok (ret repoRoot) _ _ _ _ eq_refl), (bool_decide_eq_true_2 _ Hgit);
  cbn [negb];
  rewrite (bind_Ok _ _ _ _ _ (go_getVersion_spec _ _ _));
  fold (resolved env importPath outputPath st).

Lemma gather_succeeds (t1 t2 t3 : string) (rest : list string) (dir out rel : string) :
  tokens (scn st) = t1 :: t2 :: t3 :: rest ->
  TempDir env = inr dir ->
  Create env (VCS repoRoot) dir (RepoURL repoRoot) = None ->
  Output env dir = inr out ->
  Rel (RootPath repoRoot) importPath = inr rel ->
  gather env st =
    (Ok (destination outputPath, dataOf repoRoot importPath t1 t2 t3 out rel),
     {| scn := {| tokens := rest; scanErr := scanErr (scn st) |};
        w := w st +:+ questions (RootPath repoRoot) importPath +:+ "Please wait..."
             +:+ separator (destination outputPath) +:+ nl;
        files := files (opened outputPath st);
        stdout := stdout st;
        stderr := stderr st +:+ verboseLog env importPath
                  +:+ CreateStderr env (VCS repoRoot) dir (RepoURL repoRoot);
        goroutine := [];
        handoffs := handoffs st ++ [errC; versionC];
        writes := writes st |}).
Proof.
  intros Hlines Hdir Hclone Hout Hrel. to_fork.
  assert (Hv : getVersion env repoRoot =
               ([BgStderr (CreateStderr env (VCS repoRoot) dir (RepoURL repoRoot))],
                (TrimSpace out, None))).
  { unfold getVersion. now rewrite Hdir, Hclone, Hout. }
  rewrite Hv. cbn [fst snd app].
  destruct (resolved_frame env importPath outputPath st)
    as (Hs & Hw & Hso & Hse & Hh & Hwr & Hf).
  remember (resolved env importPath outputPath st) as st0 eqn:E0. clear E0.
  rewrite <- Hs in Hlines.
  rewrite (bind_Ok _ _ _ _ _ (prompt_line _ _ _ _ (set_goroutine _ st0) Hlines)). tidy.
  ask. unfold relPath at 1. rewrite Hrel.
  rewrite (bind_Ok (bind (ret rel) _) _ _ _ _ eq_refl).
  ask. wait. join_errC. join_versionC.
  rewrite Hs, Hw, Hso, Hse, Hh, Hwr, Hf, answer_no_default.
  unfold dataOf, questions, separator.
  destruct (destination outputPath); unfold bind, Fprintln_w, Fprint_w, modify, ret; tidy;
    rewrite !app_assoc, <- List.app_assoc; reflexivity.
Qed.

(** X1.  When everything outside the process works (the terminal opens and
    gives three lines, the destination is standard output or a file that can
    be created, the import path resolves to a Git repository, the clone and
    the version command succeed, every [Write] succeeds), [run] returns [nil]
    and the process exits with status 0.  The program writes nothing to
    standard error itself: after what was there, standard error has what the
    two library calls have written, the log of the resolver, which is called
    verbose, and what [VCS.Create] wrote.  The destination holds the recipe of
    the data gathered: a file holds the recipe and nothing else, standard
    output has it after what was there.  No other file is touched. *)
Theorem recipe_written (t1 t2 t3 : string) (rest : list string) (dir out rel : string) :
  tokens (scn st) = t1 :: t2 :: t3 :: rest ->
  TempDir env = inr dir ->
  Create env (VCS repoRoot) dir (RepoURL repoRoot) = None ->
  Output env dir = inr out ->
  Rel (RootPath repoRoot) importPath = inr rel ->
  (forall n, writeFails env n = None) ->
  (run env st).1 = Ok tt
  /\ (main env st).1 = 0%Z
  /\ stderr (main env st).2
     = stderr st +:+ verboseLog env importPath
       +:+ CreateStderr env (VCS repoRoot) dir (RepoURL repoRoot)
  /\ match destination outputPath with
     | Stdout =>
       stdout (main env st).2
         = stdout st +:+ rendered (dataOf repoRoot importPath t1 t2 t3 out rel)
       /\ files (main env st).2 = files st
     | File path =>
       files (main env st).2
         = <[path := rendered (dataOf repoRoot importPath t1 t2 t3 out rel)]> (files st)
       /\ stdout (main env st).2 = stdout st
     end.
Proof.
  intros Hlines Hdir Hclone Hout Hrel Hok.
  pose proof (gather_succeeds _ _ _ _ _ _ _ Hlines Hdir Hclone Hout Hrel) as Hgather.
  unfold main, run. rewrite (bind_Ok _ _ _ _ _ Hgather).
  unfold bind, ret, Execute. cbn [fst snd].
  split; [reflexivity|]. split; [reflexivity|].
  split; [now rewrite (proj1 (writeChunks_stderr _ _ _ _))|].
  unfold destination, opened, rendered. case_bool_decide as Hdash.
  - match goal with |- context [writeChunks env Stdout ?cs ?s] =>
      destruct (writeChunks_prints env cs s) as (pre & suf & -> & Hall & -> & ->)
    end.
    rewrite (Hall Hok), app_nil_r. split; reflexivity.
  - match goal with |- context [writeChunks env (File _) ?cs ?s] =>
      destruct (writeChunks_appends env outputPath "" cs s)
        as (pre & suf & -> & Hall & -> & ->)
    end.
    { cbn. apply lookup_insert_eq. }
    rewrite (Hall Hok), app_nil_r. cbn. now rewrite insert_insert_eq.
Qed.

(** X2.  In such a run (whatever the [Write] calls do) the terminal shows
    the three questions in their order, each with its default between
    parentheses when it has one, then [Please wait...], then a line of equals
    signs when the recipe goes to standard output, then a line break; the run
    reads three lines from the terminal and no more. *)
Theorem questions_asked (t1 t2 t3 : string) (rest : list string) (dir out rel : string) :
  tokens (scn st) = t1 :: t2 :: t3 :: rest ->
  TempDir env = inr dir ->
  Create env (VCS repoRoot) dir (RepoURL repoRoot) = None ->
  Output env dir = inr out ->
  Rel (RootPath repoRoot) importPath = inr rel ->
  w (run env st).2 =
    w st
    +:+ "Package Name: (" +:+ Base (RootPath repoRoot) +:+ "-git) "
    +:+ "Dependent Packages(split by space): "
    +:+ "Binary name to be installed: (" +:+ Base importPath +:+ ") "
    +:+ "Please wait..."
    +:+ separator (destination outputPath) +:+ nl
  /\ tokens (scn (run env st).2) = rest.
Proof.
  intros Hlines Hdir Hclone Hout Hrel.
  pose proof (gather_succeeds _ _ _ _ _ _ _ Hlines Hdir Hclone Hout Hrel) as Hgather.
  unfold run. rewrite (bind_Ok _ _ _ _ _ Hgather).
  unfold bind, ret, Execute. cbn [fst snd].
  match goal with |- context [writeChunks env ?o ?cs ?s] =>
    destruct (writeChunks_terminal env o cs s) as [-> ->]
  end.
  split; [|reflexivity]. cbn [w]. unfold questions, question.
  rewrite (bool_decide_eq_false_2 _ (Base_nonempty importPath)).
  rewrite bool_decide_eq_false_2 by (apply append_nonempty; discriminate).
  rewrite bool_decide_eq_true_2 by reflexivity.
  now rewrite !app_assoc.
Qed.

(** X3.  A fetch that fails (no temporary directory, a clone that fails, a
    version command that fails) is reported when the three questions have
    been asked and answered: [run] returns its error after [Please wait...],
    with three lines read, nothing sent to the destination, and the file of
    the destination, when it has one, created and empty. *)
Theorem fetch_failure_reported_late (t1 t2 t3 : string) (rest : list string)
    (rel : string) (err : error) :
  tokens (scn st) = t1 :: t2 :: t3 :: rest ->
  Rel (RootPath repoRoot) importPath = inr rel ->
  (getVersion env repoRoot).2.2 = Some err ->
  (run env st).1 = Err err
  /\ (main env st).1 = 1%Z
  /\ w (run env st).2
      = w st +:+ questions (RootPath repoRoot) importPath +:+ "Please wait..."
  /\ tokens (scn (run env st).2) = rest
  /\ files (run env st).2 = files (opened outputPath st)
  /\ stdout (run env st).2 = stdout st
  /\ ((exists e, TempDir env = inl e /\ err = Errorf_w "could not secure a temp dir: " e)
      \/ (exists dir e,
            TempDir env = inr dir
            /\ Create env (VCS repoRoot) dir (RepoURL repoRoot) = Some e
            /\ err = Errorf_w "could not clone the repo: " e)
      \/ (exists dir,
            TempDir env = inr dir
            /\ Create env (VCS repoRoot) dir (RepoURL repoRoot) = None
            /\ Output env dir = inl err)).
Proof.
  intros Hlines Hrel Hfetch.
  assert (Hrun : exists st',
            gather env st = (Err err, st')
            /\ w st' = w st +:+ questions (RootPath repoRoot) importPath +:+ "Please wait..."
            /\ tokens (scn st') = rest
            /\ files st' = files (opened outputPath st)
            /\ stdout st' = stdout st).
  { to_fork.
    destruct (resolved_frame env importPath outputPath st)
      as (Hs & Hw & Hso & _ & _ & _ & Hf).
    remember (resolved env importPath outputPath st) as st0 eqn:E0. clear E0.
    rewrite <- Hs in Hlines. rewrite <- Hw, <- Hso, <- Hf.
    rewrite (bind_Ok _ _ _ _ _ (prompt_line _ _ _ _ (set_goroutine _ st0) Hlines)). tidy.
    ask. unfold relPath at 1. rewrite Hrel.
    rewrite (bind_Ok (bind (ret rel) _) _ _ _ _ eq_refl).
    ask. wait.
    match goal with |- context [bind recv_errC ?k ?s] =>
      destruct (recv_errC_started _ _ _ s (getVersion_steps env repoRoot) eq_refl)
        as (st' & Hrecv & _ & _ & Hs' & Hw' & Hf' & Hso' & _);
      rewrite (bind_Ok _ _ _ _ _ Hrecv)
    end.
    rewrite Hfetch. exists st'. split; [reflexivity|].
    rewrite Hs', Hw', Hf', Hso'. cbn [w scn tokens files stdout].
    unfold questions. rewrite !app_assoc. repeat split. }
  destruct Hrun as (st' & Hrun & Hw & Hscn & Hfiles & Hstdout).
  apply run_Err in Hrun.
  unfold main. rewrite Hrun. cbn [fst snd]. repeat split; try assumption.
  revert Hfetch. unfold getVersion.
  destruct (TempDir env) as [e|dir]; cbn [fst snd].
  { intros [= <-]. left. eauto. }
  destruct (Create env (VCS repoRoot) dir (RepoURL repoRoot)) as [e|] eqn:Hclone;
    cbn [fst snd].
  { intros [= <-]. right. left. eauto. }
  destruct (Output env dir) as [e|version] eqn:Hout; cbn [fst snd]; [|discriminate].
  intros [= <-]. right. right. eauto.
Qed.

(** X4.  When the version command fails, [run] returns its error as it is,
    without a prefix.  When that error is an [*exec.ExitError], what the
    command wrote to its standard error is copied to the standard error of the
    process, where the message of the error follows it; otherwise nothing is
    copied.  The copy stands after what the two library calls have written
    there before it: the log of the resolver, which is called verbose, and
    what [VCS.Create] wrote. *)
Theorem version_command_stderr (t1 t2 t3 : string) (rest : list string)
    (dir rel : string) (e : error) :
  tokens (scn st) = t1 :: t2 :: t3 :: rest ->
  Rel (RootPath repoRoot) importPath = inr rel ->
  TempDir env = inr dir ->
  Create env (VCS repoRoot) dir (RepoURL repoRoot) = None ->
  Output env dir = inl e ->
  (run env st).1 = Err e
  /\ stderr (run env st).2
      = stderr st +:+ verboseLog env importPath
        +:+ CreateStderr env (VCS repoRoot) dir (RepoURL repoRoot)
        +:+ match As_ExitError e with Some bytes => bytes | None => "" end
  /\ forall bytes,
       As_ExitError e = Some bytes ->
       stderr (main env st).2
       = stderr st +:+ verboseLog env importPath
         +:+ CreateStderr env (VCS repoRoot) dir (RepoURL repoRoot)
         +:+ bytes +:+ Error e +:+ nl.
Proof.
  intros Hlines Hrel Hdir Hclone Hout.
  assert (Hv : getVersion env repoRoot =
               (BgStderr (CreateStderr env (VCS repoRoot) dir (RepoURL repoRoot))
                  :: match As_ExitError e with Some bytes => [BgStderr bytes] | None => [] end,
                ("", Some e))).
  { unfold getVersion. now rewrite Hdir, Hclone, Hout. }
  assert (Hrun : exists st',
            gather env st = (Err e, st')
            /\ stderr st' = stderr st +:+ verboseLog env importPath
                 +:+ CreateStderr env (VCS repoRoot) dir (RepoURL repoRoot)
                 +:+ match As_ExitError e with Some bytes => bytes | None => "" end).
  { to_fork.
    destruct (resolved_frame env importPath outputPath st) as (Hs & _ & _ & Hse & _).
    remember (resolved env importPath outputPath st) as st0 eqn:E0. clear E0.
    rewrite <- Hs in Hlines.
    rewrite (bind_Ok _ _ _ _ _ (prompt_line _ _ _ _ (set_goroutine _ st0) Hlines)). tidy.
    ask. unfold relPath at 1. rewrite Hrel.
    rewrite (bind_Ok (bind (ret rel) _) _ _ _ _ eq_refl).
    ask. wait.
    match goal with |- context [bind recv_errC ?k ?s] =>
      destruct (recv_errC_started _ _ _ s (getVersion_steps env repoRoot) eq_refl)
        as (st' & Hrecv & _ & _ & _ & _ & _ & _ & _ & Hse');
      rewrite (bind_Ok _ _ _ _ _ Hrecv)
    end.
    rewrite Hv in Hse' |- *. cbn [fst snd stderr] in Hse' |- *.
    exists st'. split; [reflexivity|]. rewrite Hse', Hse.
    destruct (As_ExitError e) as [bytes|]; cbn [logged];
      rewrite ?GoStringFacts.app_nil_r, ?GoStringFacts.app_assoc; reflexivity. }
  destruct Hrun as (st' & Hrun%run_Err & Hstderr).
  unfold main. rewrite Hrun. cbn [fst snd]. repeat split; [assumption|].
  intros bytes Hbytes. rewrite (As_ExitError_usage _ _ Hbytes).
  unfold Fprintln_stderr. cbn [set_stderr stderr]. rewrite Hstderr, Hbytes.
  now rewrite !app_assoc.
Qed.

(** X5.  When the terminal gives fewer than three lines, [run] fails at the
    question that finds no line: with [interrupted] at the end of the input,
    with [input error: ...] around the error of the scanner otherwise.  The
    goroutine has been started by then and nothing has been received from it;
    the file of the destination stays, empty. *)
Theorem input_ends (rel : string) :
  (length (tokens (scn st)) < 3)%nat ->
  Rel (RootPath repoRoot) importPath = inr rel ->
  (run env st).1 = Err (scanFailure (scn st))
  /\ (main env st).1 = 1%Z
  /\ tokens (scn (run env st).2) = []
  /\ pending (goroutine (run env st).2) = [errC; versionC]
  /\ handoffs (run env st).2 = handoffs st
  /\ files (run env st).2 = files (opened outputPath st).
Proof.
  intros Hshort Hrel.
  assert (Hrun : exists st',
            gather env st = (Err (scanFailure (scn st)), st')
            /\ tokens (scn st') = []
            /\ pending (goroutine st') = [errC; versionC]
            /\ handoffs st' = handoffs st
            /\ files st' = files (opened outputPath st)).
  { to_fork.
    destruct (resolved_frame env importPath outputPath st)
      as (Hs & _ & _ & _ & Hh & _ & Hf).
    remember (resolved env importPath outputPath st) as st0 eqn:E0. clear E0.
    rewrite <- Hs in *. rewrite <- Hh, <- Hf.
    assert (Hpending : pending ((getVersion env repoRoot).1
              ++ [BgSend (SendErr (getVersion env repoRoot).2.2);
                  BgSend (SendVersion (getVersion env repoRoot).2.1)]) = [errC; versionC]).
    { now rewrite pending_app, getVersion_steps. }
    remember ((getVersion env repoRoot).1
              ++ [BgSend (SendErr (getVersion env repoRoot).2.2);
                  BgSend (SendVersion (getVersion env repoRoot).2.1)]) as steps eqn:E.
    clear E. unfold scanFailure.
    destruct (tokens (scn st0)) as [|t1 [|t2 [|t3 rest]]] eqn:Hlines;
      [| | |simpl in Hshort; lia].
    - rewrite (bind_Err _ _ _ _ _ (prompt_end _ _ (set_goroutine _ st0) Hlines)).
      eexists. split; [reflexivity|]. tidy. now rewrite Hlines.
    - rewrite (bind_Ok _ _ _ _ _ (prompt_line _ _ _ _ (set_goroutine _ st0) Hlines)). tidy.
      match goal with |- context [bind (prompt ?p ?d) ?k ?s] =>
        rewrite (bind_Err (prompt p d) k s _ _ (prompt_end p d s eq_refl)) end.
      eexists. split; [reflexivity|]. tidy. repeat split; assumption.
    - rewrite (bind_Ok _ _ _ _ _ (prompt_line _ _ _ _ (set_goroutine _ st0) Hlines)). tidy.
      ask. unfold relPath at 1. rewrite Hrel.
      rewrite (bind_Ok (bind (ret rel) _) _ _ _ _ eq_refl).
      match goal with |- context [bind (prompt ?p ?d) ?k ?s] =>
        rewrite (bind_Err (prompt p d) k s _ _ (prompt_end p d s eq_refl)) end.
      eexists. split; [reflexivity|]. tidy. repeat split; assumption. }
  destruct Hrun as (st' & Hrun%run_Err & H).
  unfold main. rewrite Hrun. cbn [fst snd]. repeat split; apply H.
Qed.

(** The questions answered, [run] receives the error of the fetch, and
    then the version when the fetch has succeeded. *)
Lemma gather_joins :
  answered st (RootPath repoRoot) importPath = true ->
  match (getVersion env repoRoot).2.2 with
  | Some err =>
    (gather env st).1 = Err err
    /\ goroutine (gather env st).2 = [BgSend (SendVersion "")]
    /\ handoffs (gather env st).2 = handoffs st ++ [errC]
  | None =>
    isOk (gather env st).1 = true
    /\ goroutine (gather env st).2 = []
    /\ handoffs (gather env st).2 = handoffs st ++ [errC; versionC]
  end.
Proof.
  unfold answered. intros [Hthree Hrel]%andb_true_iff.
  destruct (Rel (RootPath repoRoot) importPath) as [msg|rel] eqn:Erel; [discriminate|].
  destruct (tokens (scn st)) as [|t1 [|t2 [|t3 rest]]] eqn:Hlines; try discriminate Hthree.
  remember (gather env st) as g eqn:Eg. symmetry in Eg. revert Eg. to_fork.
  destruct (resolved_frame env importPath outputPath st) as (Hs & _ & _ & _ & Hh & _).
  remember (resolved env importPath outputPath st) as st0 eqn:E0. clear E0.
  rewrite <- Hs in Hlines. rewrite <- Hh.
  rewrite (bind_Ok _ _ _ _ _ (prompt_line _ _ _ _ (set_goroutine _ st0) Hlines)). tidy.
  ask. unfold relPath at 1. rewrite Erel.
  rewrite (bind_Ok (bind (ret rel) _) _ _ _ _ eq_refl).
  ask. wait.
  match goal with |- context [bind recv_errC ?k ?s] =>
    destruct (recv_errC_started _ _ _ s (getVersion_steps env repoRoot) eq_refl)
      as (st1 & Hrecv & Hg1 & Hh1 & _);
    rewrite (bind_Ok _ _ _ _ _ Hrecv)
  end.
  cbn [handoffs] in Hh1.
  destruct (getVersion env repoRoot).2.2 as [err|] eqn:Efetch.
  - rewrite (getVersion_failed _ _ _ Efetch) in Hg1. unfold fail. intros <-.
    cbn [fst snd]. auto.
  - destruct (recv_versionC_pending _ _ Hg1) as (st2 & Hrecv' & Hg2 & Hh2 & _).
    rewrite (bind_Ok _ _ _ _ _ Hrecv'). rewrite Hh1, <- List.app_assoc in Hh2.
    destruct (destination outputPath);
      unfold bind, Fprintln_w, Fprint_w, modify, ret; intros <-;
      cbn [fst snd isOk]; tidy; auto.
Qed.

(** A question that finds no line, or a relative path that cannot be made,
    makes [run] return before it receives. *)
Lemma gather_leaves :
  answered st (RootPath repoRoot) importPath = false ->
  isOk (gather env st).1 = false
  /\ pending (goroutine (gather env st).2) = [errC; versionC]
  /\ handoffs (gather env st).2 = handoffs st.
Proof.
  unfold answered. intros Hno.
  remember (gather env st) as g eqn:Eg. symmetry in Eg. revert Eg. to_fork.
  destruct (resolved_frame env importPath outputPath st) as (Hs & _ & _ & _ & Hh & _).
  remember (resolved env importPath outputPath st) as st0 eqn:E0. clear E0.
  rewrite <- Hs in Hno. rewrite <- Hh.
  assert (Hpending : pending ((getVersion env repoRoot).1
            ++ [BgSend (SendErr (getVersion env repoRoot).2.2);
                BgSend (SendVersion (getVersion env repoRoot).2.1)]) = [errC; versionC]).
  { now rewrite pending_app, getVersion_steps. }
  remember ((getVersion env repoRoot).1
            ++ [BgSend (SendErr (getVersion env repoRoot).2.2);
                BgSend (SendVersion (getVersion env repoRoot).2.1)]) as steps eqn:E.
  clear E.
  destruct (tokens (scn st0)) as [|t1 [|t2 rest]] eqn:Hlines.
  - rewrite (bind_Err _ _ _ _ _ (prompt_end _ _ (set_goroutine _ st0) Hlines)).
    intros <-. cbn [fst snd isOk]. tidy. auto.
  - rewrite (bind_Ok _ _ _ _ _ (prompt_line _ _ _ _ (set_goroutine _ st0) Hlines)). tidy.
    match goal with |- context [bind (prompt ?p ?d) ?k ?s] =>
      rewrite (bind_Err (prompt p d) k s _ _ (prompt_end p d s eq_refl)) end.
    intros <-. cbn [fst snd isOk]. tidy. auto.
  - rewrite (bind_Ok _ _ _ _ _ (prompt_line _ _ _ _ (set_goroutine _ st0) Hlines)). tidy.
    ask. unfold relPath at 1.
    destruct (Rel (RootPath repoRoot) importPath) as [msg|rel].
    + rewrite (bind_Err (bind (fail _) _) _ _ _ _ eq_refl). intros <-.
      cbn [fst snd isOk]. auto.
    + rewrite (bind_Ok (bind (ret rel) _) _ _ _ _ eq_refl).
      destruct rest as [|t3 rest]; [|discriminate Hno].
      match goal with |- context [bind (prompt ?p ?d) ?k ?s] =>
        rewrite (bind_Err (prompt p d) k s _ _ (prompt_end p d s eq_refl)) end.
      intros <-. cbn [fst snd isOk]. tidy. auto.
Qed.

End Forked.

Lemma recipe_written_witness :
  let env := example_com "example.com/foo/bar/cmd/baz" in
  let st := answers [""; "glibc"; ""] ∅ in
  let d := dataOf foo_bar "example.com/foo/bar/cmd/baz" "" "glibc" ""
             ("r12.abcdef0" +:+ nl) "cmd/baz" in
  (run env st).1 = Ok tt
  /\ (main env st).1 = 0%Z
  /\ stderr (main env st).2
     = stderr st +:+ verboseLog env "example.com/foo/bar/cmd/baz"
       +:+ CreateStderr env (VCS foo_bar) "/tmp/genpkgbuild012345" (RepoURL foo_bar)
  /\ match destination "PKGBUILD" with
     | Stdout =>
       stdout (main env st).2 = stdout st +:+ rendered d
       /\ files (main env st).2 = files st
     | File path =>
       files (main env st).2 = <[path := rendered d]> (files st)
       /\ stdout (main env st).2 = stdout st
     end.
Proof.
  apply (recipe_written (example_com "example.com/foo/bar/cmd/baz")
           (answers [""; "glibc"; ""] ∅) "example.com/foo/bar/cmd/baz" "PKGBUILD" []
           foo_bar eq_refl) with (rest := []) (dir := "/tmp/genpkgbuild012345");
    evaluated.
Defined.

Lemma questions_asked_witness :
  let env := golint ["github.com/golang/lint/golint"; "-o"; "-"] in
  let st := answers [""; "glibc"; ""] ∅ in
  w (run env st).2 =
    w st
    +:+ "Package Name: (" +:+ Base (RootPath lint) +:+ "-git) "
    +:+ "Dependent Packages(split by space): "
    +:+ "Binary name to be installed: (" +:+ Base "github.com/golang/lint/golint" +:+ ") "
    +:+ "Please wait..."
    +:+ separator (destination "-") +:+ nl
  /\ tokens (scn (run env st).2) = [].
Proof.
  apply (questions_asked (golint ["github.com/golang/lint/golint"; "-o"; "-"])
           (answers [""; "glibc"; ""] ∅) "github.com/golang/lint/golint" "-" []
           lint eq_refl) with (t1 := "") (t2 := "glibc") (t3 := "")
           (dir := "/tmp/genpkgbuild012345") (out := "r179.414d861" +:+ nl) (rel := "golint");
    evaluated.
Defined.

Lemma fetch_failure_reported_late_witness :
  let env := clone_fails in
  let st := tty ["lint"; ""; ""] in
  let err := Errorf_w "could not clone the repo: " (errorString "exit status 128") in
  (run env st).1 = Err err
  /\ (main env st).1 = 1%Z
  /\ w (run env st).2
      = w st +:+ questions (RootPath lint) "github.com/golang/lint/golint"
        +:+ "Please wait..."
  /\ tokens (scn (run env st).2) = []
  /\ files (run env st).2 = files (opened "-" st)
  /\ stdout (run env st).2 = stdout st
  /\ ((exists e, TempDir env = inl e /\ err = Errorf_w "could not secure a temp dir: " e)
      \/ (exists dir e,
            TempDir env = inr dir
            /\ Create env (VCS lint) dir (RepoURL lint) = Some e
            /\ err = Errorf_w "could not clone the repo: " e)
      \/ (exists dir,
            TempDir env = inr dir
            /\ Create env (VCS lint) dir (RepoURL lint) = None
            /\ Output env dir = inl err)).
Proof.
  apply (fetch_failure_reported_late clone_fails (tty ["lint"; ""; ""])
           "github.com/golang/lint/golint" "-" [] lint eq_refl)
    with (t1 := "lint") (t2 := "") (t3 := "") (rel := "golint"); evaluated.
Defined.

Lemma version_command_stderr_witness :
  let env := describe_fails in
  let st := tty ["lint"; ""; ""] in
  let e := ExitError "exit status 128" ("fatal: not a git repository" +:+ nl) in
  (run env st).1 = Err e
  /\ stderr (run env st).2
      = stderr st +:+ verboseLog env "github.com/golang/lint/golint"
        +:+ CreateStderr env (VCS lint) "/tmp/genpkgbuild012345" (RepoURL lint)
        +:+ match As_ExitError e with Some bytes => bytes | None => "" end
  /\ forall bytes,
       As_ExitError e = Some bytes ->
       stderr (main env st).2
       = stderr st +:+ verboseLog env "github.com/golang/lint/golint"
         +:+ CreateStderr env (VCS lint) "/tmp/genpkgbuild012345" (RepoURL lint)
         +:+ bytes +:+ Error e +:+ nl.
Proof.
  apply (version_command_stderr describe_fails (tty ["lint"; ""; ""])
           "github.com/golang/lint/golint" "PKGBUILD" [] lint eq_refl)
    with (t1 := "lint") (t2 := "") (t3 := "") (rest := []) (rel := "golint")
         (dir := "/tmp/genpkgbuild012345"); evaluated.
Defined.

Lemma input_ends_witness :
  let env := golint ["github.com/golang/lint/golint"] in
  let st := tty ["lint"] in
  (run env st).1 = Err (scanFailure (scn st))
  /\ (main env st).1 = 1%Z
  /\ tokens (scn (run env st).2) = []
  /\ pending (goroutine (run env st).2) = [errC; versionC]
  /\ handoffs (run env st).2 = handoffs st
  /\ files (run env st).2 = files (opened "PKGBUILD" st).
Proof.
  apply (input_ends (golint ["github.com/golang/lint/golint"]) (tty ["lint"])
           "github.com/golang/lint/golint" "PKGBUILD" [] lint eq_refl)
    with (rel := "golint"); evaluated.
Defined.

(** ** The join *)

(** C9, as amended.  From a state without goroutine, a run ends in one of
    four ways: no goroutine was started; or it was started and nothing was
    received from it, both sends are pending; or the error of a fetch that
    failed was handed over and returned, the send of the version is pending
    for ever; or the error ([nil]) and then the version were handed over and
    [run] returned [nil].  Which way it is, is settled for a run that gets to
    the fork (the terminal opens, the command line gives an import path, the
    destination opens, the import path resolves to a Git repository).  When
    the three questions find their lines and the relative path can be made,
    [run] receives on [errC] once, whatever the fetch has come to: after a
    fetch that has succeeded it receives on [versionC] once as well and
    returns [nil], and no send is left; after a fetch that has failed it
    returns the error of [getVersion] and receives on [versionC] never, the
    send of the version is left.  When a question finds no line or the
    relative path cannot be made, [run] fails without a receive, and both
    sends are left. *)
Theorem handoffs_of_run (env : Env) (st : State) :
  goroutine st = [] -> handoffs st = [] ->
  channels env (run env st).1 (run env st).2
  /\ forall (importPath outputPath : string) (args : list string) (repoRoot : RepoRoot),
       openTTY env = None ->
       (parseArgs env st).1 = Ok (importPath :: args, outputPath) ->
       outputPath = "-"
       \/ (files st !! outputPath = None /\ createFile env outputPath = None) ->
       RepoRootForImportPath env importPath = inr repoRoot ->
       Name (VCS repoRoot) = "Git" ->
       if answered st (RootPath repoRoot) importPath then
         received errC (run env st).2 = 1%nat
         /\ match (getVersion env repoRoot).2.2 with
            | None =>
              (run env st).1 = Ok tt
              /\ received versionC (run env st).2 = 1%nat
              /\ handoffs (run env st).2 = [errC; versionC]
              /\ pending (goroutine (run env st).2) = []
            | Some err =>
              (run env st).1 = Err err
              /\ received versionC (run env st).2 = 0%nat
              /\ handoffs (run env st).2 = [errC]
              /\ pending (goroutine (run env st).2) = [versionC]
            end
       else
         isOk (run env st).1 = false
         /\ received errC (run env st).2 = 0%nat
         /\ received versionC (run env st).2 = 0%nat
         /\ pending (goroutine (run env st).2) = [errC; versionC].
Proof.
  intros Hg Hh. split; [exact (run_channels env st (conj Hg Hh))|].
  intros importPath outputPath args repoRoot Htty Hparse Hdest Hresolve Hgit.
  pose proof (run_background env st) as Hb. unfold background in Hb.
  injection Hb as Hgo Hho. unfold received. rewrite Hgo, Hho, run_result.
  destruct (answered st (RootPath repoRoot) importPath) eqn:Hasked.
  - pose proof (gather_joins env st importPath outputPath args repoRoot
                  Htty Hparse Hdest Hresolve Hgit Hasked) as Hjoin.
    destruct (getVersion env repoRoot).2.2 as [err|].
    + destruct Hjoin as (-> & -> & ->). rewrite Hh. repeat split.
    + destruct Hjoin as (Hok & -> & ->). rewrite Hh.
      destruct (gather env st).1; try discriminate Hok. repeat split.
  - destruct (gather_leaves env st importPath outputPath args repoRoot
                Htty Hparse Hdest Hresolve Hgit Hasked) as (Hfails & -> & ->).
    rewrite Hh. destruct (gather env st).1; try discriminate Hfails; repeat split.
Qed.

Lemma handoffs_of_run_witness :
  let env := golint ["github.com/golang/lint/golint"; "-o"; "-"] in
  let st := answers [""; ""; ""] ∅ in
  received errC (run env st).2 = 1%nat
  /\ (run env st).1 = Ok tt
  /\ received versionC (run env st).2 = 1%nat
  /\ handoffs (run env st).2 = [errC; versionC]
  /\ pending (goroutine (run env st).2) = [].
Proof.
  exact (proj2 (handoffs_of_run (golint ["github.com/golang/lint/golint"; "-o"; "-"])
                  (answers [""; ""; ""] ∅) eq_refl eq_refl)
           "github.com/golang/lint/golint" "-" [] lint
           eq_refl eq_refl (or_introl eq_refl) eq_refl eq_refl).
Defined.

(** C9 as stated fails.  The clone fails: the run gets to the fork and
    through the questions, receives on [errC] once and returns the error; it
    never receives on [versionC], on which the goroutine is still sending.
    The terminal is closed: the run gets to the fork and receives on neither
    channel. *)
Lemma version_not_handed_over :
  (let st' := (run clone_fails (answers [""; ""; ""] ∅)).2 in
   (run clone_fails (answers [""; ""; ""] ∅)).1 =
     Err (Errorf_w "could not clone the repo: " (errorString "exit status 128"))
   /\ received errC st' = 1%nat
   /\ received versionC st' = 0%nat
   /\ pending (goroutine st') = [versionC])
  /\ (let st' := (run (golint ["github.com/golang/lint/golint"]) (answers [] ∅)).2 in
      (run (golint ["github.com/golang/lint/golint"]) (answers [] ∅)).1 =
        Err (errorString "interrupted")
      /\ received errC st' = 0%nat
      /\ received versionC st' = 0%nat
      /\ pending (goroutine st') = [errC; versionC]).
Proof. vm_compute. repeat split. Qed.

(** ** What a run leaves behind *)

Lemma parseArgs_outputs (env : Env) (st : State) : outputs (parseArgs env st).2 = outputs st.
Proof. unfold parseArgs, panic, ret. repeat case_match; reflexivity. Qed.

Lemma prompt_outputs (p dflt : string) (st : State) : outputs (prompt p dflt st).2 = outputs st.
Proof. rewrite prompt_eq. cbn zeta. repeat case_match; reflexivity. Qed.

Lemma relPath_outputs (root importPath : string) (st : State) :
  outputs (relPath root importPath st).2 = outputs st.
Proof. unfold relPath, bind, fail, ret. repeat case_match; simplify_eq; reflexivity. Qed.

Lemma receive_outputs (c : chan) (st : State) : outputs (receive c st).2 = outputs st.
Proof. unfold receive. repeat case_match; reflexivity. Qed.

Lemma recv_errC_outputs (st : State) : outputs (recv_errC st).2 = outputs st.
Proof.
  unfold recv_errC, bind, ret. pose proof (receive_outputs errC st) as H.
  destruct (receive errC st) as [[] ?]; exact H.
Qed.

Lemma recv_versionC_outputs (st : State) : outputs (recv_versionC st).2 = outputs st.
Proof.
  unfold recv_versionC, bind, ret. pose proof (receive_outputs versionC st) as H.
  destruct (receive versionC st) as [[] ?]; exact H.
Qed.

(** The first part of [run] creates the file of [created] and touches
    nothing else outside the terminal; the destination that it hands to the
    template is that file, or standard output when it has created none. *)
Lemma gather_outputs (env : Env) (st : State) :
  wp (gather env)
     (fun r st' =>
        outputs st' =
          outputs (match created env st with
                   | Some path => set_files (<[path := ""]> (files st)) st
                   | None => st
                   end)
        /\ forall out d, r = Ok (out, d) ->
             out = match created env st with Some path => File path | None => Stdout end)
     st.
Proof.
  unfold gather, created.
  destruct (openTTY env) as [e|]. { apply wp_fail. split; [reflexivity | discriminate]. }
  apply wp_bind. unfold wp at 1.
  destruct (parseArgs env st) as [r st1] eqn:Hparse. cbn [fst snd].
  destruct r as [[args outputPath]| | | |];
    try (pose proof (parseArgs_outputs env st) as H; rewrite Hparse in H;
         split; [exact H | discriminate]).
  apply parseArgs_state in Hparse as ->.
  apply wp_bind. unfold wp at 1.
  assert (Hopen :
    exists output st2,
      (if bool_decide (outputPath = "-") then ret Stdout else OpenFile_excl env outputPath) st
        = (output, st2)
      /\ outputs st2 =
           outputs (match (if bool_decide (outputPath = "-") then None
                           else match files st !! outputPath, createFile env outputPath with
                                | None, None => Some outputPath
                                | _, _ => None
                                end) with
                    | Some path => set_files (<[path := ""]> (files st)) st
                    | None => st
                    end)
      /\ forall f, output = Ok f ->
           f = match (if bool_decide (outputPath = "-") then None
                      else match files st !! outputPath, createFile env outputPath with
                           | None, None => Some outputPath
                           | _, _ => None
                           end) with
               | Some path => File path
               | None => Stdout
               end).
  { unfold OpenFile_excl, ret. case_bool_decide.
    - eexists _, _. split; [reflexivity|]. split; [reflexivity|]. now intros f [= <-].
    - destruct (files st !! outputPath).
      { eexists _, _. split; [reflexivity|]. split; [reflexivity | discriminate]. }
      destruct (createFile env outputPath).
      { eexists _, _. split; [reflexivity|]. split; [reflexivity | discriminate]. }
      eexists _, _. split; [reflexivity|]. split; [reflexivity|]. now intros f [= <-]. }
  destruct Hopen as (r & st2 & -> & H2 & Hout). cbn [fst snd].
  match type of H2 with _ = ?x => generalize dependent x end.
  match type of Hout with forall f, _ -> f = ?x => generalize dependent x end.
  intros target Hout X H2.
  destruct r as [output| | | |]; try (split; [exact H2 | discriminate]).
  specialize (Hout _ eq_refl). subst target.
  destruct (length (Args env) <? 2)%nat.
  { apply wp_fail. split; [exact H2 | discriminate]. }
  apply wp_bind.
  destruct args as [|importPath args].
  { apply wp_panic. split; [exact H2 | discriminate]. }
  apply wp_ret, wp_modify, wp_bind.
  destruct (RepoRootForImportPath env importPath) as [e|repoRoot].
  { apply wp_fail. split; [exact H2 | discriminate]. }
  apply wp_ret.
  destruct (negb (bool_decide (Name (VCS repoRoot) = "Git"))).
  { apply wp_fail. split; [exact H2 | discriminate]. }
  apply wp_bind. unfold wp at 1. rewrite go_getVersion_spec. cbn [fst snd].
  match goal with |- wp _ _ ?s => remember s as st3 eqn:E3 end.
  assert (H3 : outputs st3 = X) by now subst st3.
  clear E3 H2 st2.
  apply wp_bind, (wp_keeps outputs); [apply prompt_outputs|].
  intros r st4 H4. rewrite <- H4 in H3. clear H4 st3.
  destruct r as [pkgName| | | |]; try (split; [exact H3 | discriminate]).
  apply wp_bind, (wp_keeps outputs); [apply prompt_outputs|].
  intros r st5 H5. rewrite <- H5 in H3. clear H5 st4.
  destruct r as [dependsList| | | |]; try (split; [exact H3 | discriminate]).
  apply wp_bind, (wp_keeps outputs); [apply relPath_outputs|].
  intros r st6 H6. rewrite <- H6 in H3. clear H6 st5.
  destruct r as [rel| | | |]; try (split; [exact H3 | discriminate]).
  apply wp_bind, (wp_keeps outputs); [apply prompt_outputs|].
  intros r st7 H7. rewrite <- H7 in H3. clear H7 st6.
  destruct r as [binName| | | |]; try (split; [exact H3 | discriminate]).
  apply wp_bind, (wp_keeps outputs); [reflexivity|].
  intros r st8 H8. rewrite <- H8 in H3. clear H8 st7.
  destruct r as [[]| | | |]; try (split; [exact H3 | discriminate]).
  apply wp_bind, (wp_keeps outputs); [apply recv_errC_outputs|].
  intros r st9 H9. rewrite <- H9 in H3. clear H9 st8.
  destruct r as [[err|]| | | |]; try (split; [exact H3 | discriminate]).
  apply wp_bind, (wp_keeps outputs); [apply recv_versionC_outputs|].
  intros r st10 H10. rewrite <- H10 in H3. clear H10 st9.
  destruct r as [version| | | |]; try (split; [exact H3 | discriminate]).
  apply wp_bind, (wp_keeps outputs); [intros st0; destruct output; reflexivity|].
  intros r st11 H11. rewrite <- H11 in H3. clear H11 st10.
  destruct r as [[]| | | |]; try (split; [exact H3 | discriminate]).
  apply wp_bind, (wp_keeps outputs); [reflexivity|].
  intros r st12 H12. rewrite <- H12 in H3. clear H12 st11.
  destruct r as [[]| | | |]; try (split; [exact H3 | discriminate]).
  apply wp_ret. split; [exact H3|]. now intros out d [= <- _].
Qed.

Lemma gather_left (env : Env) (st : State) :
  files (gather env st).2 = match created env st with
                            | Some path => <[path := ""]> (files st)
                            | None => files st
                            end
  /\ stdout (gather env st).2 = stdout st
  /\ writes (gather env st).2 = writes st
  /\ forall out d, (gather env st).1 = Ok (out, d) ->
       out = match created env st with Some path => File path | None => Stdout end.
Proof.
  pose proof (gather_outputs env st) as [H Hout]. unfold outputs in H.
  destruct (created env st); injection H as -> -> ->; auto.
Qed.

(** X6.  Of the files that the process opens itself, a run touches at most
    one: the one that [created] names, which was not there; every other
    file, and every file when [created] names none, is as it was.  When
    [run] does not return [nil], the file that it has created is empty: it is
    not removed.  (The directory of the clone is no part of [files]; the
    surroundings stand for what [getVersion] does in it.) *)
Theorem one_file_touched (env : Env) (st : State) :
  exists content,
    files (run env st).2 = match created env st with
                           | Some path => <[path := content]> (files st)
                           | None => files st
                           end
    /\ (isOk (run env st).1 = false -> content = "").
Proof.
  destruct (gather_left env st) as (Hfiles & _ & _ & Hout).
  unfold run, bind.
  destruct (gather env st) as [[[out d]| | | |] st1]; cbn [fst snd] in *;
    try (exists ""; split; [exact Hfiles | reflexivity]).
  rewrite (Hout _ _ eq_refl). unfold ret, Execute. cbn [fst snd isOk].
  destruct (created env st) as [path|].
  - destruct (writeChunks_appends env path "" (chunks d) st1)
      as (pre & suf & _ & _ & -> & _).
    { rewrite Hfiles. apply lookup_insert_eq. }
    exists pre. rewrite Hfiles, insert_insert_eq. split; [reflexivity | discriminate].
  - destruct (writeChunks_prints env (chunks d) st1) as (pre & suf & _ & _ & _ & ->).
    exists "". split; [exact Hfiles | reflexivity].
Qed.

(** X7.  A run that does not return [nil] has sent nothing to its
    destination: standard output is as it was and no [Write] has been made.
    Standard output is written to only by a run that returns [nil] and whose
    output path is [-]. *)
Theorem nothing_sent_before_success (env : Env) (st : State) :
  (isOk (run env st).1 = false ->
     stdout (run env st).2 = stdout st /\ writes (run env st).2 = writes st)
  /\ (stdout (run env st).2 = stdout st
      \/ exists args, openTTY env = None /\ (parseArgs env st).1 = Ok (args, "-")).
Proof.
  destruct (gather_left env st) as (_ & Hstdout & Hwrites & Hout).
  unfold run, bind.
  destruct (gather env st) as [[[out d]| | | |] st1] eqn:Hgather; cbn [fst snd] in *;
    try (split; [intros _; split; assumption | now left]).
  unfold ret, Execute. cbn [fst snd isOk]. split; [discriminate|].
  specialize (Hout _ _ eq_refl).
  destruct (created env st) as [path|] eqn:Hcreated; subst out.
  - left. now rewrite writeChunks_File_stdout.
  - right. destruct (openTTY env) as [e|] eqn:Htty.
    { unfold gather in Hgather. rewrite Htty in Hgather. discriminate. }
    destruct (gather_data _ _ _ _ _ Hgather)
      as (importPath & args & outputPath & _ & _ & _ & _ & _ & _ & _ & _
          & Hparse & _ & _ & _ & _ & _ & _ & Hdest & _).
    case_bool_decide; [subst outputPath | discriminate]. eauto.
Qed.

(** X8.  Whatever the [Write] calls on the destination do, the destination
    of a run that gets to the rendering receives a prefix of the recipe, and
    the whole recipe when no [Write] fails: a file that the run has created
    holds that prefix and nothing else, standard output has it after what it
    had. *)
Theorem destination_holds_prefix (env : Env) (st st1 : State) (output : file)
    (d : TmplData) :
  gather env st = (Ok (output, d), st1) ->
  exists pre suf,
    rendered d = pre +:+ suf
    /\ match output with
       | Stdout => stdout (run env st).2 = stdout st +:+ pre
       | File path => files (run env st).2 = <[path := pre]> (files st)
       end
    /\ ((forall n, writeFails env n = None) -> suf = "").
Proof.
  intros Hgather.
  destruct (gather_left env st) as (Hfiles & Hstdout & _ & Hout).
  rewrite Hgather in *. cbn [fst snd] in *. specialize (Hout _ _ eq_refl).
  unfold run, bind. rewrite Hgather. unfold ret, Execute, rendered. cbn [fst snd].
  destruct (created env st) as [path|]; subst output.
  - destruct (writeChunks_appends env path "" (chunks d) st1)
      as (pre & suf & Hcs & Hall & -> & _).
    { rewrite Hfiles. apply lookup_insert_eq. }
    exists pre, suf. rewrite Hfiles, insert_insert_eq. auto.
  - destruct (writeChunks_prints env (chunks d) st1) as (pre & suf & Hcs & Hall & -> & _).
    exists pre, suf. rewrite Hstdout. auto.
Qed.

Lemma destination_holds_prefix_witness :
  let d := dataOf lint "github.com/golang/lint/golint" "" "" ""
             ("r179.414d861" +:+ nl) "golint" in
  let st := answers [""; ""; ""] ∅ in
  exists pre suf,
    rendered d = pre +:+ suf
    /\ stdout (run golint_full st).2 = stdout st +:+ pre
    /\ ((forall n, writeFails golint_full n = None) -> suf = "").
Proof.
  apply (destination_holds_prefix golint_full (answers [""; ""; ""] ∅)
           (gather golint_full (answers [""; ""; ""] ∅)).2 Stdout).
  apply gather_computed. vm_compute. reflexivity.
Defined.

Lemma created_inv (env : Env) (st : State) (path : string) :
  created env st = Some path ->
  openTTY env = None /\ path <> "-" /\ files st !! path = None
  /\ createFile env path = None
  /\ exists args, (parseArgs env st).1 = Ok (args, path).
Proof.
  unfold created. destruct (openTTY env); [discriminate|].
  destruct (parseArgs env st).1 as [[args outputPath]| | | |]; try discriminate.
  case_bool_decide; [discriminate|].
  destruct (files st !! outputPath) eqn:Hfile; [discriminate|].
  destruct (createFile env outputPath) eqn:Hcreate; [discriminate|].
  intros [= <-]. eauto 10.
Qed.

(** The file that a run creates is there when the run is over. *)
Lemma run_created (env : Env) (st : State) (path : string) :
  created env st = Some path ->
  exists content, files (run env st).2 !! path = Some content.
Proof.
  intros Hcreated.
  destruct (gather_left env st) as (Hfiles & _ & _ & Hout). rewrite Hcreated in *.
  unfold run, bind.
  destruct (gather env st) as [[[out d]| | | |] st1]; cbn [fst snd] in *;
    try (exists ""; rewrite Hfiles; apply lookup_insert_eq).
  rewrite (Hout _ _ eq_refl). unfold ret, Execute. cbn [fst snd].
  destruct (writeChunks_appends env path "" (chunks d) st1) as (pre & suf & _ & _ & -> & _).
  { rewrite Hfiles. apply lookup_insert_eq. }
  eexists. apply lookup_insert_eq.
Qed.

(** X9.  The file that a run has created is in the way of the next run:
    whatever the first run came to, a second process that the same output
    path is given to fails at the exclusive open, before it looks at its
    import path. *)
Theorem second_run_refused (env env' : Env) (st : State) (path : string)
    (args : list string) :
  created env st = Some path ->
  openTTY env' = None ->
  (parseArgs env' (run env st).2).1 = Ok (args, path) ->
  run env' (run env st).2
    = (Err (PathError "open" path "file exists"), (run env st).2)
  /\ (main env' (run env st).2).1 = 1%Z.
Proof.
  intros Hcreated Htty Hparse.
  destruct (run_created _ _ _ Hcreated) as [content Hfile].
  destruct (created_inv _ _ _ Hcreated) as (_ & Hdash & _).
  destruct (open_existing env' _ _ _ _ Htty Hparse Hdash Hfile) as (Hrun & _ & Hmain).
  split; [exact Hrun|]. now rewrite Hmain.
Qed.

Lemma second_run_refused_witness :
  let env' := golint ["github.com/golang/lint/golint"] in
  let st := (run (golint ["github.com/golang/lint/golint"]) (tty ["lint"])).2 in
  run env' st = (Err (PathError "open" "PKGBUILD" "file exists"), st)
  /\ (main env' st).1 = 1%Z.
Proof.
  apply (second_run_refused (golint ["github.com/golang/lint/golint"])
           (golint ["github.com/golang/lint/golint"]) (tty ["lint"]) "PKGBUILD"
           ["github.com/golang/lint/golint"] eq_refl eq_refl).
  vm_compute. reflexivity.
Defined.

(** ** The command line, entry by entry *)

Lemma operands_afterLeading (es : list entry) : operands (afterLeading es) = operands es.
Proof. induction es as [|[p|d j v] es IH]; simpl; auto. Qed.

Lemma lastOutput_afterLeading (dflt : string) (es : list entry) :
  lastOutput (leadingOutput dflt es) (afterLeading es) = lastOutput dflt es.
Proof. revert dflt. induction es as [|[p|d j v] es IH]; intros dflt; simpl; auto. Qed.

Lemma length_afterLeading (es : list entry) :
  (length (flat_map spelled (afterLeading es)) <= length (flat_map spelled es))%nat.
Proof.
  induction es as [|[p|d j v] es IH]; simpl; auto.
  rewrite length_app. lia.
Qed.

Lemma Forall_afterLeading (P : entry -> Prop) (es : list entry) :
  Forall P es -> Forall P (afterLeading es).
Proof. induction 1 as [|[p|d j v] es He Hes IH]; simpl; auto. Qed.

Lemma afterLeading_head (es rest : list entry) (e : entry) :
  afterLeading es = e :: rest -> exists p, e = Operand p.
Proof.
  induction es as [|[p|d j v] es IH]; simpl; [discriminate| |exact IH].
  intros [= <- _]. eauto.
Qed.

Section CommandLine.

Import Flag.

(** What follows the entries: nothing, or arguments on which [Parse] gives
    up whatever the value of [-o] is. *)
Variable leftover : list string.
Variable finish : string -> parse.
Hypothesis Hfinish : forall output, Parse usage output leftover = finish output.
Hypothesis Hleftover :
  (leftover = [] /\ forall output, finish output = Parsed output [])
  \/ exists code msg, forall output, finish output = Exits code msg.

Lemma Parse_OutputFlag (output : string) (dashes joined : bool) (v : string)
    (arguments : list string) :
  Parse usage output (spelled (OutputFlag dashes joined v) ++ arguments)
  = Parse usage v arguments.
Proof. destruct dashes, joined; reflexivity. Qed.

Lemma Parse_Operand (output p : string) (arguments : list string) :
  positional p = true ->
  Parse usage output (p :: arguments) = Parsed output (p :: arguments).
Proof.
  intros Hp. destruct p as [|c [|c' t]]; [reflexivity| |];
    destruct c as [[] [] [] [] [] [] [] []]; try reflexivity.
  discriminate.
Qed.

Lemma Parse_entries (output : string) (es : list entry) :
  Forall (fun e => wellFormed e = true) es ->
  Parse usage output (flat_map spelled es ++ leftover) =
    match afterLeading es with
    | [] => finish (leadingOutput output es)
    | rest => Parsed (leadingOutput output es) (flat_map spelled rest ++ leftover)
    end.
Proof.
  intros Hes. revert output. induction Hes as [|e es He Hes IH]; intros output.
  - apply Hfinish.
  - destruct e as [p|dashes joined v].
    + cbn [flat_map spelled afterLeading leadingOutput app]. now apply Parse_Operand.
    + cbn [flat_map afterLeading leadingOutput]. rewrite <- List.app_assoc, Parse_OutputFlag.
      apply IH.
Qed.

Lemma positionals_entries (fuel : nat) (output p : string) (es : list entry)
    (args : list string) :
  Forall (fun e => wellFormed e = true) es ->
  (length (flat_map spelled (Operand p :: es) ++ leftover) <= fuel)%nat ->
  positionals usage fuel output (flat_map spelled (Operand p :: es) ++ leftover) args =
    Some (args ++ operands (Operand p :: es),
          match finish (lastOutput output es) with
          | Parsed o _ => Parsed o []
          | Exits code msg => Exits code msg
          end).
Proof.
  revert output p es args.
  induction fuel as [|fuel IH]; intros output p es args Hes Hfuel; [simpl in Hfuel; lia|].
  cbn [flat_map spelled app positionals operands].
  rewrite (Parse_entries _ _ Hes).
  rewrite <- (lastOutput_afterLeading output es), <- (operands_afterLeading es).
  destruct (afterLeading es) as [|e rest] eqn:Hafter.
  - cbn [lastOutput operands].
    destruct Hleftover as [[-> Hparsed] | (code & msg & Hexits)].
    + rewrite Hparsed. now destruct fuel.
    + now rewrite Hexits.
  - destruct (afterLeading_head _ _ _ Hafter) as [q ->].
    rewrite IH.
    + rewrite <- List.app_assoc. reflexivity.
    + apply Forall_afterLeading in Hes. rewrite Hafter in Hes. now inversion Hes.
    + pose proof (length_afterLeading es) as Hlen. rewrite Hafter in Hlen.
      cbn [flat_map spelled app length] in *. rewrite length_app in Hfuel |- *. lia.
Qed.

Lemma parseArgs_entries (env : Env) (st : State) (prog : string) (es : list entry) :
  Args env = prog :: flat_map spelled es ++ leftover ->
  Forall (fun e => wellFormed e = true) es ->
  parseArgs env st =
    match finish "" with
    | Parsed _ _ => (Ok (operands es, leadingOutput (lastOutput "PKGBUILD" es) es), st)
    | Exits code msg => (Exit code, set_stderr (stderr st +:+ msg) st)
    end.
Proof.
  intros Hargs Hes. unfold parseArgs. rewrite Hargs, (Parse_entries _ _ Hes).
  destruct (afterLeading es) as [|e rest] eqn:Hafter.
  - destruct Hleftover as [[Hnone Hparsed] | (code & msg & Hexits)].
    + rewrite !Hparsed. cbn [flat_map app length positionals].
      rewrite (Parse_entries _ _ Hes), Hafter, Hparsed.
      rewrite <- (lastOutput_afterLeading "PKGBUILD" es), <- (operands_afterLeading es), Hafter.
      reflexivity.
    + rewrite !Hexits. reflexivity.
  - destruct (afterLeading_head _ _ _ Hafter) as [q ->].
    rewrite positionals_entries.
    + pose proof (lastOutput_afterLeading "PKGBUILD" es) as Hlast.
      pose proof (operands_afterLeading es) as Hoperands.
      rewrite Hafter in Hlast, Hoperands. cbn [lastOutput] in Hlast.
      rewrite Hlast, Hoperands. cbn [app].
      destruct Hleftover as [[Hnone Hparsed] | (code & msg & Hexits)].
      * rewrite !Hparsed, (Parse_entries _ _ Hes), Hafter. reflexivity.
      * rewrite !Hexits. reflexivity.
    + apply Forall_afterLeading in Hes. rewrite Hafter in Hes. now inversion Hes.
    + reflexivity.
Qed.

End CommandLine.

Lemma cutValue_plain (name : string) :
  all (fun x => negb (bool_decide (x = "="%char))) name = true ->
  Flag.cutValue name = (name, None).
Proof.
  induction name as [|c t IH]; [reflexivity|]. cbn [all Flag.cutValue].
  intros [Hc Ht]%andb_true_iff. apply negb_true_iff in Hc. now rewrite Hc, (IH Ht).
Qed.

Lemma Parse_undefined (output name : string) (dashes : bool) (more : list string) :
  undefinedFlag name = true ->
  Flag.Parse usage output (((if dashes then "--" else "-") +:+ name) :: more)
  = Flag.failf usage ("flag provided but not defined: -" +:+ name).
Proof.
  destruct name as [|c t]; [discriminate|]. unfold undefinedFlag.
  rewrite !andb_true_iff, !negb_true_iff.
  intros (((((Hdash & Heq) & Hplain) & Ho) & Hh) & Hhelp).
  destruct dashes.
  - change ("--" +:+ String c t) with (String "-" (String "-" (String c t))).
    cbn [Flag.Parse]. rewrite bool_decide_eq_true_2 by reflexivity.
    rewrite (bool_decide_eq_false_2 (String c t = "")) by discriminate.
    cbn [andb]. rewrite Hdash, Heq. cbn [orb Flag.splitName].
    rewrite (cutValue_plain _ Hplain), Ho, Hhelp, Hh. reflexivity.
  - change ("-" +:+ String c t) with (String "-" (String c t)).
    cbn [Flag.Parse]. rewrite Hdash. cbn [andb]. rewrite Hdash, Heq.
    cbn [orb Flag.splitName].
    rewrite (cutValue_plain _ Hplain), Ho, Hhelp, Hh. reflexivity.
Qed.

Lemma Parse_missing (output : string) (dashes : bool) :
  Flag.Parse usage output [if dashes then "--o" else "-o"]
  = Flag.failf usage "flag needs an argument: -o".
Proof. now destruct dashes. Qed.

(** X10.  The closure at the head of [run] takes a command line of arguments
    that are no flags and of [-o] flags, in any order and in any of the four
    spellings of the flag.  Its first result is the arguments that are no
    flags, in their order.  Its second result is the value of the last [-o]
    that stands before the first of them; when no [-o] stands there, the
    value of the last [-o] of the command line; [PKGBUILD] when there is
    none.  So an [-o] before the import path overrides one after it. *)
Theorem command_line_parsed (env : Env) (st : State) (prog : string) (es : list entry) :
  Args env = prog :: flat_map spelled es ->
  Forall (fun e => wellFormed e = true) es ->
  parseArgs env st = (Ok (operands es, leadingOutput (lastOutput "PKGBUILD" es) es), st).
Proof.
  intros Hargs Hes.
  apply (parseArgs_entries [] (fun output => Flag.Parsed output []) (fun _ => eq_refl))
    with (prog := prog) (es := es); [| |exact Hes].
  - left. split; reflexivity.
  - now rewrite List.app_nil_r.
Qed.

Lemma command_line_parsed_witness :
  let env := golint ["-o"; "a"; "x/y"; "--o=b"] in
  parseArgs env (tty []) = (Ok (["x/y"], "a"), tty []).
Proof.
  apply (command_line_parsed (golint ["-o"; "a"; "x/y"; "--o=b"]) (tty []) "genpkgbuild-go"
           [OutputFlag false false "a"; Operand "x/y"; OutputFlag true true "b"] eq_refl).
  repeat constructor.
Defined.

Lemma exits_in_main (env : Env) (st : State) (code : Z) (msg : string) :
  openTTY env = None ->
  parseArgs env st = (Exit code, set_stderr (stderr st +:+ msg) st) ->
  main env st = (code, set_stderr (stderr st +:+ msg) st).
Proof.
  intros Htty Hparse. unfold main, run, gather, bind. now rewrite Htty, Hparse.
Qed.

(** X11.  A flag that the flag set does not define, wherever it stands after
    arguments that [Parse] accepts, ends the process with status 2: standard
    error gets [flag provided but not defined: -NAME] and the usage text with
    an empty line after it, and nothing else has happened: no file is
    created, no question is asked, no repository is looked up. *)
Theorem undefined_flag_exits (env : Env) (st : State) (prog : string) (es : list entry)
    (dashes : bool) (name : string) (more : list string) :
  openTTY env = None ->
  Args env
    = prog :: flat_map spelled es ++ ((if dashes then "--" else "-") +:+ name) :: more ->
  Forall (fun e => wellFormed e = true) es ->
  undefinedFlag name = true ->
  main env st =
    (2%Z, set_stderr (stderr st +:+ "flag provided but not defined: -" +:+ name +:+ nl
                      +:+ usage +:+ nl +:+ nl) st).
Proof.
  intros Htty Hargs Hes Hname.
  assert (Hparse :
    parseArgs env st =
      (Exit 2, set_stderr (stderr st +:+ ("flag provided but not defined: -" +:+ name)
                           +:+ nl +:+ Flag.Usage usage) st)).
  { apply (parseArgs_entries _
             (fun _ => Flag.failf usage ("flag provided but not defined: -" +:+ name))
             (fun output => Parse_undefined output name dashes more Hname)) with (prog := prog)
      (es := es); [|assumption..].
    right. eexists _, _. reflexivity. }
  rewrite (exits_in_main _ _ _ _ Htty Hparse). unfold Flag.Usage.
  now rewrite !app_assoc.
Qed.

Lemma undefined_flag_exits_witness :
  let env := golint ["x/y"; "-v"] in
  main env (tty []) =
    (2%Z, set_stderr (stderr (tty []) +:+ "flag provided but not defined: -" +:+ "v" +:+ nl
                      +:+ usage +:+ nl +:+ nl) (tty [])).
Proof.
  apply (undefined_flag_exits (golint ["x/y"; "-v"]) (tty []) "genpkgbuild-go"
           [Operand "x/y"] false "v" [] eq_refl eq_refl).
  - repeat constructor.
  - reflexivity.
Defined.

(** X12.  So does an [-o] at the end of the command line, with no argument
    left for its value: standard error gets [flag needs an argument: -o]
    and the usage text, and the status is 2. *)
Theorem missing_value_exits (env : Env) (st : State) (prog : string) (es : list entry)
    (dashes : bool) :
  openTTY env = None ->
  Args env = prog :: flat_map spelled es ++ [if dashes then "--o" else "-o"] ->
  Forall (fun e => wellFormed e = true) es ->
  main env st =
    (2%Z, set_stderr (stderr st +:+ "flag needs an argument: -o" +:+ nl
                      +:+ usage +:+ nl +:+ nl) st).
Proof.
  intros Htty Hargs Hes.
  assert (Hparse :
    parseArgs env st =
      (Exit 2, set_stderr (stderr st +:+ "flag needs an argument: -o"
                           +:+ nl +:+ Flag.Usage usage) st)).
  { apply (parseArgs_entries _ (fun _ => Flag.failf usage "flag needs an argument: -o")
             (fun output => Parse_missing output dashes)) with (prog := prog) (es := es);
      [|assumption..].
    right. eexists _, _. reflexivity. }
  now rewrite (exits_in_main _ _ _ _ Htty Hparse).
Qed.

Lemma missing_value_exits_witness :
  let env := golint ["x/y"; "-o"] in
  main env (tty []) =
    (2%Z, set_stderr (stderr (tty []) +:+ "flag needs an argument: -o" +:+ nl
                      +:+ usage +:+ nl +:+ nl) (tty [])).
Proof.
  apply (missing_value_exits (golint ["x/y"; "-o"]) (tty []) "genpkgbuild-go"
           [Operand "x/y"] false eq_refl eq_refl).
  repeat constructor.
Defined.

(** ** Failures before the questions *)

(** X13.  Without a controlling terminal nothing else is looked at: whatever
    the command line holds, [-h] and flags that are not defined included,
    [run] returns [could not open TTY: ...] around the error of the open,
    with the process as it was, and the status is 1. *)
Theorem no_terminal (env : Env) (st : State) (err : error) :
  openTTY env = Some err ->
  run env st = (Err (Errorf_w "could not open TTY: " err), st)
  /\ Error (Errorf_w "could not open TTY: " err) = "could not open TTY: " +:+ Error err
  /\ (main env st).1 = 1%Z
  /\ files (main env st).2 = files st
  /\ w (main env st).2 = w st
  /\ (As_IncorrectUsageError err = false ->
      stderr (main env st).2 = stderr st +:+ "could not open TTY: " +:+ Error err +:+ nl).
Proof.
  intros Htty.
  assert (Hrun : run env st = (Err (Errorf_w "could not open TTY: " err), st)).
  { apply run_Err. unfold gather. now rewrite Htty. }
  unfold main. rewrite Hrun. cbn [fst snd As_IncorrectUsageError Errorf_w].
  repeat split.
  - now destruct (As_IncorrectUsageError err).
  - now destruct (As_IncorrectUsageError err).
  - intros ->. cbn [stderr Fprintln_stderr set_stderr snd]. unfold Errorf_w.
    cbn [Error]. now rewrite !app_assoc.
Qed.

Lemma no_terminal_witness :
  let err := PathError "open" "/dev/tty" "no such device or address" in
  let st := tty [] in
  run detached st = (Err (Errorf_w "could not open TTY: " err), st)
  /\ Error (Errorf_w "could not open TTY: " err) = "could not open TTY: " +:+ Error err
  /\ (main detached st).1 = 1%Z
  /\ files (main detached st).2 = files st
  /\ w (main detached st).2 = w st
  /\ (As_IncorrectUsageError err = false ->
      stderr (main detached st).2
      = stderr st +:+ "could not open TTY: " +:+ Error err +:+ nl).
Proof.
  exact (no_terminal detached (tty [])
           (PathError "open" "/dev/tty" "no such device or address") eq_refl).
Defined.

(** X14.  With no argument at all the destination is opened before the
    command line is found wanting.  When no [PKGBUILD] is in the way, [run]
    returns the [IncorrectUsageError] and leaves an empty [PKGBUILD] behind.
    When one is there, [run] returns the error of the exclusive open
    instead, and [main] prints that error without the usage text. *)
Theorem usage_error_after_open (env : Env) (st : State) (prog : string) :
  Args env = [prog] ->
  openTTY env = None ->
  createFile env "PKGBUILD" = None ->
  match files st !! "PKGBUILD" with
  | None =>
    (run env st).1 = Err (IncorrectUsageError (errorString "specify import path"))
    /\ files (run env st).2 = <["PKGBUILD" := ""]> (files st)
  | Some _ =>
    (run env st).1 = Err (PathError "open" "PKGBUILD" "file exists")
    /\ main env st = (1%Z, Fprintln_stderr "open PKGBUILD: file exists" st)
  end.
Proof.
  intros Hargs Htty Hcreate.
  assert (Hparse : parseArgs env st = (Ok ([], "PKGBUILD"), st)).
  { unfold parseArgs. now rewrite Hargs. }
  destruct (files st !! "PKGBUILD") as [content|] eqn:Hfile.
  - destruct (open_existing env st [] "PKGBUILD" content Htty) as (Hrun & _ & Hmain);
      [now rewrite Hparse | discriminate | assumption |].
    now rewrite Hrun, Hmain.
  - assert (Hrun : gather env st
                   = (Err (IncorrectUsageError (errorString "specify import path")),
                      set_files (<["PKGBUILD" := ""]> (files st)) st)).
    { unfold gather. rewrite Htty, (bind_Ok _ _ _ _ _ Hparse).
      cbn [bool_decide]. unfold bind at 1, OpenFile_excl.
      rewrite bool_decide_eq_false_2 by discriminate.
      now rewrite Hfile, Hcreate, Hargs. }
    apply run_Err in Hrun. now rewrite Hrun.
Qed.

Lemma usage_error_after_open_witness :
  let env := golint [] in
  let st := tty [] in
  match files st !! "PKGBUILD" with
  | None =>
    (run env st).1 = Err (IncorrectUsageError (errorString "specify import path"))
    /\ files (run env st).2 = <["PKGBUILD" := ""]> (files st)
  | Some _ =>
    (run env st).1 = Err (PathError "open" "PKGBUILD" "file exists")
    /\ main env st = (1%Z, Fprintln_stderr "open PKGBUILD: file exists" st)
  end.
Proof.
  exact (usage_error_after_open (golint []) (tty []) "genpkgbuild-go"
           eq_refl eq_refl eq_refl).
Defined.

(** The terminal opens, the command line gives an import path and the
    destination is open. *)
Section Resolving.

Variables (env : Env) (st : State).
Variables (importPath outputPath : string) (args : list string).

Hypothesis Htty : openTTY env = None.
Hypothesis Hparse : (parseArgs env st).1 = Ok (importPath :: args, outputPath).
Hypothesis Hdest :
  outputPath = "-" \/ (files st !! outputPath = None /\ createFile env outputPath = None).

(** X15.  When the import path cannot be resolved, [run] returns [can't get
    root repo for the import path: ...] around the error of the resolver.
    No goroutine is started and no question is asked; the file of the
    destination has been created by then and stays, empty.  The resolver is
    called verbose: what it has logged is on standard error when [run]
    returns, and nothing else has changed. *)
Theorem unresolved_import_path (err : error) :
  RepoRootForImportPath env importPath = inl err ->
  run env st
    = (Err (Errorf_w "can't get root repo for the import path: " err),
       resolved env importPath outputPath st)
  /\ Error (Errorf_w "can't get root repo for the import path: " err)
     = "can't get root repo for the import path: " +:+ Error err
  /\ (main env st).1 = 1%Z
  /\ stderr (run env st).2 = stderr st +:+ verboseLog env importPath.
Proof.
  intros Hresolve.
  assert (Hrun : run env st
                 = (Err (Errorf_w "can't get root repo for the import path: " err),
                    resolved env importPath outputPath st)).
  { apply run_Err.
    pose proof (parseArgs_fst _ _ _ Hparse) as Hp.
    pose proof (parseArgs_positional _ _ _ _ _ _ Hp) as Hlen.
    apply Nat.ltb_ge in Hlen.
    unfold gather.
    rewrite Htty, (bind_Ok _ _ _ _ _ Hp),
      (bind_Ok _ _ _ _ _ (open_destination env st outputPath Hdest)), Hlen.
    rewrite (bind_Ok (ret importPath) _ _ _ _ eq_refl).
    rewrite (bind_Ok (modify _) _ _ _ _ eq_refl), Hresolve. reflexivity. }
  unfold main. rewrite Hrun. split; [reflexivity|]. split; [reflexivity|].
  split; [reflexivity|]. cbn [snd].
  exact (proj1 (proj2 (proj2 (proj2 (resolved_frame env importPath outputPath st))))).
Qed.

End Resolving.

Lemma unresolved_import_path_witness :
  let env := unknown ["example.org/x"] in
  let st := tty [] in
  let err := errorString ("unrecognized import path " +:+ dq +:+ "example.org/x" +:+ dq) in
  run env st
    = (Err (Errorf_w "can't get root repo for the import path: " err),
       resolved env "example.org/x" "PKGBUILD" st)
  /\ Error (Errorf_w "can't get root repo for the import path: " err)
     = "can't get root repo for the import path: " +:+ Error err
  /\ (main env st).1 = 1%Z
  /\ stderr (run env st).2 = stderr st +:+ verboseLog env "example.org/x".
Proof.
  apply (unresolved_import_path (unknown ["example.org/x"]) (tty []) "example.org/x"
           "PKGBUILD" [] eq_refl); evaluated.
Defined.

(** ** When the usage text is shown *)

(** The closure that reads the command line returns no [error]: the flag
    set exits on the errors of [Parse]. *)
Lemma parseArgs_no_error (env : Env) (st : State) (e : error) :
  (parseArgs env st).1 <> Err e.
Proof.
  unfold parseArgs, panic, ret.
  destruct (Args env) as [|prog arguments]; [discriminate|].
  destruct (Flag.Parse usage "PKGBUILD" arguments) as [output rest|]; [|discriminate].
  destruct (Flag.positionals usage (length rest) output rest []) as [[args [o r|c e']]|];
    [|discriminate..].
  destruct (Flag.Parse usage o arguments); discriminate.
Qed.

Lemma prompt_library (p dflt : string) (st st' : State) (r : result string) :
  prompt p dflt st = (r, st') ->
  scanErr (scn st') = scanErr (scn st)
  /\ goroutine st' = goroutine st
  /\ forall e, r = Err e ->
       (forall e0, scanErr (scn st) = Some e0 -> libraryError e0) -> libraryError e.
Proof.
  rewrite prompt_eq. cbn zeta.
  destruct (tokens (scn st)) as [|text rest]; intros [= <- <-];
    (split; [reflexivity|]); (split; [reflexivity|]); [|discriminate].
  intros e [= <-] Hscan. destruct (scanErr (scn st)) as [e0|]; [|reflexivity].
  exact (Hscan _ eq_refl).
Qed.

Lemma getVersion_library (env : Env) (st : State) (repoRoot : RepoRoot) (err : error) :
  libraryErrors env st ->
  (getVersion env repoRoot).2.2 = Some err -> libraryError err.
Proof.
  intros (_ & _ & _ & Hdir & Hclone & Hout & _). unfold getVersion.
  destruct (TempDir env) as [e|dir] eqn:Edir; cbn [fst snd].
  { intros [= <-]. exact (Hdir _ eq_refl). }
  destruct (Create env (VCS repoRoot) dir (RepoURL repoRoot)) as [e|] eqn:Eclone;
    cbn [fst snd].
  { intros [= <-]. exact (Hclone _ _ _ _ Eclone). }
  destruct (Output env dir) as [e|version] eqn:Eout; cbn [fst snd]; [|discriminate].
  intros [= <-]. exact (Hout _ _ Eout).
Qed.

Lemma gather_usage (env : Env) (st : State) :
  libraryErrors env st ->
  wp (gather env)
     (fun r _ => forall err, r = Err err -> As_IncorrectUsageError err = true ->
                 length (Args env) = 1%nat
                 /\ err = IncorrectUsageError (errorString "specify import path")) st.
Proof.
  intros Hlib. pose proof Hlib as (Htty & Hcreate & Hresolve & _ & _ & _ & Hscan).
  unfold gather.
  destruct (openTTY env) as [e|].
  { apply wp_fail. intros err [= <-] Has. cbn [As_IncorrectUsageError Errorf_w] in Has.
    now rewrite (Htty _ eq_refl) in Has. }
  apply wp_bind. unfold wp at 1.
  destruct (parseArgs env st) as [r st1] eqn:Hparse.
  destruct r as [[args outputPath]|e1| | |]; try no_value.
  2:{ exfalso. apply (parseArgs_no_error env st e1). now rewrite Hparse. }
  apply parseArgs_state in Hparse as Hst1. subst st1. cbn [fst snd].
  apply wp_bind. unfold wp at 1.
  set (open := if bool_decide (outputPath = "-") then ret Stdout
               else OpenFile_excl env outputPath).
  assert (Hopen : forall r st2, open st = (r, st2) ->
            scn st2 = scn st
            /\ forall e, r = Err e -> libraryError e).
  { subst open. destruct (bool_decide (outputPath = "-")).
    - intros r st2 [= <- <-]. split; [reflexivity | discriminate].
    - unfold OpenFile_excl. intros r st2.
      destruct (files st !! outputPath); [intros [= <- <-]; split; [reflexivity|];
                                          now intros e [= <-]|].
      destruct (createFile env outputPath) as [e0|] eqn:Ecreate; intros [= <- <-];
        (split; [reflexivity|]); [|discriminate].
      intros e [= <-]. exact (Hcreate _ _ Ecreate). }
  destruct (open st) as [r st2] eqn:Eopen.
  destruct (Hopen _ _ eq_refl) as [Hscn2 Herr2]. clear Hopen Eopen open. cbn [fst snd].
  destruct r as [output|e2| | |]; try no_value.
  2:{ intros err' [= <-] Has. now rewrite (Herr2 _ eq_refl) in Has. }
  clear Herr2.
  destruct (length (Args env) <? 2)%nat eqn:Hlen.
  { apply wp_fail. intros err [= <-] _. split; [|reflexivity].
    apply Nat.ltb_lt in Hlen. unfold parseArgs in Hparse.
    destruct (Args env) as [|prog [|a rest]]; cbn [length] in *;
      [discriminate|reflexivity|lia]. }
  apply wp_bind.
  destruct args as [|importPath args]; [no_value|].
  apply wp_ret, wp_modify, wp_bind.
  destruct (RepoRootForImportPath env importPath) as [e|repoRoot] eqn:Eresolve.
  { apply wp_fail. intros err [= <-] Has. cbn [As_IncorrectUsageError Errorf_w] in Has.
    now rewrite (Hresolve _ _ Eresolve) in Has. }
  apply wp_ret.
  destruct (bool_decide (Name (VCS repoRoot) = "Git")); cbn [negb];
    [|apply wp_fail; intros err [= <-]; discriminate].
  apply wp_bind. unfold wp at 1. rewrite go_getVersion_spec. cbn [fst snd].
  match goal with |- wp _ _ ?s => remember s as st3 eqn:E3 end.
  assert (Hg3 : goroutine st3 =
            (getVersion env repoRoot).1
            ++ [BgSend (SendErr (getVersion env repoRoot).2.2);
                BgSend (SendVersion (getVersion env repoRoot).2.1)]) by now subst st3.
  assert (Hscn3 : scanErr (scn st3) = scanErr (scn st)) by (subst st3; simpl; congruence).
  clear E3 Hscn2 st2.
  assert (Hscan' : forall s, scanErr (scn s) = scanErr (scn st) ->
                    forall e0, scanErr (scn s) = Some e0 -> libraryError e0).
  { intros s ->. exact Hscan. }
  (* the questions *)
  apply wp_bind. unfold wp at 1.
  destruct (prompt _ _ st3) as [r st4] eqn:E4.
  apply prompt_library in E4 as (Hscn4 & Hg4 & Herr4). rewrite Hscn3 in Hscn4.
  destruct r as [pkgName|e4| | |]; try no_value.
  2:{ intros err' [= <-] Has. now rewrite (Herr4 _ eq_refl (Hscan' _ Hscn3)) in Has. }
  clear Herr4. cbn [fst snd].
  apply wp_bind. unfold wp at 1.
  destruct (prompt _ _ st4) as [r st5] eqn:E5.
  apply prompt_library in E5 as (Hscn5 & Hg5 & Herr5). rewrite Hscn4 in Hscn5.
  destruct r as [dependsList|e5| | |]; try no_value.
  2:{ intros err' [= <-] Has. now rewrite (Herr5 _ eq_refl (Hscan' _ Hscn4)) in Has. }
  clear Herr5. cbn [fst snd].
  apply wp_bind. unfold wp at 1.
  destruct (relPath _ _ st5) as [r st6] eqn:E6.
  assert (Hrel : st6 = st5 /\ forall e, r = Err e -> libraryError e).
  { revert E6. unfold relPath, bind, fail, ret.
    destruct (Rel (RootPath repoRoot) importPath); intros [= <- <-];
      (split; [reflexivity|]); [|discriminate].
    now intros e [= <-]. }
  destruct Hrel as [-> Herr6].
  destruct r as [relp|e6| | |]; try no_value.
  2:{ intros err' [= <-] Has. now rewrite (Herr6 _ eq_refl) in Has. }
  clear Herr6 E6. cbn [fst snd].
  apply wp_bind. unfold wp at 1.
  destruct (prompt _ _ st5) as [r st7] eqn:E7.
  apply prompt_library in E7 as (Hscn7 & Hg7 & Herr7).
  destruct r as [binName|e7| | |]; try no_value.
  2:{ intros err' [= <-] Has. now rewrite (Herr7 _ eq_refl (Hscan' _ Hscn5)) in Has. }
  clear Herr7. cbn [fst snd].
  apply wp_bind. unfold wp at 1. cbn [Fprint_w modify fst snd].
  match goal with |- wp _ _ ?s => remember s as st8 eqn:E8 end.
  assert (Hg8 : goroutine st8 = goroutine st3) by (subst st8; simpl; congruence).
  clear E8.
  (* the join *)
  apply wp_bind. unfold wp at 1.
  destruct (recv_errC_started (getVersion env repoRoot).1 (getVersion env repoRoot).2.2
              (getVersion env repoRoot).2.1 st8) as (st9 & Hrecv & Hg9 & _).
  { apply getVersion_steps. }
  { congruence. }
  rewrite Hrecv. cbn [fst snd].
  destruct (getVersion env repoRoot).2.2 as [e|] eqn:Eerr.
  { apply wp_fail. intros err [= <-] Has.
    now rewrite (getVersion_library _ _ _ _ Hlib Eerr) in Has. }
  apply wp_bind. unfold wp at 1.
  destruct (recv_versionC_pending _ _ Hg9) as (st10 & Hrecv' & _).
  rewrite Hrecv'. cbn [fst snd].
  unfold wp, bind, Fprintln_w, Fprint_w, modify, ret.
  destruct output; cbn [fst snd]; intros err' Heq; discriminate Heq.
Qed.

(** X16.  When the errors that reach the program from outside are errors of
    the libraries, [main] prints the usage text after an error only for a
    command line without any argument: the error of [run] is then
    [specify import path]. *)
Theorem usage_only_without_arguments (env : Env) (st : State) (err : error) :
  libraryErrors env st ->
  (run env st).1 = Err err ->
  As_IncorrectUsageError err = true ->
  length (Args env) = 1%nat
  /\ err = IncorrectUsageError (errorString "specify import path")
  /\ stderr (main env st).2
     = stderr (run env st).2 +:+ "specify import path" +:+ nl +:+ nl +:+ usage +:+ nl +:+ nl.
Proof.
  intros Hlib Hrun Has.
  pose proof (gather_usage env st Hlib) as Hwp. unfold wp in Hwp.
  assert (Hgather : (gather env st).1 = Err err).
  { revert Hrun. unfold run, bind.
    destruct (gather env st) as [[call| | | |] st1]; cbn; congruence. }
  destruct (Hwp _ Hgather Has) as [Hlen ->]. split; [assumption|]. split; [reflexivity|].
  unfold main. destruct (run env st) as [r st'].
  cbn [fst snd] in *. subst r.
  cbn [As_IncorrectUsageError Error snd Fprintln_stderr set_stderr stderr].
  unfold Fprintln_stderr. cbn [set_stderr stderr]. now rewrite !app_assoc.
Qed.

Lemma usage_only_without_arguments_witness :
  let env := golint [] in
  let st := tty [] in
  let err := IncorrectUsageError (errorString "specify import path") in
  length (Args env) = 1%nat
  /\ err = IncorrectUsageError (errorString "specify import path")
  /\ stderr (main env st).2
     = stderr (run env st).2 +:+ "specify import path" +:+ nl +:+ nl +:+ usage +:+ nl +:+ nl.
Proof.
  apply (usage_only_without_arguments (golint []) (tty [])
           (IncorrectUsageError (errorString "specify import path"))).
  - repeat split; intros; discriminate.
  - vm_compute. reflexivity.
  - reflexivity.
Defined.

(** ** The fields of the recipe *)

Lemma extend_nonempty (cur : option string) (c : ascii) : extend cur c <> "".
Proof. destruct cur as [[|x f]|]; discriminate. Qed.

Lemma fieldsASCII_nonempty (s : string) (cur : option string) :
  (forall f, cur = Some f -> f <> "") ->
  Forall (fun f => f <> "") (fieldsASCII cur s).
Proof.
  revert cur. induction s as [|c s IH]; intros cur Hcur; cbn [fieldsASCII].
  - destruct cur as [f|]; cbn [emit]; [|constructor]. constructor; [auto | constructor].
  - destruct (asciiSpace c).
    + apply Forall_app. split.
      * destruct cur as [f|]; cbn [emit]; [|constructor]. constructor; [auto | constructor].
      * apply IH. discriminate.
    + apply IH. intros f [= <-]. apply extend_nonempty.
Qed.

Lemma fieldsFrom_nonempty (f : N -> bool) (s : string) (skip : nat) (cur : option string) :
  (forall x, cur = Some x -> x <> "") ->
  Forall (fun x => x <> "") (fieldsFrom f skip cur s).
Proof.
  revert skip cur. induction s as [|c s IH]; intros skip cur Hcur; cbn [fieldsFrom].
  - destruct cur as [x|]; cbn [emit]; [|constructor]. constructor; [auto | constructor].
  - destruct skip as [|k].
    + destruct (DecodeRuneInString (String c s)) as [r size]. destruct (f r).
      * apply Forall_app. split.
        -- destruct cur as [x|]; cbn [emit]; [|constructor].
           constructor; [auto | constructor].
        -- apply IH. discriminate.
      * apply IH. intros x [= <-]. apply extend_nonempty.
    + apply IH. destruct cur as [x|]; [|discriminate].
      intros y [= <-]. apply (extend_nonempty (Some x)).
Qed.

Lemma Fields_nonempty (s : string) : Forall (fun f => f <> "") (Fields s).
Proof.
  unfold Fields, FieldsFunc. destruct (all isASCII s).
  - apply fieldsASCII_nonempty. discriminate.
  - apply fieldsFrom_nonempty. discriminate.
Qed.

Lemma answer_nonempty (text dflt : string) : dflt <> "" -> answer text dflt <> "".
Proof. unfold answer. case_bool_decide; auto. Qed.

(** X17.  The data that [run] hands to the template: the package name, the
    directory and the binary name are not empty (an empty answer gives the
    default, and [path.Base] returns no empty string), the directory has no
    slash in it unless it is [/] itself, no dependency is empty, and the
    sub-path is not [.]. *)
Theorem recipe_fields_not_empty (env : Env) (st st1 : State) (output : file)
    (d : TmplData) :
  gather env st = (Ok (output, d), st1) ->
  PkgName d <> "" /\ Dir d <> "" /\ BinName d <> ""
  /\ (Dir d = "/" \/ noSlash (Dir d) = true)
  /\ Forall (fun v => v <> "") (Depends d)
  /\ Path d <> ".".
Proof.
  intros Hgather.
  destruct (gather_data _ _ _ _ _ Hgather)
    as (importPath & args & outputPath & repoRoot & t1 & t2 & t3 & rest & dir & out & rel
        & _ & _ & _ & _ & _ & _ & _ & _ & ->).
  clear Hgather. cbn [PkgName Dir BinName Depends Path]. repeat split.
  - apply answer_nonempty, append_nonempty. discriminate.
  - apply Base_nonempty.
  - apply answer_nonempty, Base_nonempty.
  - unfold Base. case_decide; [right; reflexivity|]. case_decide; [left; reflexivity|].
    right. unfold noSlash. rewrite all_rev.
    generalize (dropSlashes (rev (RootPath repoRoot))). intros s.
    induction s as [|c s IH]; [reflexivity|]. cbn [elem].
    destruct (isSlash c) eqn:Hc; [reflexivity|]. cbn [all]. now rewrite Hc.
  - apply Fields_nonempty.
  - case_bool_decide; [discriminate | assumption].
Qed.

Lemma recipe_fields_not_empty_witness :
  let d := dataOf lint "github.com/golang/lint/golint" "" "" ""
             ("r179.414d861" +:+ nl) "golint" in
  PkgName d <> "" /\ Dir d <> "" /\ BinName d <> ""
  /\ (Dir d = "/" \/ noSlash (Dir d) = true)
  /\ Forall (fun v => v <> "") (Depends d)
  /\ Path d <> ".".
Proof.
  apply (recipe_fields_not_empty (golint ["github.com/golang/lint/golint"])
           (answers [""; ""; ""] ∅)
           (gather (golint ["github.com/golang/lint/golint"]) (answers [""; ""; ""] ∅)).2
           (File "PKGBUILD")).
  apply gather_computed. vm_compute. reflexivity.
Defined.

(** ** Names taken from the paths *)

Lemma dropSlashes_name (c : ascii) (s : string) :
  isSlash c = false -> dropSlashes (String c s) = String c s.
Proof. intros Hc. cbn [dropSlashes]. now rewrite Hc. Qed.

Lemma dropSlashes_slashes (slashes s : string) :
  all isSlash slashes = true -> dropSlashes (slashes +:+ s) = dropSlashes s.
Proof.
  induction slashes as [|c t IH]; [reflexivity|]. cbn [all String.append dropSlashes].
  intros [-> Ht]%andb_true_iff. now apply IH.
Qed.

Lemma noSlash_rev (e : string) : noSlash (rev e) = noSlash e.
Proof. apply all_rev. Qed.

(** X18.  The directory of the recipe and the defaults of the first and the
    third question come from [path.Base]: for a path that ends in a name,
    with or without slashes after it, that is the name.  So for an import
    path [a/b/c] the binary is called [c] unless the answer says otherwise,
    and for a repository root [a/b] the package is called [b-git]. *)
Theorem Base_last_name (dir e slashes : string) :
  e <> "" -> noSlash e = true -> all isSlash slashes = true ->
  Base (dir +:+ "/" +:+ e +:+ slashes) = e
  /\ Base (e +:+ slashes) = e
  /\ question "Binary name to be installed" (Base (dir +:+ "/" +:+ e))
     = "Binary name to be installed: (" +:+ e +:+ ") "
  /\ question "Package Name" (Base (dir +:+ "/" +:+ e) +:+ "-git")
     = "Package Name: (" +:+ e +:+ "-git) ".
Proof.
  intros Hne He Hslashes.
  assert (Hrev : exists c r, rev e = String c r /\ isSlash c = false).
  { destruct (rev e) as [|c r] eqn:Erev.
    - apply (f_equal rev) in Erev. rewrite rev_involutive in Erev. contradiction.
    - exists c, r. split; [reflexivity|].
      rewrite <- noSlash_rev, Erev in He. unfold noSlash in He. cbn [all] in He.
      apply andb_true_iff in He as [Hc _]. now apply negb_true_iff in Hc. }
  destruct Hrev as (c & r & Hrev & Hc).
  assert (Hbase : forall prefix sl,
            prefix = "" \/ (exists dir', prefix = dir' +:+ "/") ->
            all isSlash sl = true ->
            Base (prefix +:+ e +:+ sl) = e).
  { intros prefix sl Hprefix Hsl. unfold Base.
    case_decide as Hempty.
    { destruct prefix, e; discriminate. }
    rewrite <- !app_assoc, !rev_app.
    rewrite dropSlashes_slashes by now rewrite all_rev.
    rewrite Hrev. cbn [String.append]. rewrite dropSlashes_name by assumption.
    change (String c (r +:+ rev prefix)) with (String c r +:+ rev prefix).
    rewrite <- Hrev.
    assert (Helem : elem (rev e +:+ rev prefix) = rev e).
    { assert (Hn : noSlash (rev e) = true) by now rewrite noSlash_rev.
      destruct Hprefix as [-> | [dir' ->]].
      - cbn [rev]. rewrite app_nil_r. exact (proj2 (elem_name _ "" Hn)).
      - rewrite rev_app. cbn [rev String.append].
        exact (proj1 (elem_name _ (rev dir') Hn)). }
    rewrite Helem, rev_involutive.
    case_decide; congruence. }
  split.
  { rewrite <- (app_assoc dir "/"). apply Hbase; eauto. }
  split.
  { apply (Hbase ""); auto. }
  assert (Hplain : Base (dir +:+ "/" +:+ e) = e).
  { rewrite <- (app_nil_r e) at 1. rewrite <- (app_assoc dir "/").
    apply (Hbase (dir +:+ "/") ""); eauto. }
  rewrite Hplain. unfold question.
  rewrite (bool_decide_eq_false_2 _ Hne).
  rewrite bool_decide_eq_false_2 by (apply append_nonempty; discriminate).
  now rewrite !app_assoc.
Qed.

Lemma Base_last_name_witness :
  Base ("github.com/golang/lint" +:+ "/" +:+ "golint" +:+ "/") = "golint"
  /\ Base ("golint" +:+ "/") = "golint"
  /\ question "Binary name to be installed" (Base ("github.com/golang/lint" +:+ "/" +:+ "golint"))
     = "Binary name to be installed: (" +:+ "golint" +:+ ") "
  /\ question "Package Name" (Base ("github.com/golang/lint" +:+ "/" +:+ "golint") +:+ "-git")
     = "Package Name: (" +:+ "golint" +:+ "-git) ".
Proof.
  apply (Base_last_name "github.com/golang/lint" "golint" "/"); [discriminate|reflexivity..].
Defined.

(** ** Lines of ASCII bytes *)

Lemma trimmed_one (c : ascii) : solid c = true -> trimmed (String c "") = true.
Proof. intros Hc. unfold trimmed. cbn. now rewrite Hc. Qed.

Lemma trimmed_cons (c : ascii) (lead core : string) :
  solid c = true -> trimmed core = true -> trimmed (String c (lead +:+ core)) = true.
Proof.
  unfold trimmed. intros Hc Hcore.
  destruct core as [|x core']; [discriminate|].
  destruct (rev (String x core')) as [|y r] eqn:Erev; [discriminate|].
  apply andb_true_iff in Hcore as [_ Hy].
  change (String c (lead +:+ String x core')) with ((String c lead) +:+ String x core').
  rewrite rev_app, Erev. cbn [String.append]. now rewrite Hc, Hy.
Qed.

(** A line of ASCII bytes is white space, or white space around a part that
    starts and ends with other bytes. *)
Lemma ASCII_line (s : string) :
  all isASCII s = true ->
  all asciiSpace s = true
  \/ exists lead core trail,
       s = lead +:+ core +:+ trail
       /\ all asciiSpace lead = true /\ trimmed core = true
       /\ all asciiSpace trail = true.
Proof.
  induction s as [|c s IH]; [now left|]. cbn [all].
  intros [Hc Hs]%andb_true_iff.
  destruct (asciiSpace c) eqn:Hspace.
  - destruct (IH Hs) as [Hblank | (lead & core & trail & -> & Hlead & Hcore & Htrail)].
    + left. now rewrite Hblank.
    + right. exists (String c lead), core, trail. cbn [all]. now rewrite Hspace.
  - assert (Hsolid : solid c = true) by (unfold solid; now rewrite Hc, Hspace).
    right.
    destruct (IH Hs) as [Hblank | (lead & core & trail & -> & Hlead & Hcore & Htrail)].
    + exists "", (String c ""), s. repeat split; [now apply trimmed_one | assumption].
    + exists "", (String c (lead +:+ core)), trail. repeat split.
      * cbn [String.append]. now rewrite app_assoc.
      * now apply trimmed_cons.
      * assumption.
Qed.

(** X19.  For a line of ASCII bytes, what [prompt] returns is the default or a
    string that starts and ends with bytes that are no white space, on which
    [strings.TrimSpace] does nothing more; the line is that string with white
    space before and after it. *)
Theorem ASCII_answer_trimmed (p dflt text : string) (rest : list string)
    (e : option error) (st : State) :
  scn st = {| tokens := text :: rest; scanErr := e |} ->
  all isASCII text = true ->
  exists v,
    (prompt p dflt st).1 = Ok v
    /\ ((all asciiSpace text = true /\ v = dflt)
        \/ (trimmed v = true /\ TrimSpace v = v
            /\ exists lead trail,
                 text = lead +:+ v +:+ trail
                 /\ all asciiSpace lead = true /\ all asciiSpace trail = true)).
Proof.
  intros Hscn Htext. rewrite (prompt_scanned _ _ _ _ _ _ Hscn). cbn [fst].
  destruct (ASCII_line _ Htext) as [Hblank | (lead & core & trail & -> & Hlead & Hcore & Htrail)].
  - rewrite (TrimSpace_blank _ Hblank). eexists. split; [reflexivity|]. now left.
  - rewrite (TrimSpace_padded _ _ _ Hlead Hcore Htrail).
    rewrite bool_decide_eq_false_2 by (intros ->; discriminate).
    eexists. split; [reflexivity|]. right. split; [assumption|]. split.
    + rewrite <- (app_nil_r core) at 1. now apply TrimSpace_solid.
    + eauto.
Qed.

Lemma ASCII_answer_trimmed_witness :
  exists v,
    (prompt "Package Name" "lint-git" (tty ["  golint-git "; "x"])).1 = Ok v
    /\ ((all asciiSpace "  golint-git " = true /\ v = "lint-git")
        \/ (trimmed v = true /\ TrimSpace v = v
            /\ exists lead trail,
                 "  golint-git " = lead +:+ v +:+ trail
                 /\ all asciiSpace lead = true /\ all asciiSpace trail = true)).
Proof.
  apply (ASCII_answer_trimmed "Package Name" "lint-git" "  golint-git " ["x"] None
           (tty ["  golint-git "; "x"]) eq_refl).
  reflexivity.
Defined.

Lemma word_extend (cur : option string) (c : ascii) :
  (forall f, cur = Some f -> word f = true) -> solid c = true ->
  word (extend cur c) = true.
Proof.
  intros Hcur Hc. unfold word. apply andb_true_iff. split.
  - apply negb_true_iff, bool_decide_eq_false. apply extend_nonempty.
  - destruct cur as [f|]; cbn [extend all]; [|now rewrite Hc].
    specialize (Hcur _ eq_refl). unfold word in Hcur.
    apply andb_true_iff in Hcur as [_ Hf]. rewrite all_app, Hf. cbn [all]. now rewrite Hc.
Qed.

Lemma fieldsASCII_are_words (s : string) (cur : option string) :
  all isASCII s = true ->
  (forall f, cur = Some f -> word f = true) ->
  Forall (fun f => word f = true) (fieldsASCII cur s).
Proof.
  revert cur. induction s as [|c s IH]; intros cur Hs Hcur; cbn [fieldsASCII].
  - destruct cur as [f|]; cbn [emit]; [|constructor]. constructor; [auto | constructor].
  - cbn [all] in Hs. apply andb_true_iff in Hs as [Hc Hs].
    destruct (asciiSpace c) eqn:Hspace.
    + apply Forall_app. split.
      * destruct cur as [f|]; cbn [emit]; [|constructor]. constructor; [auto | constructor].
      * apply IH; [assumption | discriminate].
    + apply IH; [assumption|]. intros f [= <-]. apply word_extend; [assumption|].
      unfold solid. now rewrite Hc, Hspace.
Qed.

Lemma TrimSpace_ASCII (s : string) : all isASCII s = true -> all isASCII (TrimSpace s) = true.
Proof.
  intros Hs.
  destruct (ASCII_line _ Hs) as [Hblank | (lead & core & trail & -> & Hlead & Hcore & Htrail)].
  - now rewrite (TrimSpace_blank _ Hblank).
  - rewrite (TrimSpace_padded _ _ _ Hlead Hcore Htrail).
    rewrite !all_app in Hs. now apply andb_true_iff in Hs as [_ [? _]%andb_true_iff].
Qed.

(** X20.  When the line of the dependencies is made of ASCII bytes, every
    dependency of the recipe is a word: it is not empty and has no white
    space in it, however much white space the line has between the words
    and around them.  Joined with single spaces and split again, the
    dependencies come back as they are. *)
Theorem dependencies_are_words (env : Env) (st st1 : State) (output : file)
    (d : TmplData) :
  gather env st = (Ok (output, d), st1) ->
  exists t1 line rest,
    tokens (scn st) = t1 :: line :: rest
    /\ (all isASCII line = true ->
        Forall (fun v => word v = true) (Depends d)
        /\ Fields (Join (Depends d) " ") = Depends d).
Proof.
  intros Hgather.
  destruct (gather_data _ _ _ _ _ Hgather)
    as (importPath & args & outputPath & repoRoot & t1 & t2 & t3 & rest & dir & out & rel
        & _ & _ & _ & Htokens & _ & _ & _ & _ & ->).
  exists t1, t2, (t3 :: rest). split; [exact Htokens|]. intros Hline. cbn [Depends].
  assert (Hwords : Forall (fun v => word v = true) (Fields (TrimSpace t2))).
  { unfold Fields. rewrite (TrimSpace_ASCII _ Hline).
    apply fieldsASCII_are_words; [now apply TrimSpace_ASCII | discriminate]. }
  split; [exact Hwords | now apply Fields_words].
Qed.

Lemma dependencies_are_words_witness :
  let d := dataOf lint "github.com/golang/lint/golint" "" "  glibc   git " ""
             ("r179.414d861" +:+ nl) "golint" in
  exists t1 line rest,
    tokens (scn (answers [""; "  glibc   git "; ""] ∅)) = t1 :: line :: rest
    /\ (all isASCII line = true ->
        Forall (fun v => word v = true) (Depends d)
        /\ Fields (Join (Depends d) " ") = Depends d).
Proof.
  apply (dependencies_are_words (golint ["github.com/golang/lint/golint"])
           (answers [""; "  glibc   git "; ""] ∅)
           (gather (golint ["github.com/golang/lint/golint"])
                   (answers [""; "  glibc   git "; ""] ∅)).2
           (File "PKGBUILD")).
  apply gather_computed. vm_compute. reflexivity.
Defined.

(** ** Values that the escaper leaves alone *)

Lemma escapeByte_plain (c : ascii) : plain c = true -> escapeByte c = String c "".
Proof. unfold plain, escapeByte. now intros ->. Qed.

Lemma escapeByte_longer (c : ascii) : plain c = false -> (3 <= len (escapeByte c))%nat.
Proof.
  unfold plain, escapeByte. intros H. rewrite H.
  destruct c as [[] [] [] [] [] [] [] []]; vm_compute in H; try discriminate H;
    vm_compute; lia.
Qed.

Lemma len_escapeBytes (s : string) : (len s <= len (escapeBytes s))%nat.
Proof.
  induction s as [|c s IH]; [reflexivity|]. cbn [escapeBytes len]. rewrite len_app.
  destruct (plain c) eqn:Hc.
  - rewrite (escapeByte_plain _ Hc). cbn [len]. lia.
  - pose proof (escapeByte_longer _ Hc). lia.
Qed.

(** X21.  The escaper leaves a value as it is exactly when the value has none
    of the seven bytes of its table in it: the double quote, [&], ['], [+],
    [<], [>] and the byte 0.  Any other value comes out longer, so that the
    recipe does not hold what was typed: a package name [gtk+] is written
    [gtk&#43;]. *)
Theorem escaper_identity (s : string) :
  (htmlEscaper s = s <-> all plain s = true)
  /\ (len s <= len (htmlEscaper s))%nat
  /\ (plain "+" = false /\ htmlEscaper "gtk+" = "gtk&#43;").
Proof.
  rewrite htmlEscaper_bytes. split; [|split; [apply len_escapeBytes | split; reflexivity]].
  induction s as [|c s IH]; [split; reflexivity|]. cbn [escapeBytes all].
  destruct (plain c) eqn:Hc.
  - rewrite (escapeByte_plain _ Hc). cbn [String.append andb]. split.
    + intros [= Heq]. now apply IH.
    + intros Hs. f_equal. now apply IH.
  - cbn [andb]. split; [|discriminate]. intros Heq. exfalso.
    apply (f_equal len) in Heq. rewrite len_app in Heq. cbn [len] in Heq.
    pose proof (escapeByte_longer _ Hc). pose proof (len_escapeBytes s). lia.
Qed.

(** ** How a process ends *)

(** When [Parse] gives up, the status is 0 (for [-h] and [-help]) or 2. *)
Lemma Parse_code (n : nat) (output : string) (arguments : list string) (code : Z)
    (msg : string) :
  (length arguments <= n)%nat ->
  Flag.Parse usage output arguments = Flag.Exits code msg ->
  code = 0%Z \/ code = 2%Z.
Proof.
  revert output arguments. induction n as [|n IH]; intros output arguments Hn.
  - destruct arguments; [discriminate | cbn in Hn; lia].
  - destruct arguments as [|s arguments]; [discriminate|].
    cbn [length] in Hn. cbn [Flag.Parse]. unfold Flag.failf.
    repeat case_match; try discriminate; subst;
      try (intros [= <- _]; auto);
      intros H; apply IH in H; cbn [length] in *; auto; lia.
Qed.

Lemma positionals_code (fuel : nat) (output : string) (rest args args' : list string)
    (code : Z) (msg : string) :
  Flag.positionals usage fuel output rest args = Some (args', Flag.Exits code msg) ->
  code = 0%Z \/ code = 2%Z.
Proof.
  revert output rest args. induction fuel as [|fuel IH]; intros output rest args.
  - destruct rest; discriminate.
  - destruct rest as [|a rest]; [discriminate|]. cbn [Flag.positionals].
    destruct (Flag.Parse usage output rest) as [output' rest'|c m] eqn:E.
    + apply IH.
    + intros [= _ <- _]. exact (Parse_code _ _ _ _ _ (Nat.le_refl _) E).
Qed.

Lemma parseArgs_code (env : Env) (st : State) (code : Z) :
  (parseArgs env st).1 = Exit code -> code = 0%Z \/ code = 2%Z.
Proof.
  unfold parseArgs, panic, ret.
  destruct (Args env) as [|prog arguments]; [discriminate|].
  destruct (Flag.Parse usage "PKGBUILD" arguments) as [output rest|c m] eqn:E1.
  2:{ intros [= <-]. exact (Parse_code _ _ _ _ _ (Nat.le_refl _) E1). }
  destruct (Flag.positionals usage (length rest) output rest []) as [[args [o r|c m]]|] eqn:E2;
    [| |discriminate].
  2:{ intros [= <-]. exact (positionals_code _ _ _ _ _ _ _ E2). }
  destruct (Flag.Parse usage o arguments) as [o' r'|c m] eqn:E3; [discriminate|].
  intros [= <-]. exact (Parse_code _ _ _ _ _ (Nat.le_refl _) E3).
Qed.

Lemma prompt_returns (p dflt : string) (st : State) : returns (prompt p dflt st).1.
Proof. rewrite prompt_eq. cbn zeta. now destruct (tokens (scn st)). Qed.

Lemma relPath_returns (root importPath : string) (st : State) :
  returns (relPath root importPath st).1.
Proof. unfold relPath, bind, fail, ret. now destruct (Rel root importPath). Qed.

Lemma returns_passed {A B} (r : result A) :
  returns r -> isOk r = false ->
  @pass A B r <> Deadlock /\ forall code, @pass A B r = Exit code -> code = 0%Z \/ code = 2%Z.
Proof. destruct r; try contradiction; try discriminate; intros _ _; split; discriminate. Qed.

(** [run] up to the rendering does not wait for ever on a channel, and
    when it ends in [os.Exit] it is the flag set that has called it. *)
Lemma gather_outcome (env : Env) (st : State) :
  wp (gather env)
     (fun r _ => r <> Deadlock /\ forall code, r = Exit code -> code = 0%Z \/ code = 2%Z)
     st.
Proof.
  unfold gather.
  destruct (openTTY env) as [e|]. { apply wp_fail. split; discriminate. }
  apply wp_bind. unfold wp at 1.
  pose proof (parseArgs_total env st) as Htotal.
  pose proof (parseArgs_code env st) as Hcode.
  destruct (parseArgs env st) as [r st1] eqn:Hparse. cbn [fst snd] in *.
  destruct r as [[args outputPath]|e1|msg|code|]; cbn [pass].
  2:{ split; discriminate. }
  2:{ split; discriminate. }
  2:{ split; [discriminate|]. intros c [= <-]. now apply Hcode. }
  2:{ contradiction. }
  apply parseArgs_state in Hparse as Hst1. subst st1. clear Htotal Hcode.
  apply wp_bind. unfold wp at 1.
  set (open := if bool_decide (outputPath = "-") then ret Stdout
               else OpenFile_excl env outputPath).
  assert (Hopen : returns (open st).1).
  { subst open. destruct (bool_decide (outputPath = "-")); [exact I|].
    unfold OpenFile_excl. now repeat case_match. }
  destruct (open st) as [r st2]. clear open. cbn [fst snd] in *.
  destruct r as [output|e2| | |]; try contradiction; [|split; discriminate].
  clear Hopen.
  destruct (length (Args env) <? 2)%nat.
  { apply wp_fail. split; discriminate. }
  apply wp_bind.
  destruct args as [|importPath args].
  { apply wp_panic. split; discriminate. }
  apply wp_ret, wp_modify, wp_bind.
  destruct (RepoRootForImportPath env importPath) as [e|repoRoot].
  { apply wp_fail. split; discriminate. }
  apply wp_ret.
  destruct (negb (bool_decide (Name (VCS repoRoot) = "Git"))).
  { apply wp_fail. split; discriminate. }
  apply wp_bind. unfold wp at 1. rewrite go_getVersion_spec. cbn [fst snd].
  match goal with |- wp _ _ ?s => remember s as st3 eqn:E3 end.
  assert (Hg3 : goroutine st3 =
            (getVersion env repoRoot).1
            ++ [BgSend (SendErr (getVersion env repoRoot).2.2);
                BgSend (SendVersion (getVersion env repoRoot).2.1)]) by now subst st3.
  clear E3 st2.
  apply wp_bind. unfold wp at 1.
  pose proof (prompt_returns "Package Name" (Base (RootPath repoRoot) +:+ "-git") st3) as Hr.
  destruct (prompt _ _ st3) as [r st4] eqn:E4.
  apply prompt_library in E4 as (_ & Hg4 & _). cbn [fst snd] in *.
  destruct r as [pkgName|e4| | |]; try contradiction; [|split; discriminate]. clear Hr.
  apply wp_bind. unfold wp at 1.
  pose proof (prompt_returns "Dependent Packages(split by space)" "" st4) as Hr.
  destruct (prompt _ _ st4) as [r st5] eqn:E5.
  apply prompt_library in E5 as (_ & Hg5 & _). cbn [fst snd] in *.
  destruct r as [dependsList|e5| | |]; try contradiction; [|split; discriminate]. clear Hr.
  apply wp_bind. unfold wp at 1.
  pose proof (relPath_returns (RootPath repoRoot) importPath st5) as Hr.
  destruct (relPath _ _ st5) as [r st6] eqn:E6.
  apply relPath_inv in E6 as [-> _]. cbn [fst snd] in *.
  destruct r as [relp|e6| | |]; try contradiction; [|split; discriminate]. clear Hr.
  apply wp_bind. unfold wp at 1.
  pose proof (prompt_returns "Binary name to be installed" (Base importPath) st5) as Hr.
  destruct (prompt _ _ st5) as [r st7] eqn:E7.
  apply prompt_library in E7 as (_ & Hg7 & _). cbn [fst snd] in *.
  destruct r as [binName|e7| | |]; try contradiction; [|split; discriminate]. clear Hr.
  apply wp_bind. unfold wp at 1. cbn [Fprint_w modify fst snd].
  match goal with |- wp _ _ ?s => remember s as st8 eqn:E8 end.
  assert (Hg8 : goroutine st8 = goroutine st3) by (subst st8; simpl; congruence).
  clear E8.
  (* the join *)
  apply wp_bind. unfold wp at 1.
  destruct (recv_errC_started (getVersion env repoRoot).1 (getVersion env repoRoot).2.2
              (getVersion env repoRoot).2.1 st8) as (st9 & Hrecv & Hg9 & _).
  { apply getVersion_steps. }
  { congruence. }
  rewrite Hrecv. cbn [fst snd].
  destruct (getVersion env repoRoot).2.2 as [e|] eqn:Eerr.
  { apply wp_fail. split; discriminate. }
  apply wp_bind. unfold wp at 1.
  destruct (recv_versionC_pending _ _ Hg9) as (st10 & Hrecv' & _).
  rewrite Hrecv'. cbn [fst snd].
  unfold wp, bind, Fprintln_w, Fprint_w, modify, ret.
  destruct output; cbn [fst snd]; split; discriminate.
Qed.

(** X22.  A process does not wait for ever on its channels: when [run]
    receives, the goroutine has been started and its next send is on the
    channel that [run] reads.  The process ends with status 0, 1 or 2: with
    1 exactly when [run] returns an error, and with 0 whenever it returns
    [nil]. *)
Theorem exit_status (env : Env) (st : State) :
  (run env st).1 <> Deadlock
  /\ ((main env st).1 = 0%Z \/ (main env st).1 = 1%Z \/ (main env st).1 = 2%Z)
  /\ ((main env st).1 = 1%Z <-> exists err, (run env st).1 = Err err)
  /\ (isOk (run env st).1 = true -> (main env st).1 = 0%Z).
Proof.
  pose proof (gather_outcome env st) as [Hlive Hcode].
  assert (Hrun : (run env st).1 <> Deadlock
                 /\ forall code, (run env st).1 = Exit code -> code = 0%Z \/ code = 2%Z).
  { revert Hlive Hcode. rewrite run_result.
    destruct (gather env st) as [[call| | | |] st1]; cbn [fst snd]; intros Hlive Hcode.
    all: split.
    all: try (intros H; discriminate H).
    all: try (intros c Hc; discriminate Hc).
    - intros c [= <-]. now apply Hcode.
    - intros _. now apply Hlive. }
  destruct Hrun as [Hlive' Hcode']. split; [assumption|].
  unfold main. destruct (run env st) as [[[]|err|msg|code|] st']; cbn [fst snd isOk] in *.
  5:{ contradiction. }
  4:{ destruct (Hcode' _ eq_refl) as [-> | ->];
        (split; [auto|]); (split; [|discriminate]);
        (split; [discriminate | intros [err [=]]]). }
  - split; [auto|]. split; [|reflexivity]. split; [discriminate | intros [err [=]]].
  - split; [auto|]. split; [|discriminate]. split; eauto.
  - split; [auto|]. split; [|discriminate]. split; [discriminate | intros [err [=]]].
Qed.
